(** * A shallow embedding of [emu.py]: the CPU, the PPU and the frame scheduler.

    The Python classes [CPU], [PPU] and [SNESEmulator] are embedded as
    records; their methods are computations in a state monad whose
    computations may raise a Python exception.  An exception does not roll
    the state back: the state a method had reached when it raised is the
    state the caller sees, as in Python.

    Python integers are unbounded, so registers and cycle counts are [Z];
    [&], [|], [<<] and [>>] are [Z.land], [Z.lor], [Z.shiftl] and
    [Z.shiftr], which agree with Python on negative numbers as well.  A
    [bytearray] is a [list Z]; that its cells are bytes is an invariant
    ([CPU.wf]), established by the masks of the code, not by the type. *)

From Stdlib Require Import ZArith Lia Bool List String.
From stdpp Require Import base numbers list.
Import ListNotations.

Open Scope Z_scope.

(** ** Python sequences and exceptions *)

Inductive exn : Type :=
| IndexError
| ValueError.

(** What a call does: it returns a value or raises.  [OutOfFuel] is not a
    Python outcome: it is what the model of a [while] loop answers when the
    bound on its iterations is too small for the loop to finish. *)
Inductive outcome (T : Type) : Type :=
| Ret (v : T)
| Raise (e : exn)
| OutOfFuel.
Arguments Ret {T} v.
Arguments Raise {T} e.
Arguments OutOfFuel {T}.

(** [seq[i]] in Python: an index [i >= 0] selects the element at position
    [i], an index [i < 0] the one at position [len(seq) + i], and a position
    outside [0, len(seq)) is an [IndexError]. *)
Definition py_index {T : Type} (l : list T) (i : Z) : option nat :=
  let pos := if 0 <=? i then i else Z.of_nat (length l) + i in
  if 0 <=? pos then
    match l !! Z.to_nat pos with
    | Some _ => Some (Z.to_nat pos)
    | None => None
    end
  else None.

Definition getitem {T : Type} (l : list T) (i : Z) : outcome T :=
  match py_index l i with
  | Some n =>
      match l !! n with
      | Some v => Ret v
      | None => Raise IndexError
      end
  | None => Raise IndexError
  end.

(** [b[i] = v] on a [bytearray]: the index is checked first, then the value,
    which has to be in [range(256)]. *)
Definition bytearray_setitem (b : list Z) (i v : Z) : outcome (list Z) :=
  match py_index b i with
  | Some n =>
      if (0 <=? v) && (v <? 256) then Ret (<[n := v]> b)
      else Raise ValueError
  | None => Raise IndexError
  end.

(** [bytearray(n)] *)
Definition bytearray (n : Z) : list Z := replicate (Z.to_nat n) 0.

(** Python truthiness of an integer. *)
Definition truthy (v : Z) : bool := negb (v =? 0).

(** ** Stateful computations that may raise *)

Definition M (S T : Type) : Type := S -> S * outcome T.

Definition ret {S T : Type} (v : T) : M S T := fun s => (s, Ret v).

Definition bind {S T U : Type} (m : M S T) (k : T -> M S U) : M S U :=
  fun s =>
    match m s with
    | (s', Ret v) => k v s'
    | (s', Raise e) => (s', Raise e)
    | (s', OutOfFuel) => (s', OutOfFuel)
    end.

Definition raise {S T : Type} (e : exn) : M S T := fun s => (s, Raise e).

Definition gets {S T : Type} (f : S -> T) : M S T := fun s => (s, Ret (f s)).

Definition modify {S : Type} (f : S -> S) : M S unit := fun s => (f s, Ret tt).

Definition lift {S T : Type} (o : outcome T) : M S T := fun s => (s, o).

Definition when {S : Type} (b : bool) (m : M S unit) : M S unit :=
  if b then m else ret tt.

(** A method of a component object run from its owner: [zoom] runs a
    computation on the part [proj] of the state and stores the part back
    with [inj]. *)
Definition zoom {S S' T : Type} (proj : S -> S') (inj : S' -> S -> S)
    (m : M S' T) : M S T :=
  fun s => let (s', o) := m (proj s) in (inj s' s, o).

Declare Scope monad_scope.
Delimit Scope monad_scope with monad.
Notation "x <- m ;; k" := (bind m (fun x => k))
  (at level 100, m at next level, right associativity) : monad_scope.
Notation "m ;; k" := (bind m (fun _ => k))
  (at level 100, right associativity) : monad_scope.
Open Scope monad_scope.

(** [for i in l: body(i)] *)
Fixpoint for_each {S I : Type} (l : list I) (body : I -> M S unit) : M S unit :=
  match l with
  | [] => ret tt
  | i :: l' => body i ;; for_each l' body
  end.

(** [for i in l: v = body(i, v)], for a loop that updates a local variable. *)
Fixpoint for_fold {S I V : Type} (l : list I) (v : V) (body : I -> V -> M S V)
    : M S V :=
  match l with
  | [] => ret v
  | i :: l' => v' <- body i v ;; for_fold l' v' body
  end.

(** [while cond(v): v = body(v)], at most [fuel] iterations. *)
Fixpoint while {S V : Type} (fuel : nat) (cond : V -> M S bool)
    (body : V -> M S V) (v : V) : M S V :=
  match fuel with
  | O => fun s => (s, OutOfFuel)
  | S fuel' =>
      c <- cond v ;;
      if c then v' <- body v ;; while fuel' cond body v' else ret v
  end.

(** [range(n)] and [range(a, b)] *)
Definition range2 (a b : Z) : list Z :=
  map (fun k => a + Z.of_nat k) (seq 0 (Z.to_nat (b - a))).
Definition range (n : Z) : list Z := range2 0 n.

(** [enumerate(l)] *)
Definition enumerate {T : Type} (l : list T) : list (Z * T) :=
  imap (fun i v => (Z.of_nat i, v)) l.

(** ** The CPU *)

Module CPU.

(** [self.registers]: a dict whose six keys are fixed at construction and
    never added to or removed, hence a record. *)
Record registers : Type := mkRegisters {
  reg_A : Z;
  reg_X : Z;
  reg_Y : Z;
  reg_PC : Z;
  reg_SP : Z;
  reg_P : Z
}.

Record state : Type := mkState {
  regs : registers;
  memory : list Z;
  clock_cycles : Z;
  running : bool
}.

Definition set_A (v : Z) (r : registers) : registers :=
  mkRegisters v (reg_X r) (reg_Y r) (reg_PC r) (reg_SP r) (reg_P r).
Definition set_PC (v : Z) (r : registers) : registers :=
  mkRegisters (reg_A r) (reg_X r) (reg_Y r) v (reg_SP r) (reg_P r).
Definition set_P (v : Z) (r : registers) : registers :=
  mkRegisters (reg_A r) (reg_X r) (reg_Y r) (reg_PC r) (reg_SP r) v.

Definition with_regs (f : registers -> registers) (s : state) : state :=
  mkState (f (regs s)) (memory s) (clock_cycles s) (running s).
Definition with_memory (m : list Z) (s : state) : state :=
  mkState (regs s) m (clock_cycles s) (running s).
Definition with_clock_cycles (c : Z) (s : state) : state :=
  mkState (regs s) (memory s) c (running s).
Definition with_running (b : bool) (s : state) : state :=
  mkState (regs s) (memory s) (clock_cycles s) b.

Definition A (s : state) : Z := reg_A (regs s).
Definition X (s : state) : Z := reg_X (regs s).
Definition Y (s : state) : Z := reg_Y (regs s).
Definition PC (s : state) : Z := reg_PC (regs s).
Definition SP (s : state) : Z := reg_SP (regs s).
Definition P (s : state) : Z := reg_P (regs s).

(** [CPU.__init__] *)
Definition init : state :=
  mkState (mkRegisters 0 0 0 0x8000 0x1FF 0) (bytearray 0x10000) 0 true.

(** [self.memory[address]] *)
Definition mem_get (address : Z) : M state Z :=
  m <- gets memory ;; lift (getitem m address).

(** [self.memory[address] = value] *)
Definition mem_set (address value : Z) : M state unit :=
  m <- gets memory ;;
  m' <- lift (bytearray_setitem m address value) ;;
  modify (with_memory m').

Definition fetch_byte : M state Z :=
  pc <- gets PC ;;
  value <- mem_get pc ;;
  pc <- gets PC ;;
  modify (with_regs (set_PC (pc + 1))) ;;
  ret value.

Definition read_byte (address : Z) : M state Z := mem_get address.

Definition read_word (address : Z) : M state Z :=
  lo <- mem_get address ;;
  hi <- mem_get (address + 1) ;;
  ret (Z.lor (Z.shiftl hi 8) lo).

Definition write_byte (address value : Z) : M state unit :=
  mem_set address (Z.land value 0xFF).

Definition write_word (address value : Z) : M state unit :=
  mem_set address (Z.land value 0xFF) ;;
  mem_set (address + 1) (Z.land (Z.shiftr value 8) 0xFF).

Definition reset : M state unit :=
  w <- read_word 0xFFFC ;;
  modify (with_regs (set_PC w)).

Definition update_flags (value : Z) : M state unit :=
  p <- gets P ;;
  modify (with_regs (set_P (Z.land p 0x7D))) ;;
  when (value =? 0)
    (p <- gets P ;; modify (with_regs (set_P (Z.lor p 0x02)))) ;;
  when (truthy (Z.land value 0x80))
    (p <- gets P ;; modify (with_regs (set_P (Z.lor p 0x80)))).

Definition LDA_immediate : M state Z :=
  value <- fetch_byte ;;
  modify (with_regs (set_A value)) ;;
  update_flags value ;;
  ret 2.

(** [self.fetch_byte() | (self.fetch_byte() << 8)]: Python evaluates the
    operands of [|] from left to right, so the low byte is fetched first. *)
Definition fetch_addr : M state Z :=
  lo <- fetch_byte ;;
  hi <- fetch_byte ;;
  ret (Z.lor lo (Z.shiftl hi 8)).

Definition LDA_absolute : M state Z :=
  addr <- fetch_addr ;;
  value <- read_byte addr ;;
  modify (with_regs (set_A value)) ;;
  update_flags value ;;
  ret 4.

Definition STA_absolute : M state Z :=
  addr <- fetch_addr ;;
  a <- gets A ;;
  write_byte addr a ;;
  ret 4.

Definition JMP_absolute : M state Z :=
  addr <- fetch_addr ;;
  modify (with_regs (set_PC addr)) ;;
  ret 3.

Definition NOP : M state Z := ret 2.

Definition BRK : M state Z :=
  modify (with_running false) ;;
  ret 7.

(** [self.opcodes]: the dispatch table, a dict literal with six keys. *)
Definition opcodes : list (Z * M state Z) :=
  [ (0xA9, LDA_immediate);
    (0xAD, LDA_absolute);
    (0x8D, STA_absolute);
    (0x4C, JMP_absolute);
    (0xEA, NOP);
    (0x00, BRK) ].

Fixpoint dict_get {V : Type} (d : list (Z * V)) (k : Z) : option V :=
  match d with
  | [] => None
  | (k', v) :: d' => if k' =? k then Some v else dict_get d' k
  end.

Definition execute : M state Z :=
  opcode <- fetch_byte ;;
  match dict_get opcodes opcode with
  | Some handler =>
      cycles <- handler ;;
      c <- gets clock_cycles ;;
      modify (with_clock_cycles (c + cycles)) ;;
      ret cycles
  | None => ret 0
  end.

(** The invariant of a CPU object: the memory is the 64 KiB [bytearray]
    made by [__init__], and every cell of it is a byte. *)
Definition is_byte (v : Z) : Prop := 0 <= v <= 255.

Record wf (s : state) : Prop := mkWf {
  wf_length : Z.of_nat (length (memory s)) = 0x10000;
  wf_bytes : Forall is_byte (memory s)
}.

End CPU.

(** ** The PPU *)

Module PPU.

Definition rgb : Type := (Z * Z * Z)%type.

(** An item of the Tk canvas: [create_rectangle(x1, y1, x2, y2, fill=...,
    outline="")].  The fill is kept as the palette entry it is formatted
    from (["#%02x%02x%02x" % color]). *)
Record rectangle : Type := mkRectangle {
  x1 : Z; y1 : Z; x2 : Z; y2 : Z; fill : rgb
}.

(** A subscript operation of the renderer, named after the line of the
    source that performs it: the tile-map read of [render_frame], the two
    plane reads of [render_tile], the palette lookup of [render_tile]. *)
Inductive access : Type :=
| TileMapRead (i : Z)
| PatternRead (i : Z)
| PaletteRead (i : Z).

(** [canvas] is the display list of the Tk canvas and [accesses] the log of
    the subscript operations performed so far (attempted ones included);
    both have their most recent element first.  [accesses] is not a field
    of the Python object: it records what the methods read. *)
Record state : Type := mkState {
  vram : list Z;
  palette : list rgb;
  canvas : list rectangle;
  accesses : list access
}.

Definition width : Z := 256.
Definition height : Z := 224.

Definition with_vram (v : list Z) (s : state) : state :=
  mkState v (palette s) (canvas s) (accesses s).
Definition with_palette (p : list rgb) (s : state) : state :=
  mkState (vram s) p (canvas s) (accesses s).
Definition with_canvas (c : list rectangle) (s : state) : state :=
  mkState (vram s) (palette s) c (accesses s).
Definition with_accesses (a : list access) (s : state) : state :=
  mkState (vram s) (palette s) (canvas s) a.

(** [PPU.__init__] *)
Definition init : state :=
  mkState (bytearray 0x8000) (replicate 256 (0, 0, 0)) [] [].

Definition log (a : access) : M state unit :=
  modify (fun s => with_accesses (a :: accesses s) s).

(** [self.vram[i]], at the site [site] *)
Definition vram_get (site : Z -> access) (i : Z) : M state Z :=
  log (site i) ;;
  v <- gets vram ;; lift (getitem v i).

(** [self.palette[i]] *)
Definition palette_get (i : Z) : M state rgb :=
  log (PaletteRead i) ;;
  p <- gets palette ;; lift (getitem p i).

(** [self.canvas.delete("all")] *)
Definition canvas_delete_all : M state unit := modify (with_canvas []).

Definition create_rectangle (r : rectangle) : M state unit :=
  modify (fun s => with_canvas (r :: canvas s) s).

(** [((plane1 >> bit) & 1) << 1 | ((plane0 >> bit) & 1)]: in Python [<<]
    binds tighter than [|]. *)
Definition color_idx (plane0 plane1 bit : Z) : Z :=
  Z.lor (Z.shiftl (Z.land (Z.shiftr plane1 bit) 1) 1)
        (Z.land (Z.shiftr plane0 bit) 1).

(** The body of the loop [for tx in range(8)] of [render_tile]. *)
Definition render_pixel (x y ty plane0 plane1 tx : Z) : M state unit :=
  let bit := 7 - tx in
  let color_idx := color_idx plane0 plane1 bit in
  when (0 <? color_idx)
    (color <- palette_get color_idx ;;
     create_rectangle (mkRectangle (x + tx) (y + ty) (x + tx + 1) (y + ty + 1) color)).

(** The body of the loop [for ty in range(8)] of [render_tile]; it returns
    the new value of the local variable [tile_addr]. *)
Definition render_row (x y ty tile_addr : Z) : M state Z :=
  plane0 <- vram_get PatternRead tile_addr ;;
  plane1 <- vram_get PatternRead (tile_addr + 1) ;;
  let tile_addr := tile_addr + 2 in
  for_each (range 8) (render_pixel x y ty plane0 plane1) ;;
  ret tile_addr.

Definition render_tile (x y tile_idx : Z) : M state unit :=
  let tile_addr := tile_idx * 16 in
  for_fold (range 8) tile_addr (render_row x y) ;;
  ret tt.

Definition render_frame : M state unit :=
  canvas_delete_all ;;
  for_each (range2 0 28) (fun y =>
    for_each (range2 0 32) (fun x =>
      tile_idx <- vram_get TileMapRead (y * 32 + x) ;;
      render_tile (x * 8) (y * 8) tile_idx)).

(** The invariant of a PPU object: the video memory is the 32 KiB
    [bytearray] of [__init__], and the palette is one of the two the
    program ever installs (256 entries at construction, 4 entries in
    [setup_test_environment]), so it has at least four entries. *)
Record wf (s : state) : Prop := mkWf {
  wf_length : Z.of_nat (length (vram s)) = 0x8000;
  wf_bytes : Forall CPU.is_byte (vram s);
  wf_palette : 4 <= Z.of_nat (length (palette s))
}.

End PPU.

(** ** The emulator and its frame scheduler *)

Module SNESEmulator.

(** What the scheduler does that is visible from outside, named after the
    call: [self.cpu.execute()], [self.ppu.render_frame()],
    [self.update_debug_info()] and [self.root.after(delay, self.run_frame)]. *)
Inductive event : Type :=
| Execute
| RenderFrame
| UpdateDebugInfo
| After.

(** [pending] counts the [run_frame] callbacks that [root.after] has
    queued in the Tk event loop and that have not fired yet; the delay,
    computed from the wall clock, only says when they fire and is not
    modelled.  [events] logs the calls above, most recent first; it is not
    a field of the Python object. *)
Record state : Type := mkState {
  cpu : CPU.state;
  ppu : PPU.state;
  running : bool;
  status : string;
  pending : nat;
  events : list event
}.

Definition with_cpu (c : CPU.state) (s : state) : state :=
  mkState c (ppu s) (running s) (status s) (pending s) (events s).
Definition with_ppu (p : PPU.state) (s : state) : state :=
  mkState (cpu s) p (running s) (status s) (pending s) (events s).
Definition with_running (b : bool) (s : state) : state :=
  mkState (cpu s) (ppu s) b (status s) (pending s) (events s).
Definition with_status (t : string) (s : state) : state :=
  mkState (cpu s) (ppu s) (running s) t (pending s) (events s).
Definition with_pending (n : nat) (s : state) : state :=
  mkState (cpu s) (ppu s) (running s) (status s) n (events s).
Definition with_events (l : list event) (s : state) : state :=
  mkState (cpu s) (ppu s) (running s) (status s) (pending s) l.

Definition on_cpu {T : Type} (m : M CPU.state T) : M state T :=
  zoom cpu with_cpu m.
Definition on_ppu {T : Type} (m : M PPU.state T) : M state T :=
  zoom ppu with_ppu m.

Definition emit (e : event) : M state unit :=
  modify (fun s => with_events (e :: events s) s).

(** [self.status.config(text=t)] *)
Definition status_config (t : string) : M state unit :=
  modify (with_status t).

(** [self.root.after(delay, self.run_frame)] *)
Definition root_after : M state unit :=
  emit After ;;
  modify (fun s => with_pending (S (pending s)) s).

(** [self.update_debug_info()]: it formats the six registers into the
    labels of the debug panel and changes nothing else. *)
Definition update_debug_info : M state unit := emit UpdateDebugInfo.

(** [self.cpu.execute()] *)
Definition cpu_execute : M state Z :=
  emit Execute ;; on_cpu CPU.execute.

(** [self.ppu.render_frame()] *)
Definition ppu_render_frame : M state unit :=
  emit RenderFrame ;; on_ppu PPU.render_frame.

Definition program : list Z :=
  [ 0xA9; 0x01;
    0x8D; 0x00; 0x20;
    0xA9; 0x3F;
    0x8D; 0x06; 0x20;
    0xA9; 0x00;
    0x8D; 0x06; 0x20;
    0x4C; 0x00; 0x80 ].

(** [self.ppu.vram[i] = v] *)
Definition vram_set (i v : Z) : M state unit :=
  on_ppu (m <- gets PPU.vram ;;
          m' <- lift (bytearray_setitem m i v) ;;
          modify (PPU.with_vram m')).

Definition setup_test_environment : M state unit :=
  for_each (range 256) (fun i =>
    vram_set (i * 16) 0xAA ;;
    vram_set (i * 16 + 1) 0x55) ;;
  on_ppu (modify (PPU.with_palette
    [ (0, 0, 0); (255, 0, 0); (0, 255, 0); (0, 0, 255) ])) ;;
  for_each (range 28) (fun y =>
    for_each (range 32) (fun x =>
      vram_set (0x1000 + y * 32 + x) ((x + y) mod 256))) ;;
  for_each (enumerate program) (fun '(i, byte) =>
    on_cpu (CPU.mem_set (0x8000 + i) byte)) ;;
  on_cpu (CPU.write_word 0xFFFC 0x8000).

(** [SNESEmulator.__init__], the part after the widgets are built. *)
Definition init : state * outcome unit :=
  (setup_test_environment ;; update_debug_info)
    (mkState CPU.init PPU.init false "Ready" 0 []).

Definition target_cycles : Z := 1364.

(** [cycles < target_cycles and self.cpu.running] *)
Definition loop_cond (cycles : Z) : M state bool :=
  if cycles <? target_cycles then gets (fun s => CPU.running (cpu s))
  else ret false.

(** [cycles += self.cpu.execute()] *)
Definition loop_body (cycles : Z) : M state Z :=
  n <- cpu_execute ;; ret (cycles + n).

(** [run_frame]; [fuel] bounds the iterations of its [while] loop. *)
Definition run_frame (fuel : nat) : M state unit :=
  r <- gets running ;;
  if negb r then ret tt
  else
    while fuel loop_cond loop_body 0 ;;
    ppu_render_frame ;;
    update_debug_info ;;
    root_after.

Definition start (fuel : nat) : M state unit :=
  r <- gets running ;;
  when (negb r)
    (modify (with_running true) ;;
     on_cpu (modify (CPU.with_running true)) ;;
     run_frame fuel ;;
     status_config "Running").

Definition stop : M state unit :=
  r <- gets running ;;
  when r
    (modify (with_running false) ;;
     status_config "Paused").

Definition reset_emulator : M state unit :=
  stop ;;
  modify (with_cpu CPU.init) ;;
  setup_test_environment ;;
  update_debug_info ;;
  status_config "System reset".

Definition open_rom : M state unit :=
  status_config "ROM loaded (simulated)" ;;
  reset_emulator.

Definition close_rom : M state unit :=
  stop ;;
  modify (with_cpu CPU.init) ;;
  update_debug_info ;;
  on_ppu PPU.canvas_delete_all ;;
  status_config "ROM closed".

(** The Tk event loop fires one queued [run_frame] callback. *)
Definition tick (fuel : nat) : M state unit :=
  n <- gets pending ;;
  match n with
  | O => ret tt
  | S n' => modify (with_pending n') ;; run_frame fuel
  end.

End SNESEmulator.

(** ** Auxiliary definitions of the statements *)

(** The value [update_flags] leaves in [P], as the three assignments of the
    method compute it. *)
Definition flags (v p : Z) : Z :=
  let p1 := Z.land p 0x7D in
  let p2 := if v =? 0 then Z.lor p1 0x02 else p1 in
  if truthy (Z.land v 0x80) then Z.lor p2 0x80 else p2.

(** A CPU state that differs from [s] in its program counter only. *)
Definition jump_to (pc : Z) (s : CPU.state) : CPU.state :=
  CPU.with_regs (CPU.set_PC pc) s.

(** The registers that are logically eight bits wide hold bytes. *)
Definition byte_regs (s : CPU.state) : Prop :=
  CPU.is_byte (CPU.A s) /\ CPU.is_byte (CPU.P s).

(** The CPU state after the loader has stored [bytes] from [origin] on
    ([loadProgram] of the external interface, done with [write_byte]). *)
Definition load (origin : Z) (bytes : list Z) (s : CPU.state) : CPU.state :=
  fst (for_each (enumerate bytes)
         (fun '(i, byte) => CPU.write_byte (origin + i) byte) s).

(** The invariant of the CPU: 64 KiB of bytes, and bytes in [A] and [P]. *)
Definition cpu_inv (s : CPU.state) : Prop := CPU.wf s /\ byte_regs s.

(** [m] keeps the invariant [I], whether it returns or raises, and a value
    it returns satisfies [Q]. *)
Definition preserves {S T : Type} (I : S -> Prop) (m : M S T) (Q : T -> Prop)
    : Prop :=
  forall s, I s -> I (fst (m s)) /\ forall v, snd (m s) = Ret v -> Q v.

(** The calls a client makes on a CPU.  It may go on after a call has
    raised, so a sequence of calls runs each call from the state the previous
    one left, whatever its outcome. *)
Inductive cpu_call : Type :=
| CallExecute
| CallWriteByte (address value : Z)
| CallWriteWord (address value : Z).

Definition run_call (c : cpu_call) (s : CPU.state) : CPU.state :=
  match c with
  | CallExecute => fst (CPU.execute s)
  | CallWriteByte address value => fst (CPU.write_byte address value s)
  | CallWriteWord address value => fst (CPU.write_word address value s)
  end.

Definition run_calls (cs : list cpu_call) (s : CPU.state) : CPU.state :=
  fold_left (fun s c => run_call c s) cs s.

(** From a state with [I], [m] returns (it neither raises nor runs out of
    fuel), in a state with [I] again and with a value that satisfies [Q]. *)
Definition returns {S T : Type} (I : S -> Prop) (m : M S T) (Q : T -> Prop)
    : Prop :=
  forall s, I s -> exists s' v, m s = (s', Ret v) /\ I s' /\ Q v.

(** The offsets and indices within which the renderer has to stay. *)
Definition access_ok (a : PPU.access) : Prop :=
  match a with
  | PPU.TileMapRead i => 0 <= i < 896
  | PPU.PatternRead i => 0 <= i <= 4095
  | PPU.PaletteRead i => 1 <= i <= 3
  end.

(** A well-formed PPU whose logged accesses all satisfy [ok]. *)
Definition ppu_inv (ok : PPU.access -> Prop) (p : PPU.state) : Prop :=
  PPU.wf p /\ Forall ok (PPU.accesses p).

(** The PPU of a freshly constructed emulator: test pattern, four-color
    palette and tile map as [setup_test_environment] leaves them. *)
Definition demo_ppu : PPU.state := SNESEmulator.ppu (fst SNESEmulator.init).

(** A fresh PPU in which the four-color palette of the test environment
    has been installed. *)
Definition palette_ppu : PPU.state :=
  PPU.with_palette [ (0, 0, 0); (255, 0, 0); (0, 255, 0); (0, 0, 255) ]
    PPU.init.

Definition is_palette_read (a : PPU.access) : bool :=
  match a with PPU.PaletteRead _ => true | _ => false end.
Definition is_pattern_read (a : PPU.access) : bool :=
  match a with PPU.PatternRead _ => true | _ => false end.
Definition is_tile_map_read (a : PPU.access) : bool :=
  match a with PPU.TileMapRead _ => true | _ => false end.

(** The [n] bytes of the CPU memory from [PC] on are all NOP opcodes. *)
Definition nops_from (s : CPU.state) (n : nat) : Prop :=
  0 <= CPU.PC s /\
  take n (drop (Z.to_nat (CPU.PC s)) (CPU.memory s)) = replicate n 0xEA.

(** The emulator after its CPU has executed [k] one-byte, two-cycle
    instructions (NOPs) for the scheduler. *)
Definition after_nops (k : nat) (e : SNESEmulator.state) : SNESEmulator.state :=
  let c := SNESEmulator.cpu e in
  SNESEmulator.mkState
    (CPU.with_clock_cycles (CPU.clock_cycles c + 2 * Z.of_nat k)
       (jump_to (CPU.PC c + Z.of_nat k) c))
    (SNESEmulator.ppu e) (SNESEmulator.running e) (SNESEmulator.status e)
    (SNESEmulator.pending e)
    (replicate k SNESEmulator.Execute ++ SNESEmulator.events e).

(** The emulator at the end of a frame tick whose CPU loop left it as [e]
    and whose render pass left the PPU as [p]. *)
Definition frame_end (p : PPU.state) (e : SNESEmulator.state)
    : SNESEmulator.state :=
  SNESEmulator.mkState (SNESEmulator.cpu e) p (SNESEmulator.running e)
    (SNESEmulator.status e) (S (SNESEmulator.pending e))
    (SNESEmulator.After :: SNESEmulator.UpdateDebugInfo
       :: SNESEmulator.RenderFrame :: SNESEmulator.events e).

(** A fresh CPU whose upper half of memory, the page the boot address
    [0x8000] starts, is filled with NOP opcodes. *)
Definition nop_cpu : CPU.state :=
  CPU.with_memory
    (replicate (Z.to_nat 0x8000) 0 ++ replicate (Z.to_nat 0x8000) 0xEA)
    CPU.init.

(** A started emulator with that CPU. *)
Definition nop_emulator : SNESEmulator.state :=
  SNESEmulator.mkState nop_cpu palette_ppu true "Running" 0 [].

(** The event log of [e] ends with (its oldest events are) [l]: the events
    of [l] have been logged, and whatever came after them. *)
Definition ends_with (l : list SNESEmulator.event) (e : SNESEmulator.state)
    : Prop :=
  exists evs, SNESEmulator.events e = evs ++ l.

(** An emulator whose CPU has halted on the [BRK] at the boot address while
    the scheduler is running, and the same emulator paused. *)
Definition halted_emulator : SNESEmulator.state :=
  SNESEmulator.mkState (fst (CPU.execute CPU.init)) palette_ppu true
    "Running" 1
    [SNESEmulator.After; SNESEmulator.UpdateDebugInfo;
     SNESEmulator.RenderFrame; SNESEmulator.Execute].
Definition paused_emulator : SNESEmulator.state :=
  SNESEmulator.with_status "Paused"
    (SNESEmulator.with_running false halted_emulator).

(** The methods are unfolded by name in the proofs, never by [cbn]. *)
Arguments CPU.execute : simpl never.
Arguments CPU.fetch_byte : simpl never.
Arguments PPU.render_frame : simpl never.
Arguments PPU.render_tile : simpl never.
Arguments getitem : simpl never.
Arguments bytearray_setitem : simpl never.

(** [m] returns or raises: its answer is never [OutOfFuel]. *)
Definition fuel_free {S T : Type} (m : M S T) : Prop :=
  forall s, snd (m s) <> OutOfFuel.

(** What bounds the iterations the CPU loop of a frame tick still has to
    make, with [cycles] accumulated and the program counter at [pc]: an
    instruction of the table costs at least 2 cycles, and between two of
    them an unknown opcode costs none but moves [pc] towards the end of the
    64 KiB, past which the fetch raises. *)
Definition loop_measure (cycles pc : Z) : nat :=
  Z.to_nat ((SNESEmulator.target_cycles - cycles) * 0x20002
            + Z.min (Z.max (0x10000 - pc) 0) 0x20001).

(** What holds of the registers in every state a fresh CPU can get to: the
    program counter is within the memory or just past its end, [P] has at
    most one of its two flags set and nothing else, and [X], [Y] and [SP]
    still have their initial values. *)
Definition regs_inv (s : CPU.state) : Prop :=
  0 <= CPU.PC s <= 0x10000 /\
  (CPU.P s = 0 \/ CPU.P s = 0x02 \/ CPU.P s = 0x80) /\
  CPU.X s = 0 /\ CPU.Y s = 0 /\ CPU.SP s = 0x1FF.

Definition reach_inv (s : CPU.state) : Prop := cpu_inv s /\ regs_inv s.

(** A rectangle of the canvas is a pixel of the 256 x 224 screen painted
    with one of the colors 1 to 3 of the palette [pal]: a unit square whose
    upper left corner is on the screen. *)
Definition pixel_of (pal : list PPU.rgb) (r : PPU.rectangle) : Prop :=
  0 <= PPU.x1 r < PPU.width /\ 0 <= PPU.y1 r < PPU.height /\
  PPU.x2 r = PPU.x1 r + 1 /\ PPU.y2 r = PPU.y1 r + 1 /\
  exists i, 1 <= i <= 3 /\ pal !! Z.to_nat i = Some (PPU.fill r).

(** Two PPUs that the renderer cannot tell apart: both well formed, with
    the same palette, the same canvas and the same first 4096 bytes of
    video memory (the patterns of the 256 tiles). *)
Definition same_patterns (p q : PPU.state) : Prop :=
  PPU.wf p /\ PPU.wf q /\
  take 4096 (PPU.vram p) = take 4096 (PPU.vram q) /\
  PPU.palette p = PPU.palette q /\
  PPU.canvas p = PPU.canvas q.

(** From two states related by [R], [m] returns the same value in both, in
    states related by [R] again; the value satisfies [Q]. *)
Definition lockstep {S T : Type} (R : S -> S -> Prop) (m : M S T)
    (Q : T -> Prop) : Prop :=
  forall p q, R p q ->
    exists p' q' v, m p = (p', Ret v) /\ m q = (q', Ret v) /\ R p' q' /\ Q v.

(** A PPU with the palette [pal] whose canvas holds pixels only. *)
Definition painted_with (pal : list PPU.rgb) (p : PPU.state) : Prop :=
  PPU.palette p = pal /\ Forall (pixel_of pal) (PPU.canvas p).

(** ** The CPU state window and the commands of the user interface *)

Module Window.

(** What [show_cpu_state] inserts into the text widget of its window, one
    constructor per format string: a heading, ["  {reg}: 0x{value:04X}"]
    and ["{'>' if offset == 0 else ' '} 0x{addr:04X}: 0x{opcode:02X}"].
    Formatting an integer never raises, so the lines keep the values. *)
Inductive line : Type :=
| Heading (title : string)
| Register (reg : string) (value : Z)
| Code (current : bool) (addr opcode : Z).

(** [text.insert(tk.END, l)] *)
Definition text_insert (l : line) : M (list line) unit :=
  modify (fun t => t ++ [l]).

(** [self.cpu.registers.items()], in the order of the dict literal. *)
Definition items (r : CPU.registers) : list (string * Z) :=
  [ ("A", CPU.reg_A r); ("X", CPU.reg_X r); ("Y", CPU.reg_Y r);
    ("PC", CPU.reg_PC r); ("SP", CPU.reg_SP r); ("P", CPU.reg_P r) ]%string.

(** [show_cpu_state], run on the text widget of the new window; it reads
    the CPU [c] and changes nothing of the emulator. *)
Definition show_cpu_state (c : CPU.state) : M (list line) unit :=
  text_insert (Heading "Registers:") ;;
  for_each (items (CPU.regs c)) (fun '(reg, value) =>
    text_insert (Register reg value)) ;;
  text_insert (Heading "Disassembly:") ;;
  let pc := CPU.PC c in
  for_each (range2 (-5) 6) (fun offset =>
    let addr := pc + offset in
    when ((0 <=? addr) && (addr <? 0x10000))
      (opcode <- lift (getitem (CPU.memory c) addr) ;;
       text_insert (Code (offset =? 0) addr opcode))).

End Window.

Module Menu.

(** The commands bound to the menus and the toolbar in
    [SNESEmulator.__init__], and the timer callback that [root.after]
    queues.  (Exit ends the event loop and is not a command here.) *)
Inductive command : Type :=
| OpenROM
| CloseROM
| Start
| Pause
| Reset
| CPUState
| Timer.

Definition perform (fuel : nat) (c : command) : M SNESEmulator.state unit :=
  match c with
  | OpenROM => SNESEmulator.open_rom
  | CloseROM => SNESEmulator.close_rom
  | Start => SNESEmulator.start fuel
  | Pause => SNESEmulator.stop
  | Reset => SNESEmulator.reset_emulator
  | CPUState =>
      fun e => (e, snd (Window.show_cpu_state (SNESEmulator.cpu e) []))
  | Timer => SNESEmulator.tick fuel
  end.

(** The event loop runs the commands one after the other; Tk reports an
    exception a command raises and goes on with the next one, from the
    state the command left.  The answer lists the outcome of each
    command. *)
Fixpoint session (fuel : nat) (cs : list command) (e : SNESEmulator.state)
    : SNESEmulator.state * list (outcome unit) :=
  match cs with
  | [] => (e, [])
  | c :: cs' =>
      let (e1, o) := perform fuel c e in
      let (e2, os) := session fuel cs' e1 in
      (e2, o :: os)
  end.

End Menu.

(** The CPU part of [setup_test_environment]: the test program stored from
    [0x8000] on, and the reset vector. *)
Definition load_program : M CPU.state unit :=
  for_each (enumerate SNESEmulator.program) (fun '(i, byte) =>
    CPU.mem_set (0x8000 + i) byte) ;;
  CPU.write_word 0xFFFC 0x8000.

(** The test program is in the memory of [c], from [0x8000] on. *)
Definition program_loaded (c : CPU.state) : Prop :=
  forall i b, SNESEmulator.program !! i = Some b ->
    CPU.memory c !! Z.to_nat (0x8000 + Z.of_nat i) = Some b.

(** The addresses of the seven instructions of the test program. *)
Definition instruction_starts : list Z :=
  [0x8000; 0x8002; 0x8005; 0x8007; 0x800A; 0x800C; 0x800F].

(** A CPU that is running the test program: well formed, not halted, the
    program in memory and [PC] at one of its instructions. *)
Definition runs_program (c : CPU.state) : Prop :=
  CPU.wf c /\ program_loaded c /\ CPU.PC c ∈ instruction_starts /\
  CPU.running c = true.

(** The emulator as the constructor leaves it and as the commands other
    than Close ROM keep it. *)
Definition session_inv (e : SNESEmulator.state) : Prop :=
  runs_program (SNESEmulator.cpu e) /\ PPU.wf (SNESEmulator.ppu e).

(** A line of the disassembly shows the byte the memory of [c] holds at its
    address, which is within the 64 KiB, and is marked when the address is
    [PC]. *)
Definition line_ok (c : CPU.state) (l : Window.line) : Prop :=
  match l with
  | Window.Code current addr opcode =>
      0 <= addr <= 0xFFFF /\
      CPU.memory c !! Z.to_nat addr = Some opcode /\
      current = (addr =? CPU.PC c)
  | _ => True
  end.

(** What the statements of [setup_test_environment] on the PPU keep: the
    PPU is well formed and the rest of the emulator is that of [e0]. *)
Definition ppu_only (e0 e : SNESEmulator.state) : Prop :=
  PPU.wf (SNESEmulator.ppu e) /\
  e = SNESEmulator.with_ppu (SNESEmulator.ppu e) e0.

(** * Properties *)

(** ** Sequences *)

Section Sequences.
Context {T : Type}.
Implicit Types (l : list T) (i : Z) (n : nat).

Lemma py_index_Some l i n :
  py_index l i = Some n <->
  (0 <= i < Z.of_nat (length l) /\ n = Z.to_nat i) \/
  (- Z.of_nat (length l) <= i < 0 /\ n = Z.to_nat (Z.of_nat (length l) + i)).
Proof.
  unfold py_index.
  destruct (Z.leb_spec 0 i) as [Hi | Hi].
  - destruct (Z.leb_spec 0 i) as [_ | ?]; [| lia].
    destruct (l !! Z.to_nat i) eqn:E.
    + apply lookup_lt_Some in E. split.
      * intros [= <-]. left. lia.
      * intros [[_ ->] | [? _]]; [done | lia].
    + apply lookup_ge_None in E. split; [done |].
      intros [[? _] | [? _]]; lia.
  - destruct (Z.leb_spec 0 (Z.of_nat (length l) + i)) as [Hp | Hp].
    + destruct (l !! Z.to_nat (Z.of_nat (length l) + i)) eqn:E.
      * split.
        -- intros [= <-]. right. lia.
        -- intros [[? _] | [_ ->]]; [lia | done].
      * apply lookup_ge_None in E. lia.
    + split; [done |]. intros [[? _] | [? _]]; lia.
Qed.

Lemma py_index_None l i :
  py_index l i = None <->
  i < - Z.of_nat (length l) \/ Z.of_nat (length l) <= i.
Proof.
  destruct (py_index l i) as [n |] eqn:E.
  - apply py_index_Some in E. split; [done | lia].
  - split; [| done]. intros _.
    destruct (Z.lt_ge_cases i (- Z.of_nat (length l))) as [? | H1]; [lia |].
    destruct (Z.lt_ge_cases i (Z.of_nat (length l))) as [H2 | ?]; [| lia].
    exfalso.
    destruct (Z.lt_ge_cases i 0).
    + assert (py_index l i = Some (Z.to_nat (Z.of_nat (length l) + i)))
        as E' by (apply py_index_Some; lia).
      congruence.
    + assert (py_index l i = Some (Z.to_nat i))
        as E' by (apply py_index_Some; lia).
      congruence.
Qed.

Lemma py_index_lt l i n : py_index l i = Some n -> (n < length l)%nat.
Proof. intros H. apply py_index_Some in H. lia. Qed.

(** Within [0, len) an index is a plain position. *)
Lemma py_index_nonneg l i :
  0 <= i < Z.of_nat (length l) -> py_index l i = Some (Z.to_nat i).
Proof. intros H. apply py_index_Some. lia. Qed.

Lemma getitem_Ret l i v :
  getitem l i = Ret v <-> exists n, py_index l i = Some n /\ l !! n = Some v.
Proof.
  unfold getitem. destruct (py_index l i) as [n |] eqn:E.
  - destruct (l !! n) eqn:E'; split.
    + intros [= <-]. eauto.
    + intros (n' & [= <-] & H). congruence.
    + done.
    + intros (n' & [= <-] & H). congruence.
  - split; [done |]. intros (n & H & _). done.
Qed.

Lemma getitem_nonneg l i v :
  0 <= i -> l !! Z.to_nat i = Some v -> getitem l i = Ret v.
Proof.
  intros Hi H. apply getitem_Ret. exists (Z.to_nat i). split; [| done].
  apply py_index_nonneg. apply lookup_lt_Some in H. lia.
Qed.

Lemma getitem_Raise l i :
  i < - Z.of_nat (length l) \/ Z.of_nat (length l) <= i ->
  getitem l i = Raise IndexError.
Proof.
  intros H. apply py_index_None in H. unfold getitem. by rewrite H.
Qed.

(** A subscript either yields an element of the sequence or raises
    [IndexError]; it succeeds exactly on [-len <= i < len]. *)
Lemma getitem_cases l i :
  (- Z.of_nat (length l) <= i < Z.of_nat (length l) /\
   exists n v, py_index l i = Some n /\ l !! n = Some v /\ getitem l i = Ret v) \/
  ((i < - Z.of_nat (length l) \/ Z.of_nat (length l) <= i) /\
   getitem l i = Raise IndexError).
Proof.
  destruct (py_index l i) as [n |] eqn:E.
  - left. pose proof (py_index_lt _ _ _ E) as Hn.
    destruct (lookup_lt_is_Some_2 l n Hn) as [v Hv].
    split; [apply py_index_Some in E; lia |].
    exists n, v. split; [done |]. split; [done |].
    apply getitem_Ret. eauto.
  - right. apply py_index_None in E. split; [done |].
    by apply getitem_Raise.
Qed.

End Sequences.

Lemma bytearray_length (n : Z) : 0 <= n -> Z.of_nat (length (bytearray n)) = n.
Proof. intros H. unfold bytearray. rewrite length_replicate. lia. Qed.

(** ** Bit arithmetic *)

Lemma is_byte_testbit_high (v i : Z) :
  CPU.is_byte v -> 8 <= i -> Z.testbit v i = false.
Proof.
  intros [H0 H1] Hi.
  destruct (Z.eq_dec v 0) as [-> | Hv]; [apply Z.bits_0 |].
  apply Z.bits_above_log2; [lia |].
  apply Z.lt_le_trans with 8; [| done].
  apply Z.log2_lt_pow2; lia.
Qed.

(** A little-endian pair of bytes is the word [lo + 256 * hi], whichever way
    round the [|] is written. *)
Lemma word_of_bytes (lo hi : Z) :
  CPU.is_byte lo -> Z.lor (Z.shiftl hi 8) lo = lo + 256 * hi.
Proof.
  intros Hlo.
  rewrite Z.shiftl_mul_pow2 by lia. change (2 ^ 8) with 256.
  rewrite <- Z.lxor_lor.
  - rewrite <- Z.add_nocarry_lxor; [lia |].
    apply Z.bits_inj'. intros n Hn. rewrite Z.land_spec, Z.bits_0.
    destruct (Z.lt_ge_cases n 8).
    + replace (hi * 256) with (hi * 2 ^ 8) by lia.
      rewrite Z.mul_pow2_bits_low by lia. done.
    + rewrite (is_byte_testbit_high lo n) by done. apply andb_false_r.
  - apply Z.bits_inj'. intros n Hn. rewrite Z.land_spec, Z.bits_0.
    destruct (Z.lt_ge_cases n 8).
    + replace (hi * 256) with (hi * 2 ^ 8) by lia.
      rewrite Z.mul_pow2_bits_low by lia. done.
    + rewrite (is_byte_testbit_high lo n) by done. apply andb_false_r.
Qed.

Lemma word_of_bytes' (lo hi : Z) :
  CPU.is_byte lo -> Z.lor lo (Z.shiftl hi 8) = lo + 256 * hi.
Proof. intros H. rewrite Z.lor_comm. by apply word_of_bytes. Qed.

Lemma word_of_bytes_range (lo hi : Z) :
  CPU.is_byte lo -> CPU.is_byte hi -> 0 <= lo + 256 * hi <= 0xFFFF.
Proof. unfold CPU.is_byte. lia. Qed.

Lemma land_0xFF_is_byte (v : Z) : CPU.is_byte (Z.land v 0xFF).
Proof.
  assert (Z.land v 0xFF = v mod 256) as ->.
  { change 0xFF with (Z.ones 8). by rewrite Z.land_ones by lia. }
  unfold CPU.is_byte. pose proof (Z.mod_pos_bound v 256). lia.
Qed.

Lemma testbit_0x7D (i : Z) :
  Z.testbit 0x7D i = (0 <=? i) && (i <? 7) && negb (i =? 1).
Proof.
  destruct (Z.lt_ge_cases i 0).
  { rewrite Z.testbit_neg_r by done.
    destruct (Z.leb_spec 0 i); [lia | done]. }
  destruct (Z.lt_ge_cases i 7).
  - assert (i = 0 \/ i = 1 \/ i = 2 \/ i = 3 \/ i = 4 \/ i = 5 \/ i = 6)
      as Hi by lia.
    repeat destruct Hi as [-> | Hi]; try subst i; reflexivity.
  - rewrite Z.bits_above_log2 by (change (Z.log2 0x7D) with 6; lia).
    destruct (Z.ltb_spec i 7); [lia |]. by rewrite andb_false_r.
Qed.

Lemma testbit_0x02 (i : Z) : Z.testbit 0x02 i = (i =? 1).
Proof.
  change 0x02 with (2 ^ 1). rewrite Z.pow2_bits_eqb by lia. apply Z.eqb_sym.
Qed.

Lemma testbit_0x80 (i : Z) : Z.testbit 0x80 i = (i =? 7).
Proof.
  change 0x80 with (2 ^ 7). rewrite Z.pow2_bits_eqb by lia. apply Z.eqb_sym.
Qed.

(** [value & 0x80] is non-zero exactly when bit 7 of [value] is set. *)
Lemma land_0x80_testbit (v : Z) : truthy (Z.land v 0x80) = Z.testbit v 7.
Proof.
  unfold truthy.
  destruct (Z.testbit v 7) eqn:E.
  - destruct (Z.eqb_spec (Z.land v 0x80) 0) as [H0 | ?]; [| done].
    assert (Z.testbit (Z.land v 0x80) 7 = true) as H
      by (rewrite Z.land_spec, E, testbit_0x80; done).
    rewrite H0, Z.bits_0 in H. done.
  - destruct (Z.eqb_spec (Z.land v 0x80) 0) as [? | Hn]; [done |].
    exfalso. apply Hn. apply Z.bits_inj'. intros n _.
    rewrite Z.land_spec, Z.bits_0, testbit_0x80.
    destruct (Z.eqb_spec n 7) as [-> | ?]; [by rewrite E | apply andb_false_r].
Qed.

(** ** The CPU *)

Section CPUFacts.
Import CPU.
Implicit Types (s : CPU.state) (v : Z).

Lemma update_flags_eq v s :
  update_flags v s = (with_regs (set_P (flags v (P s))) s, Ret tt).
Proof.
  unfold update_flags, flags, bind, gets, modify, when, ret.
  destruct (v =? 0), (truthy (Z.land v 0x80)); reflexivity.
Qed.

Lemma flags_testbit v p i :
  Z.testbit (flags v p) i =
  if i =? 1 then v =? 0
  else if i =? 7 then Z.testbit v 7
  else Z.testbit p i && (0 <=? i) && (i <? 7).
Proof.
  assert (Z.testbit (Z.land p 0x7D) i =
          Z.testbit p i && (0 <=? i) && (i <? 7) && negb (i =? 1)) as H1
    by (rewrite Z.land_spec, testbit_0x7D, !andb_assoc; done).
  unfold flags. rewrite land_0x80_testbit.
  destruct (v =? 0) eqn:Ev, (Z.testbit v 7) eqn:E7;
    rewrite ?Z.lor_spec, H1, ?testbit_0x02, ?testbit_0x80;
    destruct (Z.eqb_spec i 1) as [Hi1 | Hi1];
    destruct (Z.eqb_spec i 7) as [Hi7 | Hi7];
    try lia;
    rewrite ?andb_false_r, ?andb_true_r, ?orb_false_r, ?orb_true_r;
    try reflexivity.
  all: destruct (Z.ltb_spec i 7); [lia | by rewrite andb_false_r].
Qed.

(** *** Memory accesses and fetches *)

Lemma mem_get_eq a s : mem_get a s = (s, getitem (memory s) a).
Proof. reflexivity. Qed.

Lemma fetch_byte_Ret s v :
  getitem (memory s) (PC s) = Ret v ->
  fetch_byte s = (jump_to (PC s + 1) s, Ret v).
Proof.
  intros H. unfold fetch_byte, mem_get, bind, gets, lift, modify, ret.
  by rewrite H.
Qed.

Lemma fetch_byte_Raise s e :
  getitem (memory s) (PC s) = Raise e -> fetch_byte s = (s, Raise e).
Proof.
  intros H. unfold fetch_byte, mem_get, bind, gets, lift, modify, ret.
  by rewrite H.
Qed.

Lemma wf_getitem s a :
  wf s -> 0 <= a <= 0xFFFF ->
  exists v, memory s !! Z.to_nat a = Some v /\ is_byte v /\
            getitem (memory s) a = Ret v.
Proof.
  intros [Hlen Hbytes] Ha.
  destruct (lookup_lt_is_Some_2 (memory s) (Z.to_nat a)) as [v Hv]; [lia |].
  exists v. split; [done |]. split.
  - rewrite Forall_lookup in Hbytes. by eapply Hbytes.
  - apply getitem_nonneg; [lia | done].
Qed.

Lemma getitem_is_byte s a v :
  wf s -> getitem (memory s) a = Ret v -> is_byte v.
Proof.
  intros [_ Hbytes] H. apply getitem_Ret in H as (n & _ & Hn).
  rewrite Forall_lookup in Hbytes. by eapply Hbytes.
Qed.

End CPUFacts.

(** ** Invariants of monadic code *)

Section Preserves.
Context {S : Type} (I : S -> Prop).

Lemma preserves_ret {T : Type} (v : T) (Q : T -> Prop) :
  Q v -> preserves I (ret v) Q.
Proof. intros Hv s Hs. split; [done |]. by intros ? [= <-]. Qed.

Lemma preserves_gets {T : Type} (f : S -> T) (Q : T -> Prop) :
  (forall s, I s -> Q (f s)) -> preserves I (gets f) Q.
Proof. intros H s Hs. split; [done |]. intros ? [= <-]. by apply H. Qed.

Lemma preserves_modify (f : S -> S) (Q : unit -> Prop) :
  (forall s, I s -> I (f s)) -> Q tt -> preserves I (modify f) Q.
Proof. intros H Hq s Hs. split; [by apply H |]. by intros [] _. Qed.

Lemma preserves_lift {T : Type} (o : outcome T) (Q : T -> Prop) :
  (forall v, o = Ret v -> Q v) -> preserves I (lift o) Q.
Proof. intros H s Hs. split; [done |]. exact H. Qed.

Lemma preserves_bind {T U : Type} (m : M S T) (k : T -> M S U)
    (Q : T -> Prop) (R : U -> Prop) :
  preserves I m Q -> (forall v, Q v -> preserves I (k v) R) ->
  preserves I (bind m k) R.
Proof.
  intros Hm Hk s Hs. destruct (Hm s Hs) as [Hs' Hq].
  unfold bind. destruct (m s) as [s' [v | e |]]; cbn in *.
  - apply (Hk v); [by apply Hq | done].
  - split; [done | discriminate].
  - split; [done | discriminate].
Qed.

Lemma preserves_weaken {T : Type} (m : M S T) (Q Q' : T -> Prop) :
  preserves I m Q -> (forall v, Q v -> Q' v) -> preserves I m Q'.
Proof.
  intros Hm Hq s Hs. destruct (Hm s Hs) as [? H]. split; [done |].
  intros v Hv. by apply Hq, H.
Qed.

Lemma preserves_when (b : bool) (m : M S unit) (Q : unit -> Prop) :
  Q tt -> preserves I m Q -> preserves I (when b m) Q.
Proof. intros Hq Hm. destruct b; [done | by apply preserves_ret]. Qed.

Lemma preserves_for_each {J : Type} (l : list J) (body : J -> M S unit) :
  (forall j, preserves I (body j) (fun _ => True)) ->
  preserves I (for_each l body) (fun _ => True).
Proof.
  intros Hb. induction l as [| j l IH]; cbn.
  - by apply preserves_ret.
  - eapply preserves_bind; [apply Hb | intros _ _; apply IH].
Qed.

Lemma preserves_while {V : Type} (fuel : nat) (cond : V -> M S bool)
    (body : V -> M S V) (v : V) :
  (forall v, preserves I (cond v) (fun _ => True)) ->
  (forall v, preserves I (body v) (fun _ => True)) ->
  preserves I (while fuel cond body v) (fun _ => True).
Proof.
  intros Hc Hb. revert v. induction fuel as [| fuel IH]; intros v; cbn.
  - intros s Hs. split; [done | discriminate].
  - eapply preserves_bind; [apply Hc |]. intros [] _.
    + eapply preserves_bind; [apply Hb | intros v' _; apply IH].
    + by apply preserves_ret.
Qed.

(** If [m] leaves a state with [I] from [s], so does [m] followed by a
    continuation that keeps [I]. *)
Lemma preserves_after {T U : Type} (m : M S T) (k : T -> M S U) (s : S) :
  I (fst (m s)) -> (forall v, preserves I (k v) (fun _ => True)) ->
  I (fst (bind m k s)).
Proof.
  intros Hm Hk. unfold bind. destruct (m s) as [s' [v | e |]]; cbn in *.
  - by apply (Hk v).
  - done.
  - done.
Qed.

End Preserves.

Section FuelFree.
Context {S : Type}.

Lemma fuel_free_ret {T : Type} (v : T) : fuel_free (ret (S := S) v).
Proof. by intros s. Qed.

Lemma fuel_free_gets {T : Type} (f : S -> T) : fuel_free (gets f).
Proof. by intros s. Qed.

Lemma fuel_free_modify (f : S -> S) : fuel_free (modify f).
Proof. by intros s. Qed.

Lemma fuel_free_lift {T : Type} (o : outcome T) :
  o <> OutOfFuel -> fuel_free (lift (S := S) o).
Proof. by intros H s. Qed.

Lemma fuel_free_bind {T U : Type} (m : M S T) (k : T -> M S U) :
  fuel_free m -> (forall v, fuel_free (k v)) -> fuel_free (bind m k).
Proof.
  intros Hm Hk s. specialize (Hm s). unfold bind.
  destruct (m s) as [s' [v | e |]]; cbn in *; [apply Hk | done | done].
Qed.

Lemma fuel_free_when (b : bool) (m : M S unit) :
  fuel_free m -> fuel_free (when b m).
Proof. intros Hm. destruct b; [done | apply fuel_free_ret]. Qed.

Lemma fuel_free_for_each {J : Type} (l : list J) (body : J -> M S unit) :
  (forall j, fuel_free (body j)) -> fuel_free (for_each l body).
Proof.
  intros Hb. induction l as [| j l IH]; cbn.
  - apply fuel_free_ret.
  - apply fuel_free_bind; [apply Hb | intros _; apply IH].
Qed.

Lemma fuel_free_for_fold {J V : Type} (l : list J) (v : V)
    (body : J -> V -> M S V) :
  (forall j v, fuel_free (body j v)) -> fuel_free (for_fold l v body).
Proof.
  intros Hb. revert v. induction l as [| j l IH]; intros v; cbn.
  - apply fuel_free_ret.
  - apply fuel_free_bind; [apply Hb | intros v'; apply IH].
Qed.

End FuelFree.

Lemma fuel_free_zoom {S S' T : Type} (proj : S -> S') (inj : S' -> S -> S)
    (m : M S' T) :
  fuel_free m -> fuel_free (zoom proj inj m).
Proof.
  intros Hm s. specialize (Hm (proj s)). unfold zoom.
  by destruct (m (proj s)) as [s' o].
Qed.

Lemma getitem_fuel_free {T : Type} (l : list T) (i : Z) :
  getitem l i <> OutOfFuel.
Proof.
  unfold getitem. destruct (py_index l i) as [n |]; [| done].
  by destruct (l !! n).
Qed.

Lemma setitem_fuel_free (b : list Z) (i v : Z) :
  bytearray_setitem b i v <> OutOfFuel.
Proof.
  unfold bytearray_setitem. destruct (py_index b i) as [n |]; [| done].
  by destruct ((0 <=? v) && (v <? 256)).
Qed.

Lemma preserves_zoom {S S' T : Type} (I : S -> Prop) (proj : S -> S')
    (inj : S' -> S -> S) (m : M S' T) :
  (forall s s', I s -> I (inj s' s)) ->
  preserves I (zoom proj inj m) (fun _ => True).
Proof.
  intros H s Hs. unfold zoom. destruct (m (proj s)) as [s' o]. cbn.
  split; [by apply H | done].
Qed.

Section Returns.
Context {S : Type} (I : S -> Prop).

Lemma returns_ret {T : Type} (v : T) (Q : T -> Prop) :
  Q v -> returns I (ret v) Q.
Proof. intros Hv s Hs. by exists s, v. Qed.

Lemma returns_gets {T : Type} (f : S -> T) (Q : T -> Prop) :
  (forall s, I s -> Q (f s)) -> returns I (gets f) Q.
Proof. intros H s Hs. exists s, (f s). split; [done |]. split; [done | by apply H]. Qed.

Lemma returns_modify (f : S -> S) (Q : unit -> Prop) :
  (forall s, I s -> I (f s)) -> Q tt -> returns I (modify f) Q.
Proof. intros H Hq s Hs. exists (f s), tt. split; [done |]. split; [by apply H | done]. Qed.

Lemma returns_bind {T U : Type} (m : M S T) (k : T -> M S U)
    (Q : T -> Prop) (R : U -> Prop) :
  returns I m Q -> (forall v, Q v -> returns I (k v) R) ->
  returns I (bind m k) R.
Proof.
  intros Hm Hk s Hs. destruct (Hm s Hs) as (s' & v & E & Hs' & Hv).
  destruct (Hk v Hv s' Hs') as (s'' & u & E' & Hs'' & Hu).
  exists s'', u. unfold bind. rewrite E. done.
Qed.

Lemma returns_when (b : bool) (m : M S unit) (Q : unit -> Prop) :
  Q tt -> (b = true -> returns I m Q) -> returns I (when b m) Q.
Proof. intros Hq Hm. destruct b; [by apply Hm | by apply returns_ret]. Qed.

Lemma returns_for_each {J : Type} (l : list J) (body : J -> M S unit) :
  (forall j, j ∈ l -> returns I (body j) (fun _ => True)) ->
  returns I (for_each l body) (fun _ => True).
Proof.
  induction l as [| j l IH]; intros Hb; cbn.
  - by apply returns_ret.
  - eapply returns_bind; [apply Hb; left |].
    intros _ _. apply IH. intros j' Hj'. apply Hb. by right.
Qed.

End Returns.

Lemma elem_of_range2 (a b v : Z) : v ∈ range2 a b <-> a <= v < b.
Proof.
  unfold range2. rewrite list_elem_of_In, in_map_iff. split.
  - intros (k & <- & Hk). apply in_seq in Hk. lia.
  - intros Hv. exists (Z.to_nat (v - a)). split; [lia |]. apply in_seq. lia.
Qed.

Lemma elem_of_range (n v : Z) : v ∈ range n <-> 0 <= v < n.
Proof. apply elem_of_range2. Qed.

(** ** Flags *)

Lemma flags_is_byte (v p : Z) : CPU.is_byte (flags v p).
Proof.
  assert (0 <= flags v p) as Hnn.
  { unfold flags. destruct (v =? 0), (truthy (Z.land v 0x80));
      rewrite ?Z.lor_nonneg, Z.land_nonneg; lia. }
  split; [done |].
  destruct (Z.eq_dec (flags v p) 0) as [-> | Hz]; [lia |].
  assert (Z.log2 (flags v p) < 8); [| apply Z.log2_lt_pow2 in H; lia].
  destruct (Z.lt_ge_cases (Z.log2 (flags v p)) 8) as [| Hge]; [done | exfalso].
  pose proof (Z.bit_log2 (flags v p) ltac:(lia)) as Hb.
  rewrite flags_testbit in Hb.
  destruct (Z.eqb_spec (Z.log2 (flags v p)) 1); [lia |].
  destruct (Z.eqb_spec (Z.log2 (flags v p)) 7); [lia |].
  destruct (Z.ltb_spec (Z.log2 (flags v p)) 7); [lia |].
  by rewrite andb_false_r in Hb.
Qed.

Lemma flags_bit1 (v p : Z) : Z.testbit (flags v p) 1 = (v =? 0).
Proof. by rewrite flags_testbit. Qed.

Lemma flags_bit7 (v p : Z) : Z.testbit (flags v p) 7 = truthy (Z.land v 0x80).
Proof. by rewrite flags_testbit, land_0x80_testbit. Qed.

(** C3: for a byte [v] and any byte in [P], [update_flags v] returns with the
    Zero flag (bit 1 of [P]) set iff [v = 0] and the Negative flag (bit 7)
    set iff [v & 0x80] is non-zero, whatever the two bits were before, and
    with every other bit of [P], the other registers, the memory, the cycle
    counter and the run flag as they were. *)
Theorem update_flags_zero_negative (v : Z) (s : CPU.state) :
  CPU.is_byte v -> CPU.is_byte (CPU.P s) ->
  exists s',
    CPU.update_flags v s = (s', Ret tt) /\
    (Z.testbit (CPU.P s') 1 = true <-> v = 0) /\
    (Z.testbit (CPU.P s') 7 = true <-> Z.land v 0x80 <> 0) /\
    (forall i, i <> 1 -> i <> 7 ->
       Z.testbit (CPU.P s') i = Z.testbit (CPU.P s) i) /\
    CPU.A s' = CPU.A s /\ CPU.X s' = CPU.X s /\ CPU.Y s' = CPU.Y s /\
    CPU.PC s' = CPU.PC s /\ CPU.SP s' = CPU.SP s /\
    CPU.memory s' = CPU.memory s /\
    CPU.clock_cycles s' = CPU.clock_cycles s /\
    CPU.running s' = CPU.running s.
Proof.
  intros Hv Hp. eexists. split; [apply update_flags_eq |].
  change (CPU.P (CPU.with_regs (CPU.set_P (flags v (CPU.P s))) s))
    with (flags v (CPU.P s)).
  repeat split; try reflexivity.
  - rewrite flags_bit1. apply Z.eqb_eq.
  - rewrite flags_bit1. apply Z.eqb_eq.
  - rewrite flags_bit7. unfold truthy.
    destruct (Z.eqb_spec (Z.land v 0x80) 0); [done | intros _; done].
  - rewrite flags_bit7. unfold truthy.
    destruct (Z.eqb_spec (Z.land v 0x80) 0); [done | cbn; done].
  - intros i Hi1 Hi7. rewrite flags_testbit.
    destruct (Z.eqb_spec i 1); [done |]. destruct (Z.eqb_spec i 7); [done |].
    destruct (Z.lt_ge_cases i 0).
    { by rewrite !Z.testbit_neg_r by done. }
    destruct (Z.leb_spec 0 i); [| lia]. rewrite andb_true_r.
    destruct (Z.ltb_spec i 7); [by rewrite andb_true_r |].
    rewrite andb_false_r. symmetry. apply is_byte_testbit_high; [done | lia].
Qed.

Lemma update_flags_zero_negative_witness :
  CPU.is_byte 0x80 /\ CPU.is_byte (CPU.P CPU.init) /\
  exists s',
    CPU.update_flags 0x80 CPU.init = (s', Ret tt) /\
    (Z.testbit (CPU.P s') 1 = true <-> 0x80 = 0) /\
    (Z.testbit (CPU.P s') 7 = true <-> Z.land 0x80 0x80 <> 0) /\
    (forall i, i <> 1 -> i <> 7 ->
       Z.testbit (CPU.P s') i = Z.testbit (CPU.P CPU.init) i) /\
    CPU.A s' = CPU.A CPU.init /\ CPU.X s' = CPU.X CPU.init /\
    CPU.Y s' = CPU.Y CPU.init /\
    CPU.PC s' = CPU.PC CPU.init /\ CPU.SP s' = CPU.SP CPU.init /\
    CPU.memory s' = CPU.memory CPU.init /\
    CPU.clock_cycles s' = CPU.clock_cycles CPU.init /\
    CPU.running s' = CPU.running CPU.init.
Proof.
  assert (CPU.is_byte 0x80) as H1 by (unfold CPU.is_byte; lia).
  assert (CPU.is_byte (CPU.P CPU.init)) as H2
    by (change (CPU.P CPU.init) with 0; unfold CPU.is_byte; lia).
  split; [exact H1 |]. split; [exact H2 |].
  exact (update_flags_zero_negative 0x80 CPU.init H1 H2).
Defined.

(** Without any assumption on [P]: the eight bits of the register are as C3
    says; the mask [0x7D] clears whatever lies above them. *)
Lemma update_flags_low_bits (v : Z) (s : CPU.state) (i : Z) :
  0 <= i < 8 ->
  Z.testbit (CPU.P (fst (CPU.update_flags v s))) i =
  if i =? 1 then v =? 0
  else if i =? 7 then Z.testbit v 7
  else Z.testbit (CPU.P s) i.
Proof.
  intros Hi. rewrite update_flags_eq.
  change (CPU.P (fst (CPU.with_regs (CPU.set_P (flags v (CPU.P s))) s, Ret tt)))
    with (flags v (CPU.P s)).
  rewrite flags_testbit.
  destruct (i =? 1); [done |]. destruct (Z.eqb_spec i 7); [done |].
  destruct (Z.leb_spec 0 i); [| lia]. destruct (Z.ltb_spec i 7); [| lia].
  by rewrite !andb_true_r.
Qed.

(** ** Reset *)

Lemma init_wf : CPU.wf CPU.init.
Proof.
  split.
  - apply bytearray_length. lia.
  - apply Forall_replicate. unfold CPU.is_byte. lia.
Qed.

Lemma read_word_eq (s : CPU.state) (a lo hi : Z) :
  getitem (CPU.memory s) a = Ret lo ->
  getitem (CPU.memory s) (a + 1) = Ret hi ->
  CPU.read_word a s = (s, Ret (Z.lor (Z.shiftl hi 8) lo)).
Proof.
  intros Hlo Hhi.
  unfold CPU.read_word, CPU.mem_get, bind, gets, lift, ret.
  by rewrite Hlo, Hhi.
Qed.

(** C8: on a CPU with its 64 KiB of byte memory, [reset] returns with [PC]
    equal to the little-endian word stored at [0xFFFC] (low byte at [0xFFFC],
    high byte at [0xFFFD]) and with [A], [X], [Y], [SP], [P], the memory, the
    cycle counter and the run flag exactly as before. *)
Theorem reset_loads_vector_only (s : CPU.state) :
  CPU.wf s ->
  exists lo hi s',
    CPU.memory s !! Z.to_nat 0xFFFC = Some lo /\
    CPU.memory s !! Z.to_nat 0xFFFD = Some hi /\
    CPU.reset s = (s', Ret tt) /\
    CPU.PC s' = lo + 256 * hi /\
    CPU.A s' = CPU.A s /\ CPU.X s' = CPU.X s /\ CPU.Y s' = CPU.Y s /\
    CPU.SP s' = CPU.SP s /\ CPU.P s' = CPU.P s /\
    CPU.memory s' = CPU.memory s /\
    CPU.clock_cycles s' = CPU.clock_cycles s /\
    CPU.running s' = CPU.running s.
Proof.
  intros Hwf.
  destruct (wf_getitem s 0xFFFC Hwf) as (lo & Hlo & Blo & Glo); [lia |].
  destruct (wf_getitem s 0xFFFD Hwf) as (hi & Hhi & Bhi & Ghi); [lia |].
  exists lo, hi, (jump_to (lo + 256 * hi) s).
  split; [done |]. split; [done |]. split.
  - unfold CPU.reset, bind. rewrite (read_word_eq s 0xFFFC lo hi Glo Ghi).
    unfold modify. by rewrite word_of_bytes.
  - repeat split.
Qed.

Lemma reset_loads_vector_only_witness :
  CPU.wf CPU.init /\
  exists lo hi s',
    CPU.memory CPU.init !! Z.to_nat 0xFFFC = Some lo /\
    CPU.memory CPU.init !! Z.to_nat 0xFFFD = Some hi /\
    CPU.reset CPU.init = (s', Ret tt) /\
    CPU.PC s' = lo + 256 * hi /\
    CPU.A s' = CPU.A CPU.init /\ CPU.X s' = CPU.X CPU.init /\
    CPU.Y s' = CPU.Y CPU.init /\
    CPU.SP s' = CPU.SP CPU.init /\ CPU.P s' = CPU.P CPU.init /\
    CPU.memory s' = CPU.memory CPU.init /\
    CPU.clock_cycles s' = CPU.clock_cycles CPU.init /\
    CPU.running s' = CPU.running CPU.init.
Proof.
  split; [exact init_wf | exact (reset_loads_vector_only CPU.init init_wf)].
Defined.

(** The reset scenario of the specification: with the word [0x9000] written
    to the reset vector of a fresh CPU, [reset] leaves [PC = 0x9000] and the
    other registers at their initial values. *)
Example reset_scenario :
  let s := fst (CPU.write_word 0xFFFC 0x9000 CPU.init) in
  snd (CPU.reset s) = Ret tt /\
  CPU.regs (fst (CPU.reset s)) = CPU.mkRegisters 0 0 0 0x9000 0x1FF 0.
Proof. vm_compute. split; reflexivity. Qed.

(** ** Unknown opcodes *)

Lemma execute_eq (s : CPU.state) (opcode : Z) :
  getitem (CPU.memory s) (CPU.PC s) = Ret opcode ->
  CPU.execute s =
  match CPU.dict_get CPU.opcodes opcode with
  | Some handler =>
      (cycles <- handler ;;
       c <- gets CPU.clock_cycles ;;
       modify (CPU.with_clock_cycles (c + cycles)) ;;
       ret cycles) (jump_to (CPU.PC s + 1) s)
  | None => (jump_to (CPU.PC s + 1) s, Ret 0)
  end.
Proof.
  intros H. unfold CPU.execute, bind at 1.
  rewrite (fetch_byte_Ret s opcode H).
  by destruct (CPU.dict_get CPU.opcodes opcode).
Qed.

Lemma execute_Raise (s : CPU.state) (e : exn) :
  getitem (CPU.memory s) (CPU.PC s) = Raise e ->
  CPU.execute s = (s, Raise e).
Proof.
  intros H. unfold CPU.execute, bind. by rewrite (fetch_byte_Raise s e H).
Qed.

(** C1, as the code has it: when the byte at [PC] has no handler in the
    dispatch table, [execute] returns 0 cycles with [PC] advanced by one (the
    opcode fetch) and with [A], [X], [Y], [SP], [P], the memory, the cycle
    counter and the run flag unchanged. *)
Theorem unknown_opcode_skips_one_byte (s : CPU.state) (opcode : Z) :
  getitem (CPU.memory s) (CPU.PC s) = Ret opcode ->
  CPU.dict_get CPU.opcodes opcode = None ->
  exists s',
    CPU.execute s = (s', Ret 0) /\
    CPU.PC s' = CPU.PC s + 1 /\
    CPU.A s' = CPU.A s /\ CPU.X s' = CPU.X s /\ CPU.Y s' = CPU.Y s /\
    CPU.SP s' = CPU.SP s /\ CPU.P s' = CPU.P s /\
    CPU.memory s' = CPU.memory s /\
    CPU.clock_cycles s' = CPU.clock_cycles s /\
    CPU.running s' = CPU.running s.
Proof.
  intros Hop Hnone. exists (jump_to (CPU.PC s + 1) s). split.
  - rewrite (execute_eq s opcode Hop). by rewrite Hnone.
  - repeat split.
Qed.

Lemma unknown_opcode_skips_one_byte_witness :
  let s := load 0x8000 [0xFF] CPU.init in
  getitem (CPU.memory s) (CPU.PC s) = Ret 0xFF /\
  CPU.dict_get CPU.opcodes 0xFF = None /\
  exists s',
    CPU.execute s = (s', Ret 0) /\
    CPU.PC s' = CPU.PC s + 1 /\
    CPU.A s' = CPU.A s /\ CPU.X s' = CPU.X s /\ CPU.Y s' = CPU.Y s /\
    CPU.SP s' = CPU.SP s /\ CPU.P s' = CPU.P s /\
    CPU.memory s' = CPU.memory s /\
    CPU.clock_cycles s' = CPU.clock_cycles s /\
    CPU.running s' = CPU.running s.
Proof.
  intros s.
  assert (getitem (CPU.memory s) (CPU.PC s) = Ret 0xFF) as H1
    by (vm_compute; reflexivity).
  assert (CPU.dict_get CPU.opcodes 0xFF = None) as H2 by reflexivity.
  split; [exact H1 |]. split; [exact H2 |].
  exact (unknown_opcode_skips_one_byte s 0xFF H1 H2).
Defined.

(** C1, as it is stated, fails: on a fresh CPU whose loader has put the
    unregistered opcode [0xFF] at the boot address, [execute] returns 0
    cycles but the registers are not all unchanged: [PC] has moved from
    [0x8000] to [0x8001]. *)
Lemma unknown_opcode_moves_PC :
  let s := load 0x8000 [0xFF] CPU.init in
  getitem (CPU.memory s) (CPU.PC s) = Ret 0xFF /\
  CPU.dict_get CPU.opcodes 0xFF = None /\
  snd (CPU.execute s) = Ret 0 /\
  CPU.PC s = 0x8000 /\
  CPU.PC (fst (CPU.execute s)) = 0x8001 /\
  CPU.regs (fst (CPU.execute s)) <> CPU.regs s.
Proof.
  vm_compute. repeat split; try reflexivity. discriminate.
Qed.

(** ** Jumps *)

Lemma fetch_addr_eq (s : CPU.state) (lo hi : Z) :
  getitem (CPU.memory s) (CPU.PC s) = Ret lo ->
  getitem (CPU.memory s) (CPU.PC s + 1) = Ret hi ->
  CPU.fetch_addr s =
  (jump_to (CPU.PC s + 1 + 1) s, Ret (Z.lor lo (Z.shiftl hi 8))).
Proof.
  intros Hlo Hhi. unfold CPU.fetch_addr, bind at 1.
  rewrite (fetch_byte_Ret s lo Hlo). unfold bind at 1.
  rewrite (fetch_byte_Ret (jump_to (CPU.PC s + 1) s) hi Hhi).
  reflexivity.
Qed.

Lemma JMP_absolute_eq (s : CPU.state) (lo hi : Z) :
  getitem (CPU.memory s) (CPU.PC s) = Ret lo ->
  getitem (CPU.memory s) (CPU.PC s + 1) = Ret hi ->
  CPU.JMP_absolute s = (jump_to (Z.lor lo (Z.shiftl hi 8)) s, Ret 3).
Proof.
  intros Hlo Hhi. unfold CPU.JMP_absolute, bind at 1.
  by rewrite (fetch_addr_eq s lo hi Hlo Hhi).
Qed.

Lemma execute_JMP (s : CPU.state) (lo hi : Z) :
  CPU.is_byte lo ->
  getitem (CPU.memory s) (CPU.PC s) = Ret 0x4C ->
  getitem (CPU.memory s) (CPU.PC s + 1) = Ret lo ->
  getitem (CPU.memory s) (CPU.PC s + 2) = Ret hi ->
  CPU.execute s =
  (CPU.with_clock_cycles (CPU.clock_cycles s + 3) (jump_to (lo + 256 * hi) s),
   Ret 3).
Proof.
  intros Blo Hop Hlo Hhi. rewrite (execute_eq s 0x4C Hop).
  change (CPU.dict_get CPU.opcodes 0x4C) with (Some CPU.JMP_absolute).
  unfold bind at 1.
  rewrite (JMP_absolute_eq (jump_to (CPU.PC s + 1) s) lo hi); [| done |].
  - rewrite word_of_bytes' by done. reflexivity.
  - change (CPU.PC (jump_to (CPU.PC s + 1) s) + 1) with (CPU.PC s + 1 + 1).
    by replace (CPU.PC s + 1 + 1) with (CPU.PC s + 2) by lia.
Qed.

(** C7: wherever [PC] points, if the three bytes there are [0x4C], [lo],
    [hi], then [execute] returns 3 cycles with [PC] equal to the 16-bit
    address [lo + 256 * hi] and nothing else changed but the cycle counter,
    which grows by 3.  Executing the same instruction again from the state
    so reached (with [PC] back on the instruction) yields the same [PC]
    again, and the same state up to the cycle counter. *)
Theorem JMP_absolute_sets_PC (s : CPU.state) (lo hi : Z) :
  CPU.wf s ->
  getitem (CPU.memory s) (CPU.PC s) = Ret 0x4C ->
  getitem (CPU.memory s) (CPU.PC s + 1) = Ret lo ->
  getitem (CPU.memory s) (CPU.PC s + 2) = Ret hi ->
  exists s' s'',
    CPU.execute s = (s', Ret 3) /\
    CPU.PC s' = lo + 256 * hi /\ 0 <= CPU.PC s' <= 0xFFFF /\
    CPU.A s' = CPU.A s /\ CPU.X s' = CPU.X s /\ CPU.Y s' = CPU.Y s /\
    CPU.SP s' = CPU.SP s /\ CPU.P s' = CPU.P s /\
    CPU.memory s' = CPU.memory s /\
    CPU.clock_cycles s' = CPU.clock_cycles s + 3 /\
    CPU.running s' = CPU.running s /\
    CPU.execute (jump_to (CPU.PC s) s') = (s'', Ret 3) /\
    CPU.PC s'' = CPU.PC s' /\
    s'' = CPU.with_clock_cycles (CPU.clock_cycles s' + 3) s'.
Proof.
  intros Hwf Hop Hlo Hhi.
  pose proof (getitem_is_byte s _ lo Hwf Hlo) as Blo.
  pose proof (getitem_is_byte s _ hi Hwf Hhi) as Bhi.
  set (s' := CPU.with_clock_cycles (CPU.clock_cycles s + 3)
               (jump_to (lo + 256 * hi) s)).
  exists s', (CPU.with_clock_cycles (CPU.clock_cycles s' + 3) s').
  split; [by apply execute_JMP |].
  split; [done |].
  split; [apply (word_of_bytes_range lo hi Blo Bhi) |].
  do 8 (split; [reflexivity |]).
  split; [| split; reflexivity].
  by rewrite (execute_JMP (jump_to (CPU.PC s) s') lo hi).
Qed.


(** ** Bytes stay bytes *)

Section CPUInvariant.
Import CPU.

Lemma setitem_Ret (b : list Z) (i v : Z) (b' : list Z) :
  bytearray_setitem b i v = Ret b' ->
  exists n, py_index b i = Some n /\ is_byte v /\ b' = <[n := v]> b.
Proof.
  unfold bytearray_setitem. destruct (py_index b i) as [n |]; [| done].
  destruct (Z.leb_spec 0 v); [| done]. destruct (Z.ltb_spec v 256); [| done].
  intros [= <-]. exists n. unfold is_byte. split; [done |]. split; [lia | done].
Qed.

Lemma setitem_byte (b : list Z) (i v : Z) (n : nat) :
  py_index b i = Some n -> is_byte v ->
  bytearray_setitem b i v = Ret (<[n := v]> b).
Proof.
  intros Hn [H0 H1]. unfold bytearray_setitem. rewrite Hn.
  destruct (Z.leb_spec 0 v); [| lia]. destruct (Z.ltb_spec v 256); [| lia].
  done.
Qed.

Lemma mem_set_eq (a v : Z) (s : state) :
  mem_set a v s =
  match bytearray_setitem (memory s) a v with
  | Ret m' => (with_memory m' s, Ret tt)
  | Raise e => (s, Raise e)
  | OutOfFuel => (s, OutOfFuel)
  end.
Proof.
  unfold mem_set, bind, gets, lift, modify.
  by destruct (bytearray_setitem (memory s) a v).
Qed.

Lemma cpu_inv_mem_get (a : Z) : preserves cpu_inv (mem_get a) is_byte.
Proof.
  intros s Hs. rewrite mem_get_eq. split; [done |]. cbn.
  intros v Hv. destruct Hs as [Hwf _]. by eapply getitem_is_byte.
Qed.

Lemma cpu_inv_mem_set (a v : Z) :
  preserves cpu_inv (mem_set a v) (fun _ => True).
Proof.
  intros s Hs. rewrite mem_set_eq.
  destruct (bytearray_setitem (memory s) a v) as [m' | e |] eqn:E; cbn;
    [| done | done].
  destruct Hs as [[Hlen Hbytes] Hregs].
  apply setitem_Ret in E as (n & Hn & Hv & ->).
  split; [| done]. split; [split |]; cbn.
  - by rewrite length_insert.
  - by apply Forall_insert.
  - done.
Qed.

(** Closes [cpu_inv] of a state that differs from one with [cpu_inv] in
    registers, counter or flag only. *)
Ltac inv_solve :=
  let s := fresh "s" in
  intros s [[? ?] [? ?]];
  split; [split; assumption | split; cbn; assumption].

Lemma cpu_inv_set_PC (pc : Z) (Q : unit -> Prop) :
  Q tt -> preserves cpu_inv (modify (with_regs (set_PC pc))) Q.
Proof. intros Hq. apply preserves_modify; [inv_solve | done]. Qed.

Lemma cpu_inv_set_A (v : Z) (Q : unit -> Prop) :
  is_byte v -> Q tt -> preserves cpu_inv (modify (with_regs (set_A v))) Q.
Proof.
  intros Hv Hq. apply preserves_modify; [inv_solve | done].
Qed.

Lemma cpu_inv_fetch_byte : preserves cpu_inv fetch_byte is_byte.
Proof.
  unfold fetch_byte.
  eapply preserves_bind; [by apply preserves_gets with (Q := fun _ => True) |].
  intros pc _. eapply preserves_bind; [apply cpu_inv_mem_get |].
  intros v Hv.
  eapply preserves_bind; [by apply preserves_gets with (Q := fun _ => True) |].
  intros pc' _.
  eapply preserves_bind; [by apply cpu_inv_set_PC with (Q := fun _ => True) |].
  intros _ _. by apply preserves_ret.
Qed.

Lemma cpu_inv_fetch_addr : preserves cpu_inv fetch_addr (fun _ => True).
Proof.
  unfold fetch_addr.
  eapply preserves_bind; [apply cpu_inv_fetch_byte |]. intros lo _.
  eapply preserves_bind; [apply cpu_inv_fetch_byte |]. intros hi _.
  by apply preserves_ret.
Qed.

Lemma cpu_inv_update_flags (v : Z) :
  preserves cpu_inv (update_flags v) (fun _ => True).
Proof.
  intros s [[] [HA HP]]. rewrite update_flags_eq. cbn.
  split; [| done].
  split; [split; assumption | split; [assumption | apply flags_is_byte]].
Qed.

Lemma cpu_inv_write_byte (a v : Z) :
  preserves cpu_inv (write_byte a v) (fun _ => True).
Proof. apply cpu_inv_mem_set. Qed.

Lemma cpu_inv_write_word (a v : Z) :
  preserves cpu_inv (write_word a v) (fun _ => True).
Proof.
  unfold write_word.
  eapply preserves_bind; [apply cpu_inv_mem_set |].
  intros _ _. apply cpu_inv_mem_set.
Qed.

Lemma cpu_inv_LDA_immediate : preserves cpu_inv LDA_immediate (fun n => n = 2).
Proof.
  unfold LDA_immediate.
  eapply preserves_bind; [apply cpu_inv_fetch_byte |]. intros v Hv.
  eapply preserves_bind; [by apply cpu_inv_set_A with (Q := fun _ => True) |].
  intros _ _. eapply preserves_bind; [apply cpu_inv_update_flags |].
  intros _ _. by apply preserves_ret.
Qed.

Lemma cpu_inv_LDA_absolute : preserves cpu_inv LDA_absolute (fun n => n = 4).
Proof.
  unfold LDA_absolute.
  eapply preserves_bind; [apply cpu_inv_fetch_addr |]. intros addr _.
  eapply preserves_bind; [apply cpu_inv_mem_get |]. intros v Hv.
  eapply preserves_bind; [by apply cpu_inv_set_A with (Q := fun _ => True) |].
  intros _ _. eapply preserves_bind; [apply cpu_inv_update_flags |].
  intros _ _. by apply preserves_ret.
Qed.

Lemma cpu_inv_STA_absolute : preserves cpu_inv STA_absolute (fun n => n = 4).
Proof.
  unfold STA_absolute.
  eapply preserves_bind; [apply cpu_inv_fetch_addr |]. intros addr _.
  eapply preserves_bind; [by apply preserves_gets with (Q := fun _ => True) |].
  intros a _. eapply preserves_bind; [apply cpu_inv_write_byte |].
  intros _ _. by apply preserves_ret.
Qed.

Lemma cpu_inv_JMP_absolute : preserves cpu_inv JMP_absolute (fun n => n = 3).
Proof.
  unfold JMP_absolute.
  eapply preserves_bind; [apply cpu_inv_fetch_addr |]. intros addr _.
  eapply preserves_bind; [by apply cpu_inv_set_PC with (Q := fun _ => True) |].
  intros _ _. by apply preserves_ret.
Qed.

Lemma cpu_inv_NOP : preserves cpu_inv NOP (fun n => n = 2).
Proof. by apply preserves_ret. Qed.

Lemma cpu_inv_BRK : preserves cpu_inv BRK (fun n => n = 7).
Proof.
  unfold BRK. eapply preserves_bind with (Q := fun _ => True).
  - apply preserves_modify; [inv_solve | done].
  - intros _ _. by apply preserves_ret.
Qed.

(** The six handlers are all the dispatch table holds. *)
Lemma dict_get_opcodes (opcode : Z) (handler : M state Z) :
  dict_get opcodes opcode = Some handler ->
  (opcode = 0xA9 /\ handler = LDA_immediate) \/
  (opcode = 0xAD /\ handler = LDA_absolute) \/
  (opcode = 0x8D /\ handler = STA_absolute) \/
  (opcode = 0x4C /\ handler = JMP_absolute) \/
  (opcode = 0xEA /\ handler = NOP) \/
  (opcode = 0x00 /\ handler = BRK).
Proof.
  unfold opcodes, dict_get.
  repeat match goal with
         | |- context [?k =? opcode] =>
             destruct (Z.eqb_spec k opcode) as [<- | ?];
             [intros [= <-]; tauto |]
         end.
  done.
Qed.

(** Every handler of the table keeps the invariant and costs between 2 and
    7 cycles. *)
Lemma cpu_inv_handler (opcode : Z) (handler : M state Z) :
  dict_get opcodes opcode = Some handler ->
  preserves cpu_inv handler (fun n => 2 <= n <= 7).
Proof.
  intros E.
  apply dict_get_opcodes in E
    as [[_ ->] | [[_ ->] | [[_ ->] | [[_ ->] | [[_ ->] | [_ ->]]]]]].
  - eapply preserves_weaken; [apply cpu_inv_LDA_immediate | intros ? ->; lia].
  - eapply preserves_weaken; [apply cpu_inv_LDA_absolute | intros ? ->; lia].
  - eapply preserves_weaken; [apply cpu_inv_STA_absolute | intros ? ->; lia].
  - eapply preserves_weaken; [apply cpu_inv_JMP_absolute | intros ? ->; lia].
  - eapply preserves_weaken; [apply cpu_inv_NOP | intros ? ->; lia].
  - eapply preserves_weaken; [apply cpu_inv_BRK | intros ? ->; lia].
Qed.

Lemma cpu_inv_execute : preserves cpu_inv execute (fun _ => True).
Proof.
  unfold execute.
  eapply preserves_bind; [apply cpu_inv_fetch_byte |]. intros opcode _.
  destruct (dict_get opcodes opcode) as [handler |] eqn:E;
    [| by apply preserves_ret].
  eapply preserves_bind; [by eapply cpu_inv_handler |].
  intros cycles _.
  eapply preserves_bind; [by apply preserves_gets with (Q := fun _ => True) |].
  intros c _. eapply preserves_bind with (Q := fun _ => True).
  - apply preserves_modify; [inv_solve | done].
  - intros _ _. by apply preserves_ret.
Qed.

Lemma cpu_inv_run_call (c : cpu_call) (s : state) :
  cpu_inv s -> cpu_inv (run_call c s).
Proof.
  intros Hs. destruct c as [| a v | a v]; cbn.
  - by apply cpu_inv_execute.
  - by apply cpu_inv_write_byte.
  - by apply cpu_inv_write_word.
Qed.

Lemma cpu_inv_init : cpu_inv init.
Proof. split; [apply init_wf |]. split; cbn; unfold is_byte; lia. Qed.

Lemma cpu_inv_load (origin : Z) (bytes : list Z) (s : state) :
  cpu_inv s -> cpu_inv (load origin bytes s).
Proof.
  intros Hs. unfold load.
  apply (preserves_for_each cpu_inv); [| done].
  intros [i byte]. apply cpu_inv_write_byte.
Qed.

End CPUInvariant.

Lemma py_index_length {T : Type} (l l' : list T) (i : Z) :
  length l = length l' -> py_index l i = py_index l' i.
Proof.
  intros Hlen. destruct (py_index l i) as [n |] eqn:E; symmetry.
  - apply py_index_Some. apply py_index_Some in E. by rewrite <- Hlen.
  - apply py_index_None. apply py_index_None in E. by rewrite <- Hlen.
Qed.

Lemma write_byte_eq (s : CPU.state) (a v : Z) (n : nat) :
  py_index (CPU.memory s) a = Some n ->
  CPU.write_byte a v s =
  (CPU.with_memory (<[n := Z.land v 0xFF]> (CPU.memory s)) s, Ret tt).
Proof.
  intros Hn. unfold CPU.write_byte. rewrite mem_set_eq.
  by rewrite (setitem_byte _ _ _ n Hn (land_0xFF_is_byte v)).
Qed.

Lemma write_word_eq (s : CPU.state) (a v : Z) (n n' : nat) :
  py_index (CPU.memory s) a = Some n ->
  py_index (CPU.memory s) (a + 1) = Some n' ->
  CPU.write_word a v s =
  (CPU.with_memory
     (<[n' := Z.land (Z.shiftr v 8) 0xFF]>
        (<[n := Z.land v 0xFF]> (CPU.memory s))) s,
   Ret tt).
Proof.
  intros Hn Hn'. unfold CPU.write_word, bind. rewrite !mem_set_eq.
  rewrite (setitem_byte _ _ _ n Hn (land_0xFF_is_byte v)).
  rewrite mem_set_eq. cbn.
  rewrite (setitem_byte _ _ _ n'); [done | | apply land_0xFF_is_byte].
  rewrite <- Hn'. apply py_index_length. by rewrite length_insert.
Qed.

(** C10: [write_byte] stores [value & 0xFF] and [write_word] stores
    [value & 0xFF] and [(value >> 8) & 0xFF]; and from a CPU whose memory
    cells and [A] register are bytes, any sequence of [execute], [write_byte]
    and [write_word] calls, whatever they are given and whether they return
    or raise, leaves a CPU whose memory is still 64 KiB of bytes and whose
    [A] (and [P]) register is a byte. *)
Theorem bytes_stay_bytes (cs : list cpu_call) (s : CPU.state) :
  CPU.wf s -> CPU.is_byte (CPU.A s) -> CPU.is_byte (CPU.P s) ->
  (forall a v n,
     py_index (CPU.memory s) a = Some n ->
     CPU.write_byte a v s =
     (CPU.with_memory (<[n := Z.land v 0xFF]> (CPU.memory s)) s, Ret tt)) /\
  (forall a v n n',
     py_index (CPU.memory s) a = Some n ->
     py_index (CPU.memory s) (a + 1) = Some n' ->
     CPU.write_word a v s =
     (CPU.with_memory
        (<[n' := Z.land (Z.shiftr v 8) 0xFF]>
           (<[n := Z.land v 0xFF]> (CPU.memory s))) s,
      Ret tt)) /\
  Z.of_nat (length (CPU.memory (run_calls cs s))) = 0x10000 /\
  Forall (fun cell => 0 <= cell <= 255) (CPU.memory (run_calls cs s)) /\
  0 <= CPU.A (run_calls cs s) <= 255 /\
  0 <= CPU.P (run_calls cs s) <= 255.
Proof.
  intros Hwf HA HP.
  split; [intros a v n; apply write_byte_eq |].
  split; [intros a v n n'; apply write_word_eq |].
  assert (cpu_inv (run_calls cs s)) as [[Hlen Hbytes] [HA' HP']].
  { assert (cpu_inv s) as Hs by (by split).
    clear Hwf HA HP. revert s Hs. unfold run_calls.
    induction cs as [| c cs IH]; intros s Hs; cbn; [done |].
    apply IH. by apply cpu_inv_run_call. }
  done.
Qed.

Lemma bytes_stay_bytes_witness :
  let cs := [CallWriteWord 0x8000 0x1FFA9; CallExecute;
             CallWriteByte (-1) (-1); CallWriteByte 0x10000 7; CallExecute] in
  let s := CPU.init in
  CPU.wf s /\ CPU.is_byte (CPU.A s) /\ CPU.is_byte (CPU.P s) /\
  Z.of_nat (length (CPU.memory (run_calls cs s))) = 0x10000 /\
  Forall (fun cell => 0 <= cell <= 255) (CPU.memory (run_calls cs s)) /\
  0 <= CPU.A (run_calls cs s) <= 255 /\
  0 <= CPU.P (run_calls cs s) <= 255.
Proof.
  intros cs s.
  assert (CPU.wf s) as H1 by exact init_wf.
  assert (CPU.is_byte (CPU.A s)) as H2
    by (change (CPU.A s) with 0; unfold CPU.is_byte; lia).
  assert (CPU.is_byte (CPU.P s)) as H3
    by (change (CPU.P s) with 0; unfold CPU.is_byte; lia).
  split; [exact H1 |]. split; [exact H2 |]. split; [exact H3 |].
  exact (proj2 (proj2 (bytes_stay_bytes cs s H1 H2 H3))).
Defined.

(** What the witness's calls do: the word write stores [0xA9] and [0xFF]
    (bit 16 of the value is masked away), [execute] runs [LDA #$FF], the
    write at index [-1] stores [0xFF] in the last cell, the write at
    [0x10000] raises, and the last [execute] runs the [0x00] at [0x8002]. *)
Example bytes_stay_bytes_run :
  let s := run_calls [CallWriteWord 0x8000 0x1FFA9; CallExecute;
                      CallWriteByte (-1) (-1); CallWriteByte 0x10000 7;
                      CallExecute] CPU.init in
  CPU.regs s = CPU.mkRegisters 0xFF 0 0 0x8003 0x1FF 0x80 /\
  CPU.memory s !! Z.to_nat 0x8000 = Some 0xA9 /\
  CPU.memory s !! Z.to_nat 0x8001 = Some 0xFF /\
  CPU.memory s !! Z.to_nat 0xFFFF = Some 0xFF /\
  snd (CPU.write_byte 0x10000 7 s) = Raise IndexError.
Proof. vm_compute. repeat split; reflexivity. Qed.

(** The witness of C7: [JMP $9000] at the boot address of a fresh CPU. *)
Lemma JMP_absolute_sets_PC_witness :
  let s := load 0x8000 [0x4C; 0x00; 0x90] CPU.init in
  CPU.wf s /\
  getitem (CPU.memory s) (CPU.PC s) = Ret 0x4C /\
  getitem (CPU.memory s) (CPU.PC s + 1) = Ret 0x00 /\
  getitem (CPU.memory s) (CPU.PC s + 2) = Ret 0x90 /\
  exists s' s'',
    CPU.execute s = (s', Ret 3) /\
    CPU.PC s' = 0x00 + 256 * 0x90 /\ 0 <= CPU.PC s' <= 0xFFFF /\
    CPU.A s' = CPU.A s /\ CPU.X s' = CPU.X s /\ CPU.Y s' = CPU.Y s /\
    CPU.SP s' = CPU.SP s /\ CPU.P s' = CPU.P s /\
    CPU.memory s' = CPU.memory s /\
    CPU.clock_cycles s' = CPU.clock_cycles s + 3 /\
    CPU.running s' = CPU.running s /\
    CPU.execute (jump_to (CPU.PC s) s') = (s'', Ret 3) /\
    CPU.PC s'' = CPU.PC s' /\
    s'' = CPU.with_clock_cycles (CPU.clock_cycles s' + 3) s'.
Proof.
  intros s.
  assert (CPU.wf s) as H0 by (apply cpu_inv_load, cpu_inv_init).
  assert (getitem (CPU.memory s) (CPU.PC s) = Ret 0x4C) as H1
    by (vm_compute; reflexivity).
  assert (getitem (CPU.memory s) (CPU.PC s + 1) = Ret 0x00) as H2
    by (vm_compute; reflexivity).
  assert (getitem (CPU.memory s) (CPU.PC s + 2) = Ret 0x90) as H3
    by (vm_compute; reflexivity).
  split; [exact H0 |]. split; [exact H1 |]. split; [exact H2 |].
  split; [exact H3 |].
  exact (JMP_absolute_sets_PC s 0x00 0x90 H0 H1 H2 H3).
Defined.

(** ** The range of instruction fetch *)

Lemma wf_getitem_cases (s : CPU.state) (a : Z) :
  CPU.wf s ->
  (- 0x10000 <= a <= 0xFFFF /\
   exists v, CPU.is_byte v /\ getitem (CPU.memory s) a = Ret v) \/
  ((a < - 0x10000 \/ 0xFFFF < a) /\
   getitem (CPU.memory s) a = Raise IndexError).
Proof.
  intros Hwf. pose proof (CPU.wf_length s Hwf) as Hlen.
  destruct (getitem_cases (CPU.memory s) a)
    as [[Hr (n & v & _ & _ & Hv)] | [Hr He]].
  - left. split; [lia |]. exists v. split; [| done].
    by eapply getitem_is_byte.
  - right. split; [lia | done].
Qed.

Lemma JMP_absolute_range (s s' : CPU.state) (c : Z) :
  CPU.wf s -> CPU.JMP_absolute s = (s', Ret c) -> 0 <= CPU.PC s' <= 0xFFFF.
Proof.
  intros Hwf H.
  destruct (wf_getitem_cases s (CPU.PC s) Hwf)
    as [[_ (lo & Blo & Hlo)] | [_ He]].
  2: { unfold CPU.JMP_absolute, CPU.fetch_addr, bind in H.
       rewrite (fetch_byte_Raise s _ He) in H. done. }
  destruct (wf_getitem_cases s (CPU.PC s + 1) Hwf)
    as [[_ (hi & Bhi & Hhi)] | [_ He]].
  2: { unfold CPU.JMP_absolute, CPU.fetch_addr, bind in H.
       rewrite (fetch_byte_Ret s lo Hlo) in H.
       rewrite (fetch_byte_Raise (jump_to (CPU.PC s + 1) s) _ He) in H.
       done. }
  rewrite (JMP_absolute_eq s lo hi Hlo Hhi) in H.
  injection H as <- _.
  change (CPU.PC (jump_to (Z.lor lo (Z.shiftl hi 8)) s))
    with (Z.lor lo (Z.shiftl hi 8)).
  rewrite word_of_bytes' by done. by apply word_of_bytes_range.
Qed.

(** C2, as the code has it: on a CPU with its 64 KiB memory, an instruction
    fetch reads [memory[PC]] and adds one to [PC] without masking.  It
    succeeds exactly when [-0x10000 <= PC <= 0xFFFF] (a negative [PC], which
    no run produces, would index from the end) and otherwise raises
    [IndexError], and so does [execute].  A jump that returns leaves [PC]
    within [0, 0xFFFF].  A fetch with [PC = 0xFFFF] succeeds and leaves
    [PC = 0x10000], where the next [execute] raises [IndexError]. *)
Theorem fetch_range (s : CPU.state) :
  CPU.wf s ->
  (- 0x10000 <= CPU.PC s <= 0xFFFF ->
   exists v, CPU.is_byte v /\
             CPU.fetch_byte s = (jump_to (CPU.PC s + 1) s, Ret v)) /\
  (CPU.PC s < - 0x10000 \/ 0xFFFF < CPU.PC s ->
   CPU.fetch_byte s = (s, Raise IndexError) /\
   CPU.execute s = (s, Raise IndexError)) /\
  (forall s' c, CPU.JMP_absolute s = (s', Ret c) -> 0 <= CPU.PC s' <= 0xFFFF) /\
  (CPU.PC s = 0xFFFF ->
   exists v s',
     CPU.fetch_byte s = (s', Ret v) /\ CPU.PC s' = 0x10000 /\
     CPU.execute s' = (s', Raise IndexError)).
Proof.
  intros Hwf.
  assert (forall t, CPU.wf t -> CPU.PC t < - 0x10000 \/ 0xFFFF < CPU.PC t ->
            CPU.fetch_byte t = (t, Raise IndexError) /\
            CPU.execute t = (t, Raise IndexError)) as Hout.
  { intros t Ht Hr.
    destruct (wf_getitem_cases t (CPU.PC t) Ht) as [[? _] | [_ He]]; [lia |].
    split; [by apply fetch_byte_Raise | by apply execute_Raise]. }
  assert (forall t, CPU.wf t -> - 0x10000 <= CPU.PC t <= 0xFFFF ->
            exists v, CPU.is_byte v /\
              CPU.fetch_byte t = (jump_to (CPU.PC t + 1) t, Ret v)) as Hin.
  { intros t Ht Hr.
    destruct (wf_getitem_cases t (CPU.PC t) Ht)
      as [[_ (v & Bv & Hv)] | [? _]]; [| lia].
    exists v. split; [done |]. by apply fetch_byte_Ret. }
  split; [by apply Hin |]. split; [by apply Hout |].
  split; [intros s' c; by apply JMP_absolute_range |].
  intros Hpc. destruct (Hin s Hwf) as (v & _ & Hv); [lia |].
  exists v, (jump_to (CPU.PC s + 1) s). split; [done |].
  split; [cbn; lia |].
  apply Hout; [by destruct Hwf | cbn; lia].
Qed.

Lemma fetch_range_witness :
  let s := jump_to 0xFFFF CPU.init in
  CPU.wf s /\
  (- 0x10000 <= CPU.PC s <= 0xFFFF ->
   exists v, CPU.is_byte v /\
             CPU.fetch_byte s = (jump_to (CPU.PC s + 1) s, Ret v)) /\
  (CPU.PC s < - 0x10000 \/ 0xFFFF < CPU.PC s ->
   CPU.fetch_byte s = (s, Raise IndexError) /\
   CPU.execute s = (s, Raise IndexError)) /\
  (forall s' c, CPU.JMP_absolute s = (s', Ret c) -> 0 <= CPU.PC s' <= 0xFFFF) /\
  (CPU.PC s = 0xFFFF ->
   exists v s',
     CPU.fetch_byte s = (s', Ret v) /\ CPU.PC s' = 0x10000 /\
     CPU.execute s' = (s', Raise IndexError)).
Proof.
  intros s.
  assert (CPU.wf s) as H by (destruct init_wf; split; assumption).
  split; [exact H | exact (fetch_range s H)].
Defined.

(** C2, as it is stated, fails.  A fresh CPU is loaded with [JMP $FFFF] at
    the boot address and a [NOP] in the last cell.  The jump leaves
    [PC = 0xFFFF]; the fetch of the [NOP] there succeeds and leaves
    [PC = 0x10000], not [0x0000]; the next [execute] raises [IndexError]. *)
Lemma fetch_past_the_end_raises :
  let s0 := load 0xFFFF [0xEA] (load 0x8000 [0x4C; 0xFF; 0xFF] CPU.init) in
  let s1 := fst (CPU.execute s0) in
  let s2 := fst (CPU.execute s1) in
  snd (CPU.execute s0) = Ret 3 /\ CPU.PC s1 = 0xFFFF /\
  snd (CPU.execute s1) = Ret 2 /\ CPU.PC s2 = 0x10000 /\ CPU.PC s2 <> 0 /\
  snd (CPU.execute s2) = Raise IndexError.
Proof. vm_compute. repeat split; try reflexivity. discriminate. Qed.

(** ** The tile decoder *)

Lemma land_1_testbit (a bit : Z) :
  0 <= bit -> Z.land (Z.shiftr a bit) 1 = Z.b2z (Z.testbit a bit).
Proof.
  intros Hbit. change 1 with (Z.ones 1) at 1. rewrite Z.land_ones by lia.
  change (2 ^ 1) with 2. rewrite <- Z.bit0_mod.
  rewrite Z.shiftr_spec by lia. by rewrite Z.add_0_l.
Qed.

Lemma color_idx_bits (plane0 plane1 bit : Z) :
  0 <= bit ->
  PPU.color_idx plane0 plane1 bit =
  2 * Z.b2z (Z.testbit plane1 bit) + Z.b2z (Z.testbit plane0 bit).
Proof.
  intros Hbit. unfold PPU.color_idx. rewrite !land_1_testbit by done.
  by destruct (Z.testbit plane1 bit), (Z.testbit plane0 bit).
Qed.

Lemma color_idx_range (plane0 plane1 bit : Z) :
  0 <= bit -> 0 <= PPU.color_idx plane0 plane1 bit <= 3.
Proof.
  intros Hbit. rewrite color_idx_bits by done.
  destruct (Z.testbit plane1 bit), (Z.testbit plane0 bit); cbn; lia.
Qed.

Lemma wf_palette_getitem (p : PPU.state) (i : Z) :
  PPU.wf p -> 0 <= i <= 3 ->
  exists color, PPU.palette p !! Z.to_nat i = Some color /\
                getitem (PPU.palette p) i = Ret color.
Proof.
  intros [_ _ Hpal] Hi.
  destruct (lookup_lt_is_Some_2 (PPU.palette p) (Z.to_nat i)) as [c Hc]; [lia |].
  exists c. split; [done |]. apply getitem_nonneg; [lia | done].
Qed.

Lemma render_pixel_transparent (p : PPU.state) (x y ty plane0 plane1 tx : Z) :
  PPU.color_idx plane0 plane1 (7 - tx) = 0 ->
  PPU.render_pixel x y ty plane0 plane1 tx p = (p, Ret tt).
Proof. intros H. unfold PPU.render_pixel. by rewrite H. Qed.

Lemma render_pixel_paints (p : PPU.state) (x y ty plane0 plane1 tx : Z)
    (color : PPU.rgb) :
  0 < PPU.color_idx plane0 plane1 (7 - tx) ->
  getitem (PPU.palette p) (PPU.color_idx plane0 plane1 (7 - tx)) = Ret color ->
  PPU.render_pixel x y ty plane0 plane1 tx p =
  (PPU.mkState (PPU.vram p) (PPU.palette p)
     (PPU.mkRectangle (x + tx) (y + ty) (x + tx + 1) (y + ty + 1) color
        :: PPU.canvas p)
     (PPU.PaletteRead (PPU.color_idx plane0 plane1 (7 - tx)) :: PPU.accesses p),
   Ret tt).
Proof.
  intros Hpos Hc. unfold PPU.render_pixel.
  destruct (Z.ltb_spec 0 (PPU.color_idx plane0 plane1 (7 - tx))); [| lia].
  unfold when, PPU.palette_get, PPU.log, PPU.create_rectangle,
    bind, modify, gets, lift.
  cbn. by rewrite Hc.
Qed.

(** C5: for plane bytes [plane0] and [plane1] (any integers, in fact) and a
    column [col] in 0..7, with [bit = 7 - col], the color index the decoder
    computes is [((plane1 >> bit) & 1) << 1 | ((plane0 >> bit) & 1)], that
    is twice bit [bit] of [plane1] plus bit [bit] of [plane0], a value in
    [0, 3].  When it is 0 the pixel step leaves the PPU as it was: nothing is
    painted and the palette is not read.  When it is not 0 the step reads
    [palette[color_index]] and adds exactly one rectangle to the canvas, the
    unit square at [(x + col, y + row)], filled with that palette entry. *)
Theorem render_pixel_decodes (p : PPU.state) (x y row plane0 plane1 col : Z) :
  PPU.wf p -> 0 <= col <= 7 ->
  let bit := 7 - col in
  let color_index := PPU.color_idx plane0 plane1 bit in
  color_index =
    Z.lor (Z.shiftl (Z.land (Z.shiftr plane1 bit) 1) 1)
          (Z.land (Z.shiftr plane0 bit) 1) /\
  color_index =
    2 * Z.b2z (Z.testbit plane1 bit) + Z.b2z (Z.testbit plane0 bit) /\
  0 <= color_index <= 3 /\
  (color_index = 0 ->
   PPU.render_pixel x y row plane0 plane1 col p = (p, Ret tt)) /\
  (color_index <> 0 ->
   exists color,
     PPU.palette p !! Z.to_nat color_index = Some color /\
     PPU.render_pixel x y row plane0 plane1 col p =
     (PPU.mkState (PPU.vram p) (PPU.palette p)
        (PPU.mkRectangle (x + col) (y + row) (x + col + 1) (y + row + 1) color
           :: PPU.canvas p)
        (PPU.PaletteRead color_index :: PPU.accesses p),
      Ret tt)).
Proof.
  intros Hwf Hcol bit color_index.
  pose proof (color_idx_range plane0 plane1 bit ltac:(unfold bit; lia)) as Hr.
  split; [reflexivity |].
  split; [apply color_idx_bits; unfold bit; lia |].
  split; [done |].
  split; [apply render_pixel_transparent |].
  intros Hnz.
  destruct (wf_palette_getitem p color_index Hwf Hr) as (color & Hl & Hg).
  exists color. split; [done |].
  apply render_pixel_paints; [fold bit; fold color_index; lia | done].
Qed.

(** The tile decode scenario of the specification: the row [plane0 = 0xAA],
    [plane1 = 0x55] decodes, most significant bit first, to the color
    indices 1, 2, 1, 2, 1, 2, 1, 2. *)
Example tile_decode_scenario :
  map (fun col => PPU.color_idx 0xAA 0x55 (7 - col)) (range 8) =
  [1; 2; 1; 2; 1; 2; 1; 2].
Proof. reflexivity. Qed.

(** ** The renderer stays in range *)

Section Renderer.
Import PPU.

(** What is proved of the log holds of any property [ok] that the bounds
    of [access_ok] imply; with the trivial one it says that the renderer
    returns on every well-formed PPU. *)
Context (ok : access -> Prop) (Hok : forall a, access_ok a -> ok a).

Lemma wf_vram_getitem (p : state) (i : Z) :
  wf p -> 0 <= i < 0x8000 ->
  exists v, CPU.is_byte v /\ getitem (vram p) i = Ret v.
Proof.
  intros [Hlen Hbytes _] Hi.
  destruct (lookup_lt_is_Some_2 (vram p) (Z.to_nat i)) as [v Hv]; [lia |].
  exists v. split.
  - rewrite Forall_lookup in Hbytes. by eapply Hbytes.
  - apply getitem_nonneg; [lia | done].
Qed.

Lemma ppu_inv_log (a : access) (p : state) :
  access_ok a -> ppu_inv ok p ->
  ppu_inv ok (with_accesses (a :: accesses p) p).
Proof.
  intros Ha [[] Hacc]. split; [by split |]. cbn.
  apply Forall_cons. split; [by apply Hok | done].
Qed.

Lemma returns_vram_get (site : Z -> access) (i : Z) :
  0 <= i < 0x8000 -> access_ok (site i) ->
  returns (ppu_inv ok) (vram_get site i) CPU.is_byte.
Proof.
  intros Hi Hsite p Hp.
  destruct (wf_vram_getitem p i (proj1 Hp) Hi) as (v & Bv & Hv).
  exists (with_accesses (site i :: accesses p) p), v.
  split; [| split; [by apply ppu_inv_log | done]].
  unfold vram_get, log, bind, modify, gets, lift. cbn. by rewrite Hv.
Qed.

Lemma returns_palette_get (i : Z) :
  1 <= i <= 3 -> returns (ppu_inv ok) (palette_get i) (fun _ => True).
Proof.
  intros Hi p Hp.
  destruct (wf_palette_getitem p i (proj1 Hp)) as (c & _ & Hc); [lia |].
  exists (with_accesses (PaletteRead i :: accesses p) p), c.
  split; [| split; [by apply ppu_inv_log | done]].
  unfold palette_get, log, bind, modify, gets, lift. cbn. by rewrite Hc.
Qed.

Lemma returns_create_rectangle (r : rectangle) :
  returns (ppu_inv ok) (create_rectangle r) (fun _ => True).
Proof.
  apply returns_modify; [| done]. intros p [[] Hacc]. by split.
Qed.

Lemma returns_render_pixel (x y ty plane0 plane1 tx : Z) :
  tx <= 7 ->
  returns (ppu_inv ok) (render_pixel x y ty plane0 plane1 tx) (fun _ => True).
Proof.
  intros Htx. unfold render_pixel.
  pose proof (color_idx_range plane0 plane1 (7 - tx) ltac:(lia)) as Hr.
  apply returns_when; [done |]. intros Hpos%Z.ltb_lt.
  eapply returns_bind; [apply returns_palette_get; lia |].
  intros color _. apply returns_create_rectangle.
Qed.

Lemma returns_render_row (x y ty tile_addr : Z) :
  0 <= tile_addr <= 4094 ->
  returns (ppu_inv ok) (render_row x y ty tile_addr) (fun r => r = tile_addr + 2).
Proof.
  intros Ha. unfold render_row.
  eapply returns_bind; [apply returns_vram_get; cbn; lia |]. intros plane0 _.
  eapply returns_bind; [apply returns_vram_get; cbn; lia |]. intros plane1 _.
  eapply returns_bind.
  - apply returns_for_each. intros tx Htx%elem_of_range.
    apply returns_render_pixel. lia.
  - intros _ _. by apply returns_ret.
Qed.

(** The rows of a tile: each one reads two bytes and moves the cursor by
    two, so the rows [l] that remain need [2 * length l] bytes from
    [tile_addr] on. *)
Lemma returns_render_rows (x y : Z) (l : list Z) (tile_addr : Z) :
  0 <= tile_addr -> tile_addr + 2 * Z.of_nat (length l) <= 4096 ->
  returns (ppu_inv ok) (for_fold l tile_addr (render_row x y)) (fun _ => True).
Proof.
  revert tile_addr. induction l as [| ty l IH]; intros tile_addr H0 H1; cbn.
  - by apply returns_ret.
  - cbn in H1. eapply returns_bind; [apply returns_render_row; lia |].
    intros r ->. apply IH; lia.
Qed.

Lemma returns_render_tile (x y tile_idx : Z) :
  CPU.is_byte tile_idx ->
  returns (ppu_inv ok) (render_tile x y tile_idx) (fun _ => True).
Proof.
  intros [H0 H1]. unfold render_tile.
  eapply returns_bind.
  - apply returns_render_rows; [lia |].
    change (Z.of_nat (length (range 8))) with 8. lia.
  - intros _ _. by apply returns_ret.
Qed.

Lemma returns_render_frame :
  returns (ppu_inv ok) render_frame (fun _ => True).
Proof.
  unfold render_frame. eapply returns_bind with (Q := fun _ => True).
  - apply returns_modify; [| done]. intros p [[] Hacc]. by split.
  - intros _ _. apply returns_for_each. intros y Hy%elem_of_range2.
    apply returns_for_each. intros x Hx%elem_of_range2.
    eapply returns_bind; [apply returns_vram_get; cbn; lia |].
    intros tile_idx Hb. by apply returns_render_tile.
Qed.

End Renderer.

(** C9: whatever bytes the 32 KiB video memory holds (tile map and
    patterns alike), [render_frame] on a PPU with one of the program's
    palettes returns without raising, and every subscript it performed was in
    range: tile-map reads at offsets below 896, pattern reads at offsets up
    to 4095, palette lookups at an index in [1, 3]. *)
Theorem render_frame_in_range (p : PPU.state) :
  PPU.wf p -> PPU.accesses p = [] ->
  exists p',
    PPU.render_frame p = (p', Ret tt) /\
    Forall access_ok (PPU.accesses p') /\
    Forall (fun a => match a with
                     | PPU.TileMapRead i | PPU.PatternRead i =>
                         0 <= i < Z.of_nat (length (PPU.vram p'))
                     | PPU.PaletteRead i =>
                         0 <= i < Z.of_nat (length (PPU.palette p'))
                     end) (PPU.accesses p') /\
    PPU.wf p'.
Proof.
  intros Hwf Hacc.
  destruct (returns_render_frame access_ok (fun _ H => H) p)
    as (p' & [] & E & [Hwf' Hok] & _).
  { split; [done |]. rewrite Hacc. constructor. }
  exists p'. split; [done |]. split; [done |]. split; [| done].
  destruct Hwf' as [Hlen _ Hpal].
  eapply Forall_impl; [exact Hok |].
  intros [i | i | i]; cbn; lia.
Qed.

Lemma init_ppu_wf : PPU.wf PPU.init.
Proof.
  split.
  - apply bytearray_length. lia.
  - apply Forall_replicate. unfold CPU.is_byte. lia.
  - unfold PPU.init. cbn [PPU.palette]. rewrite length_replicate. lia.
Qed.

Lemma palette_ppu_wf : PPU.wf palette_ppu.
Proof. destruct init_ppu_wf. split; [assumption | assumption | cbn; lia]. Qed.

Lemma render_pixel_decodes_witness :
  PPU.wf palette_ppu /\ 0 <= 0 <= 7 /\
  let bit := 7 - 0 in
  let color_index := PPU.color_idx 0xAA 0x55 bit in
  color_index =
    Z.lor (Z.shiftl (Z.land (Z.shiftr 0x55 bit) 1) 1)
          (Z.land (Z.shiftr 0xAA bit) 1) /\
  color_index = 2 * Z.b2z (Z.testbit 0x55 bit) + Z.b2z (Z.testbit 0xAA bit) /\
  0 <= color_index <= 3 /\
  (color_index = 0 ->
   PPU.render_pixel 8 16 3 0xAA 0x55 0 palette_ppu = (palette_ppu, Ret tt)) /\
  (color_index <> 0 ->
   exists color,
     PPU.palette palette_ppu !! Z.to_nat color_index = Some color /\
     PPU.render_pixel 8 16 3 0xAA 0x55 0 palette_ppu =
     (PPU.mkState (PPU.vram palette_ppu) (PPU.palette palette_ppu)
        (PPU.mkRectangle (8 + 0) (16 + 3) (8 + 0 + 1) (16 + 3 + 1) color
           :: PPU.canvas palette_ppu)
        (PPU.PaletteRead color_index :: PPU.accesses palette_ppu),
      Ret tt)).
Proof.
  assert (0 <= 0 <= 7) as H by lia.
  split; [exact palette_ppu_wf |]. split; [exact H |].
  exact (render_pixel_decodes palette_ppu 8 16 3 0xAA 0x55 0 palette_ppu_wf H).
Defined.

(** The pixel of the witness: column 0 of the test pattern has color index
    1, so one red unit square is painted at (8, 19). *)
Example render_pixel_demo :
  let r := PPU.render_pixel 8 16 3 0xAA 0x55 0 palette_ppu in
  snd r = Ret tt /\
  PPU.canvas (fst r) = [PPU.mkRectangle 8 19 9 20 (255, 0, 0)] /\
  PPU.accesses (fst r) = [PPU.PaletteRead 1].
Proof. vm_compute. repeat split; reflexivity. Qed.

Lemma render_frame_in_range_witness :
  PPU.wf palette_ppu /\ PPU.accesses palette_ppu = [] /\
  exists p',
    PPU.render_frame palette_ppu = (p', Ret tt) /\
    Forall access_ok (PPU.accesses p') /\
    Forall (fun a => match a with
                     | PPU.TileMapRead i | PPU.PatternRead i =>
                         0 <= i < Z.of_nat (length (PPU.vram p'))
                     | PPU.PaletteRead i =>
                         0 <= i < Z.of_nat (length (PPU.palette p'))
                     end) (PPU.accesses p') /\
    PPU.wf p'.
Proof.
  assert (PPU.accesses palette_ppu = []) as H by (vm_compute; reflexivity).
  split; [exact palette_ppu_wf |]. split; [exact H |].
  exact (render_frame_in_range palette_ppu palette_ppu_wf H).
Defined.

(** What one frame of the demo reads: the 896 cells of the tile map, 16
    pattern bytes for each of them, and the palette once for each of the
    7168 pixels it paints. *)
Example render_frame_demo :
  let r := PPU.render_frame demo_ppu in
  let log := PPU.accesses (fst r) in
  snd r = Ret tt /\
  Z.of_nat (length (filter is_tile_map_read log)) = 896 /\
  Z.of_nat (length (filter is_pattern_read log)) = 896 * 16 /\
  Z.of_nat (length (filter is_palette_read log)) = 7168 /\
  Z.of_nat (length (PPU.canvas (fst r))) = 7168.
Proof. vm_compute. repeat split; reflexivity. Qed.

(** ** The frame scheduler *)

Lemma render_frame_returns (p : PPU.state) :
  PPU.wf p -> exists p', PPU.render_frame p = (p', Ret tt) /\ PPU.wf p'.
Proof.
  intros Hwf.
  destruct (returns_render_frame (fun _ => True) (fun _ _ => Logic.I) p)
    as (p' & [] & E & [Hwf' _] & _).
  { split; [done |]. apply Forall_forall. done. }
  by exists p'.
Qed.

Section Scheduler.
Import SNESEmulator.

Lemma run_frame_paused (fuel : nat) (e : state) :
  running e = false -> run_frame fuel e = (e, Ret tt).
Proof. intros H. unfold run_frame, bind, gets. by rewrite H. Qed.

(** A tick whose CPU loop and render pass return ends with the debug
    notification and one more queued callback. *)
Lemma run_frame_running (fuel : nat) (e e1 : state) (cycles : Z)
    (p : PPU.state) :
  running e = true ->
  while fuel loop_cond loop_body 0 e = (e1, Ret cycles) ->
  PPU.render_frame (ppu e1) = (p, Ret tt) ->
  run_frame fuel e = (frame_end p e1, Ret tt).
Proof.
  intros Hrun Hloop Hrender.
  unfold run_frame, bind at 1, gets. rewrite Hrun. cbn [negb].
  unfold bind at 1. rewrite Hloop.
  unfold ppu_render_frame, update_debug_info, root_after, emit, on_ppu,
    zoom, bind, modify. cbn. by rewrite Hrender.
Qed.

(** With the CPU halted the loop makes no iteration. *)
Lemma loop_halted (fuel : nat) (e : state) (cycles : Z) :
  CPU.running (cpu e) = false ->
  while (S fuel) loop_cond loop_body cycles e = (e, Ret cycles).
Proof.
  intros H. cbn [while]. unfold bind, loop_cond.
  destruct (cycles <? target_cycles); [| done].
  unfold gets. by rewrite H.
Qed.

(** With the budget used up the loop makes no iteration. *)
Lemma loop_budget_reached (fuel : nat) (e : state) (cycles : Z) :
  target_cycles <= cycles ->
  while (S fuel) loop_cond loop_body cycles e = (e, Ret cycles).
Proof.
  intros H. cbn [while]. unfold bind, loop_cond.
  by destruct (Z.ltb_spec cycles target_cycles); [lia |].
Qed.

(** One iteration of the loop, when [execute] returns. *)
Lemma loop_step (fuel : nat) (e : state) (cycles n : Z) (c : CPU.state) :
  cycles < target_cycles -> CPU.running (cpu e) = true ->
  CPU.execute (cpu e) = (c, Ret n) ->
  while (S fuel) loop_cond loop_body cycles e =
  while fuel loop_cond loop_body (cycles + n)
    (with_cpu c (with_events (Execute :: events e) e)).
Proof.
  intros Hlt Hrun Hexec. cbn [while]. unfold bind at 1, loop_cond.
  destruct (Z.ltb_spec cycles target_cycles); [| lia].
  unfold gets. rewrite Hrun.
  unfold loop_body, cpu_execute, emit, on_cpu, zoom, bind, modify, ret.
  cbn. by rewrite Hexec.
Qed.

Lemma nops_from_getitem (s : CPU.state) (n k : nat) :
  nops_from s n -> (k < n)%nat ->
  getitem (CPU.memory s) (CPU.PC s + Z.of_nat k) = Ret 0xEA.
Proof.
  intros [Hpc Hn] Hk. apply getitem_nonneg; [lia |].
  replace (Z.to_nat (CPU.PC s + Z.of_nat k))
    with (Z.to_nat (CPU.PC s) + k)%nat by lia.
  rewrite <- lookup_drop, <- (lookup_take_lt _ n) by done.
  rewrite Hn. by apply lookup_replicate_2.
Qed.

Lemma execute_NOP (s : CPU.state) :
  getitem (CPU.memory s) (CPU.PC s) = Ret 0xEA ->
  CPU.execute s =
  (CPU.with_clock_cycles (CPU.clock_cycles s + 2) (jump_to (CPU.PC s + 1) s),
   Ret 2).
Proof. intros H. by rewrite (execute_eq s 0xEA H). Qed.

Lemma execute_BRK (s : CPU.state) :
  getitem (CPU.memory s) (CPU.PC s) = Ret 0x00 ->
  CPU.execute s =
  (CPU.with_clock_cycles (CPU.clock_cycles s + 7)
     (CPU.with_running false (jump_to (CPU.PC s + 1) s)),
   Ret 7).
Proof. intros H. by rewrite (execute_eq s 0x00 H). Qed.

Lemma after_nops_0 (e : state) : after_nops 0 e = e.
Proof.
  destruct e as [[[] ? ? ?] ? ? ? ? ?]. unfold after_nops, jump_to.
  cbn -[Z.add]. by rewrite !Z.add_0_r.
Qed.

Lemma after_nops_S (k : nat) (e : state) :
  after_nops k
    (with_cpu (CPU.with_clock_cycles (CPU.clock_cycles (cpu e) + 2)
                 (jump_to (CPU.PC (cpu e) + 1) (cpu e)))
       (with_events (Execute :: events e) e)) =
  after_nops (S k) e.
Proof.
  destruct e as [[[] ? ? ?] ? ? ? ? ?]. unfold after_nops, jump_to.
  cbn -[Z.of_nat Z.add Z.mul replicate].
  replace (reg_PC + 1 + Z.of_nat k) with (reg_PC + Z.of_nat (S k)) by lia.
  replace (clock_cycles + 2 + 2 * Z.of_nat k)
    with (clock_cycles + 2 * Z.of_nat (S k)) by lia.
  by rewrite replicate_S_end, <- app_assoc.
Qed.

(** The loop over [k] NOPs, when [k] iterations are what it takes to
    reach the budget. *)
Lemma loop_nops (k : nat) :
  forall (fuel : nat) (cycles : Z) (e : state),
    (k < fuel)%nat ->
    CPU.running (cpu e) = true ->
    nops_from (cpu e) k ->
    target_cycles <= cycles + 2 * Z.of_nat k ->
    ((0 < k)%nat -> cycles + 2 * (Z.of_nat k - 1) < target_cycles) ->
    while fuel loop_cond loop_body cycles e =
    (after_nops k e, Ret (cycles + 2 * Z.of_nat k)).
Proof.
  induction k as [| k IH]; intros fuel cycles e Hfuel Hrun Hnops Hge Hlt;
    (destruct fuel as [| fuel]; [lia |]).
  - rewrite loop_budget_reached by lia. rewrite after_nops_0.
    by rewrite Z.add_0_r.
  - pose proof (nops_from_getitem _ _ 0 Hnops ltac:(lia)) as H0.
    rewrite Z.add_0_r in H0.
    rewrite (loop_step fuel e cycles 2 _ ltac:(lia) Hrun (execute_NOP _ H0)).
    rewrite IH.
    + rewrite after_nops_S. do 2 f_equal. lia.
    + lia.
    + done.
    + destruct Hnops as [Hpc Hn]. split; [cbn; lia |].
      change (CPU.PC (cpu (with_cpu _ _))) with (CPU.PC (cpu e) + 1).
      change (CPU.memory (cpu (with_cpu _ _))) with (CPU.memory (cpu e)).
      replace (Z.to_nat (CPU.PC (cpu e) + 1))
        with (Z.to_nat (CPU.PC (cpu e)) + 1)%nat by lia.
      rewrite <- drop_drop.
      destruct (drop (Z.to_nat (CPU.PC (cpu e))) (CPU.memory (cpu e)))
        as [| v l]; [done |].
      cbn in Hn. injection Hn as _ Hn. done.
    + lia.
    + intros. lia.
Qed.

End Scheduler.

(** C6: when the emulator is running, its CPU is not halted and the 682
    bytes from [PC] on are all NOP opcodes, one frame tick (with a loop
    bound of more than 682 iterations) returns after exactly 682 [execute]
    calls, each a NOP, followed by exactly one render pass, the debug
    notification and the scheduling of the next tick: the loop stops the
    first time the accumulated count, [2 * 682 = 1364], reaches the
    budget. *)
Theorem nop_frame_executes_682 (fuel : nat) (e : SNESEmulator.state) :
  SNESEmulator.running e = true ->
  CPU.running (SNESEmulator.cpu e) = true ->
  nops_from (SNESEmulator.cpu e) 682 ->
  PPU.wf (SNESEmulator.ppu e) ->
  (682 < fuel)%nat ->
  exists e',
    SNESEmulator.run_frame fuel e = (e', Ret tt) /\
    SNESEmulator.events e' =
      [SNESEmulator.After; SNESEmulator.UpdateDebugInfo;
       SNESEmulator.RenderFrame]
      ++ replicate 682 SNESEmulator.Execute ++ SNESEmulator.events e /\
    PPU.render_frame (SNESEmulator.ppu e) = (SNESEmulator.ppu e', Ret tt) /\
    CPU.PC (SNESEmulator.cpu e') = CPU.PC (SNESEmulator.cpu e) + 682 /\
    CPU.clock_cycles (SNESEmulator.cpu e') =
      CPU.clock_cycles (SNESEmulator.cpu e) + 1364 /\
    CPU.running (SNESEmulator.cpu e') = true /\
    CPU.memory (SNESEmulator.cpu e') = CPU.memory (SNESEmulator.cpu e) /\
    SNESEmulator.pending e' = S (SNESEmulator.pending e) /\
    SNESEmulator.running e' = true.
Proof.
  intros Hrun Hcpu Hnops Hppu Hfuel.
  destruct (render_frame_returns _ Hppu) as (p' & Hrender & _).
  exists (frame_end p' (after_nops 682 e)).
  split.
  - apply (run_frame_running fuel e _ (0 + 2 * Z.of_nat 682)); [done | | done].
    apply loop_nops; try done; unfold SNESEmulator.target_cycles; lia.
  - split; [reflexivity |]. split; [exact Hrender |].
    split; [reflexivity |]. split; [reflexivity |].
    split; [exact Hcpu |]. split; [reflexivity |]. split; [reflexivity |].
    exact Hrun.
Qed.

Lemma nop_frame_executes_682_witness :
  let e := nop_emulator in
  SNESEmulator.running e = true /\
  CPU.running (SNESEmulator.cpu e) = true /\
  nops_from (SNESEmulator.cpu e) 682 /\
  PPU.wf (SNESEmulator.ppu e) /\
  (682 < 683)%nat /\
  exists e',
    SNESEmulator.run_frame 683 e = (e', Ret tt) /\
    SNESEmulator.events e' =
      [SNESEmulator.After; SNESEmulator.UpdateDebugInfo;
       SNESEmulator.RenderFrame]
      ++ replicate 682 SNESEmulator.Execute ++ SNESEmulator.events e /\
    PPU.render_frame (SNESEmulator.ppu e) = (SNESEmulator.ppu e', Ret tt) /\
    CPU.PC (SNESEmulator.cpu e') = CPU.PC (SNESEmulator.cpu e) + 682 /\
    CPU.clock_cycles (SNESEmulator.cpu e') =
      CPU.clock_cycles (SNESEmulator.cpu e) + 1364 /\
    CPU.running (SNESEmulator.cpu e') = true /\
    CPU.memory (SNESEmulator.cpu e') = CPU.memory (SNESEmulator.cpu e) /\
    SNESEmulator.pending e' = S (SNESEmulator.pending e) /\
    SNESEmulator.running e' = true.
Proof.
  intros e.
  assert (SNESEmulator.running e = true) as H1 by reflexivity.
  assert (CPU.running (SNESEmulator.cpu e) = true) as H2 by reflexivity.
  assert (nops_from (SNESEmulator.cpu e) 682) as H3
    by (split; [vm_compute; discriminate | vm_compute; reflexivity]).
  assert (PPU.wf (SNESEmulator.ppu e)) as H4 by exact palette_ppu_wf.
  assert (682 < 683)%nat as H5 by lia.
  split; [exact H1 |]. split; [exact H2 |]. split; [exact H3 |].
  split; [exact H4 |]. split; [exact H5 |].
  exact (nop_frame_executes_682 683 e H1 H2 H3 H4 H5).
Defined.

(** ** Halting *)

Section Halting.
Import SNESEmulator.
Context (l : list event).

(** The methods of the scheduler only ever add to the event log. *)
Lemma ends_with_emit (ev : event) :
  preserves (ends_with l) (emit ev) (fun _ => True).
Proof.
  apply preserves_modify; [| done]. intros e [evs H].
  exists (ev :: evs). cbn. by rewrite H.
Qed.

Lemma ends_with_on_cpu {T : Type} (m : M CPU.state T) :
  preserves (ends_with l) (on_cpu m) (fun _ => True).
Proof. apply preserves_zoom. by intros e c [evs H]; exists evs. Qed.

Lemma ends_with_on_ppu {T : Type} (m : M PPU.state T) :
  preserves (ends_with l) (on_ppu m) (fun _ => True).
Proof. apply preserves_zoom. by intros e c [evs H]; exists evs. Qed.

Lemma ends_with_cpu_execute :
  preserves (ends_with l) cpu_execute (fun _ => True).
Proof.
  unfold cpu_execute. eapply preserves_bind; [apply ends_with_emit |].
  intros _ _. apply ends_with_on_cpu.
Qed.

Lemma ends_with_loop (fuel : nat) (cycles : Z) :
  preserves (ends_with l) (while fuel loop_cond loop_body cycles)
    (fun _ => True).
Proof.
  apply preserves_while.
  - intros v. unfold loop_cond. destruct (v <? target_cycles).
    + by apply preserves_gets.
    + by apply preserves_ret.
  - intros v. unfold loop_body.
    eapply preserves_bind; [apply ends_with_cpu_execute |].
    intros n _. by apply preserves_ret.
Qed.

Lemma ends_with_frame_tail :
  preserves (ends_with l)
    (ppu_render_frame ;; update_debug_info ;; root_after) (fun _ => True).
Proof.
  eapply preserves_bind with (Q := fun _ => True).
  { unfold ppu_render_frame.
    eapply preserves_bind; [apply ends_with_emit |].
    intros _ _. apply ends_with_on_ppu. }
  intros _ _. eapply preserves_bind; [apply ends_with_emit |].
  intros _ _. unfold root_after.
  eapply preserves_bind; [apply ends_with_emit |].
  intros _ _. apply preserves_modify; [| done].
  by intros e [evs H]; exists evs.
Qed.

Lemma ends_with_status_config (t : string) :
  preserves (ends_with l) (status_config t) (fun _ => True).
Proof.
  apply preserves_modify; [| done]. by intros e [evs H]; exists evs.
Qed.

End Halting.

Section Restart.
Import SNESEmulator.

Lemma start_running (fuel : nat) (e : state) :
  running e = true -> start fuel e = (e, Ret tt).
Proof. intros H. unfold start, bind, gets. by rewrite H. Qed.

Lemma start_paused (fuel : nat) (e : state) :
  running e = false ->
  start fuel e =
  (run_frame fuel ;; status_config "Running")
    (with_cpu (CPU.with_running true (cpu e)) (with_running true e)).
Proof. intros H. unfold start, bind at 1, gets. by rewrite H. Qed.

(** A frame tick of a running emulator whose CPU is not halted issues an
    [execute] call first. *)
Lemma run_frame_executes (fuel : nat) (e : state) :
  running e = true -> CPU.running (cpu e) = true ->
  ends_with (Execute :: events e) (fst (run_frame (S fuel) e)).
Proof.
  intros Hrun Hcpu. unfold run_frame, bind at 1, gets. rewrite Hrun.
  cbn [negb].
  apply preserves_after; [| intros _; apply ends_with_frame_tail].
  cbn [while]. unfold bind at 1, loop_cond, gets. cbn. rewrite Hcpu.
  apply preserves_after; [| intros v; apply ends_with_loop].
  unfold loop_body.
  apply preserves_after; [| intros n; by apply preserves_ret].
  unfold cpu_execute, emit, bind at 1, modify.
  apply ends_with_on_cpu. by exists [].
Qed.

Lemma start_paused_executes (fuel : nat) (e : state) :
  running e = false ->
  ends_with (Execute :: events e) (fst (start (S fuel) e)).
Proof.
  intros H. rewrite (start_paused _ e H).
  apply preserves_after; [| intros _; apply ends_with_status_config].
  by apply (run_frame_executes fuel
              (with_cpu (CPU.with_running true (cpu e))
                 (with_running true e))).
Qed.

Lemma run_frame_halted (fuel : nat) (e : state) (p : PPU.state) :
  running e = true -> CPU.running (cpu e) = false ->
  PPU.render_frame (ppu e) = (p, Ret tt) ->
  run_frame (S fuel) e = (frame_end p e, Ret tt).
Proof.
  intros Hrun Hcpu Hrender.
  by apply (run_frame_running _ e e 0); [| apply loop_halted |].
Qed.

End Restart.

(** C4, as the code has it: [BRK] halts the CPU ([running = false]) and
    costs 7 cycles.  While the CPU stays halted and the emulator is not
    paused, a frame tick issues no [execute] call, but it still renders once
    and schedules the next tick.  [start] is a no-op while the emulator's own
    run flag is set, so it does not clear the halt then; on a paused
    emulator, however, [start] sets the CPU's run flag again and its frame
    tick issues [execute], with no reset in between. *)
Theorem brk_halts_until_restart (fuel : nat) (s : CPU.state)
    (e e_paused : SNESEmulator.state) :
  getitem (CPU.memory s) (CPU.PC s) = Ret 0x00 ->
  SNESEmulator.running e = true ->
  CPU.running (SNESEmulator.cpu e) = false ->
  PPU.wf (SNESEmulator.ppu e) ->
  SNESEmulator.running e_paused = false ->
  (exists s',
     CPU.execute s = (s', Ret 7) /\ CPU.running s' = false /\
     CPU.clock_cycles s' = CPU.clock_cycles s + 7 /\
     CPU.PC s' = CPU.PC s + 1 /\ CPU.memory s' = CPU.memory s) /\
  (exists e',
     SNESEmulator.run_frame (S fuel) e = (e', Ret tt) /\
     SNESEmulator.events e' =
       [SNESEmulator.After; SNESEmulator.UpdateDebugInfo;
        SNESEmulator.RenderFrame] ++ SNESEmulator.events e /\
     SNESEmulator.cpu e' = SNESEmulator.cpu e /\
     SNESEmulator.pending e' = S (SNESEmulator.pending e) /\
     SNESEmulator.running e' = true) /\
  SNESEmulator.start (S fuel) e = (e, Ret tt) /\
  (exists evs,
     SNESEmulator.events (fst (SNESEmulator.start (S fuel) e_paused)) =
     evs ++ SNESEmulator.Execute :: SNESEmulator.events e_paused).
Proof.
  intros Hbrk Hrun Hhalt Hppu Hpaused.
  split; [| split; [| split]].
  - eexists. split; [by apply execute_BRK |]. by repeat split.
  - destruct (render_frame_returns _ Hppu) as (p & Hrender & _).
    exists (frame_end p e).
    split; [by apply run_frame_halted |]. by repeat split.
  - by apply start_running.
  - by apply start_paused_executes.
Qed.

Lemma brk_halts_until_restart_witness :
  getitem (CPU.memory CPU.init) (CPU.PC CPU.init) = Ret 0x00 /\
  SNESEmulator.running halted_emulator = true /\
  CPU.running (SNESEmulator.cpu halted_emulator) = false /\
  PPU.wf (SNESEmulator.ppu halted_emulator) /\
  SNESEmulator.running paused_emulator = false /\
  (exists s',
     CPU.execute CPU.init = (s', Ret 7) /\ CPU.running s' = false /\
     CPU.clock_cycles s' = CPU.clock_cycles CPU.init + 7 /\
     CPU.PC s' = CPU.PC CPU.init + 1 /\
     CPU.memory s' = CPU.memory CPU.init) /\
  (exists e',
     SNESEmulator.run_frame 1 halted_emulator = (e', Ret tt) /\
     SNESEmulator.events e' =
       [SNESEmulator.After; SNESEmulator.UpdateDebugInfo;
        SNESEmulator.RenderFrame] ++ SNESEmulator.events halted_emulator /\
     SNESEmulator.cpu e' = SNESEmulator.cpu halted_emulator /\
     SNESEmulator.pending e' = S (SNESEmulator.pending halted_emulator) /\
     SNESEmulator.running e' = true) /\
  SNESEmulator.start 1 halted_emulator = (halted_emulator, Ret tt) /\
  (exists evs,
     SNESEmulator.events (fst (SNESEmulator.start 1 paused_emulator)) =
     evs ++ SNESEmulator.Execute :: SNESEmulator.events paused_emulator).
Proof.
  assert (getitem (CPU.memory CPU.init) (CPU.PC CPU.init) = Ret 0x00) as H1
    by (vm_compute; reflexivity).
  assert (SNESEmulator.running halted_emulator = true) as H2 by reflexivity.
  assert (CPU.running (SNESEmulator.cpu halted_emulator) = false) as H3
    by (vm_compute; reflexivity).
  assert (PPU.wf (SNESEmulator.ppu halted_emulator)) as H4
    by exact palette_ppu_wf.
  assert (SNESEmulator.running paused_emulator = false) as H5 by reflexivity.
  split; [exact H1 |]. split; [exact H2 |]. split; [exact H3 |].
  split; [exact H4 |]. split; [exact H5 |].
  exact (brk_halts_until_restart 0 CPU.init halted_emulator paused_emulator
           H1 H2 H3 H4 H5).
Defined.

(** C4, as it is stated, fails.  The emulator is constructed, its ROM is
    closed (which leaves a fresh CPU, all of whose memory is [0x00]) and it
    is started.  The first frame tick executes the [BRK] at [0x8000]: the
    CPU halts after 7 cycles.  Yet that very tick schedules the next one
    ([pending = 1]), and the next tick, which issues no [execute], schedules
    another.  And after [stop], a plain [start], with no reset, clears the
    halt: its tick issues [execute] again, which runs the [BRK] at
    [0x8001]. *)
Lemma halt_is_rescheduled_and_cleared_by_start :
  let r0 := SNESEmulator.close_rom (fst SNESEmulator.init) in
  let r1 := SNESEmulator.start 8 (fst r0) in
  let r2 := SNESEmulator.tick 8 (fst r1) in
  let r3 := SNESEmulator.stop (fst r2) in
  let r4 := SNESEmulator.start 8 (fst r3) in
  let e1 := fst r1 in
  let e2 := fst r2 in
  let e4 := fst r4 in
  (snd SNESEmulator.init = Ret tt /\ snd r0 = Ret tt /\ snd r1 = Ret tt /\
   snd r2 = Ret tt /\ snd r3 = Ret tt /\ snd r4 = Ret tt) /\
  (CPU.running (SNESEmulator.cpu e1) = false /\
   CPU.clock_cycles (SNESEmulator.cpu e1) = 7 /\
   CPU.PC (SNESEmulator.cpu e1) = 0x8001 /\
   SNESEmulator.pending e1 = 1%nat /\
   SNESEmulator.events e1 =
     [SNESEmulator.After; SNESEmulator.UpdateDebugInfo;
      SNESEmulator.RenderFrame; SNESEmulator.Execute;
      SNESEmulator.UpdateDebugInfo; SNESEmulator.UpdateDebugInfo]) /\
  (CPU.running (SNESEmulator.cpu e2) = false /\
   SNESEmulator.pending e2 = 1%nat /\
   SNESEmulator.events e2 =
     [SNESEmulator.After; SNESEmulator.UpdateDebugInfo;
      SNESEmulator.RenderFrame] ++ SNESEmulator.events e1) /\
  (CPU.clock_cycles (SNESEmulator.cpu e4) = 14 /\
   CPU.PC (SNESEmulator.cpu e4) = 0x8002 /\
   SNESEmulator.pending e4 = 2%nat /\
   SNESEmulator.events e4 =
     [SNESEmulator.After; SNESEmulator.UpdateDebugInfo;
      SNESEmulator.RenderFrame; SNESEmulator.Execute]
     ++ SNESEmulator.events e2).
Proof. vm_compute. repeat split; reflexivity. Qed.

(** ** The CPU loop of a frame tick terminates *)

Section Termination.
Import SNESEmulator.

(** A tactic for the methods, which are binds of primitive steps. *)
Ltac fuel_free_steps :=
  repeat first
    [ apply fuel_free_ret
    | apply fuel_free_gets
    | apply fuel_free_modify
    | apply fuel_free_lift; first [apply getitem_fuel_free | apply setitem_fuel_free]
    | apply fuel_free_when
    | apply fuel_free_bind; [| intros ?] ].

Lemma fuel_free_fetch_byte : fuel_free CPU.fetch_byte.
Proof. unfold CPU.fetch_byte, CPU.mem_get. fuel_free_steps. Qed.

Lemma fuel_free_handler (opcode : Z) (handler : M CPU.state Z) :
  CPU.dict_get CPU.opcodes opcode = Some handler -> fuel_free handler.
Proof.
  intros E.
  pose proof fuel_free_fetch_byte as Hf.
  apply dict_get_opcodes in E
    as [[_ ->] | [[_ ->] | [[_ ->] | [[_ ->] | [[_ ->] | [_ ->]]]]]];
    unfold CPU.LDA_immediate, CPU.LDA_absolute, CPU.STA_absolute,
      CPU.JMP_absolute, CPU.NOP, CPU.BRK, CPU.fetch_addr, CPU.update_flags,
      CPU.read_byte, CPU.write_byte, CPU.mem_get, CPU.mem_set;
    fuel_free_steps; exact Hf.
Qed.

Lemma fuel_free_execute : fuel_free CPU.execute.
Proof.
  unfold CPU.execute. apply fuel_free_bind; [apply fuel_free_fetch_byte |].
  intros opcode. destruct (CPU.dict_get CPU.opcodes opcode) eqn:E.
  - apply fuel_free_bind; [by eapply fuel_free_handler |].
    intros cycles. fuel_free_steps.
  - apply fuel_free_ret.
Qed.

(** What an [execute] that returns has cost: nothing, when the opcode is
    unknown, and then [PC] has moved by one within the memory; or at least
    2 cycles. *)
Lemma execute_cost (s s' : CPU.state) (n : Z) :
  cpu_inv s -> CPU.execute s = (s', Ret n) ->
  (n = 0 /\ CPU.PC s' = CPU.PC s + 1 /\ - 0x10000 <= CPU.PC s <= 0xFFFF) \/
  2 <= n.
Proof.
  intros Hs H.
  destruct (wf_getitem_cases s (CPU.PC s) (proj1 Hs))
    as [[Hr (opcode & _ & Hop)] | [_ He]].
  2: { rewrite (execute_Raise s _ He) in H. done. }
  rewrite (execute_eq s opcode Hop) in H.
  destruct (CPU.dict_get CPU.opcodes opcode) as [handler |] eqn:E.
  - right. unfold bind at 1 in H.
    assert (cpu_inv (jump_to (CPU.PC s + 1) s)) as Hs'
      by (destruct Hs as [[] []]; by split).
    destruct (cpu_inv_handler opcode handler E _ Hs') as [_ Hc].
    destruct (handler (jump_to (CPU.PC s + 1) s)) as [s1 [c | e |]];
      [| done | done].
    specialize (Hc c eq_refl). cbn in H. injection H as _ <-. lia.
  - left. injection H as <- <-. done.
Qed.

Lemma loop_terminates (m : nat) :
  forall (cycles : Z) (e : state),
    cpu_inv (cpu e) ->
    (loop_measure cycles (CPU.PC (cpu e)) <= m)%nat ->
    snd (while (S m) loop_cond loop_body cycles e) <> OutOfFuel.
Proof.
  induction m as [| m IH]; intros cycles e Hinv Hm; cbn [while];
    unfold bind at 1, loop_cond.
  all: destruct (Z.ltb_spec cycles target_cycles) as [Hlt | Hge]; [| done].
  all: unfold gets; destruct (CPU.running (cpu e)); [| done].
  all: unfold loop_body, cpu_execute, emit, on_cpu, zoom, bind, modify, ret.
  all: cbn [cpu with_events fst snd].
  all: pose proof (fuel_free_execute (cpu e)) as Hff.
  all: pose proof (proj1 (cpu_inv_execute (cpu e) Hinv)) as Hinv'.
  all: destruct (CPU.execute (cpu e)) as [c [n | ex |]] eqn:E;
         [| done | done].
  all: apply (execute_cost _ _ _ Hinv) in E.
  all: unfold loop_measure, target_cycles in *; cbn [fst] in Hinv'.
  - exfalso. destruct E as [(-> & Hpc & Hr) | Hn]; lia.
  - apply (IH (cycles + n)
             (with_cpu c (with_events (Execute :: events e) e)));
      [done |].
    change (CPU.PC (cpu (with_cpu c _))) with (CPU.PC c).
    unfold loop_measure, target_cycles.
    destruct E as [(-> & Hpc & Hr) | Hn]; lia.
Qed.

(** Whatever program the CPU holds, the loop of a frame tick comes to an
    end: with enough fuel the model of [run_frame] never answers
    [OutOfFuel].  (It returns, or raises the [IndexError] of a fetch or an
    access outside the memory.) *)
Lemma run_frame_terminates (e : state) :
  cpu_inv (cpu e) ->
  exists fuel0, forall fuel, (fuel0 <= fuel)%nat ->
    snd (run_frame fuel e) <> OutOfFuel.
Proof.
  intros Hinv. exists (S (loop_measure 0 (CPU.PC (cpu e)))).
  intros [| fuel] Hfuel; [lia |].
  pose proof (loop_terminates fuel 0 e Hinv ltac:(lia)) as Hloop.
  unfold run_frame, bind at 1, gets. destruct (running e); [| done].
  cbn [negb]. unfold bind at 1.
  destruct (while (S fuel) loop_cond loop_body 0 e) as [e1 [c | ex |]];
    [| done | done].
  assert (fuel_free (ppu_render_frame ;; update_debug_info ;; root_after))
    as Hff; [| apply Hff].
  unfold ppu_render_frame, update_debug_info, root_after, emit, on_ppu.
  fuel_free_steps.
  apply fuel_free_zoom.
  unfold PPU.render_frame, PPU.canvas_delete_all.
  apply fuel_free_bind; [apply fuel_free_modify | intros _].
  apply fuel_free_for_each. intros y. apply fuel_free_for_each. intros x.
  apply fuel_free_bind;
    [unfold PPU.vram_get, PPU.log; fuel_free_steps | intros tile_idx].
  unfold PPU.render_tile.
  apply fuel_free_bind; [| intros _; apply fuel_free_ret].
  apply fuel_free_for_fold. intros ty a. unfold PPU.render_row.
  apply fuel_free_bind;
    [unfold PPU.vram_get, PPU.log; fuel_free_steps | intros plane0].
  apply fuel_free_bind;
    [unfold PPU.vram_get, PPU.log; fuel_free_steps | intros plane1].
  apply fuel_free_bind; [| intros _; apply fuel_free_ret].
  apply fuel_free_for_each. intros tx.
  unfold PPU.render_pixel, PPU.palette_get, PPU.log, PPU.create_rectangle.
  fuel_free_steps.
Qed.

End Termination.

(** * Further properties of the code *)

(** ** What the instructions do *)

Lemma fetch_byte_cases (s : CPU.state) :
  CPU.wf s ->
  (- 0x10000 <= CPU.PC s <= 0xFFFF /\
   exists v, CPU.is_byte v /\ getitem (CPU.memory s) (CPU.PC s) = Ret v /\
             CPU.fetch_byte s = (jump_to (CPU.PC s + 1) s, Ret v)) \/
  ((CPU.PC s < - 0x10000 \/ 0xFFFF < CPU.PC s) /\
   getitem (CPU.memory s) (CPU.PC s) = Raise IndexError /\
   CPU.fetch_byte s = (s, Raise IndexError)).
Proof.
  intros Hwf.
  destruct (wf_getitem_cases s (CPU.PC s) Hwf)
    as [[Hr (v & Bv & Hv)] | [Hr He]].
  - left. split; [done |]. exists v. split; [done |]. split; [done |].
    by apply fetch_byte_Ret.
  - right. split; [done |]. split; [done |]. by apply fetch_byte_Raise.
Qed.

Lemma execute_LDA_immediate_eq (s : CPU.state) (v : Z) :
  getitem (CPU.memory s) (CPU.PC s) = Ret 0xA9 ->
  getitem (CPU.memory s) (CPU.PC s + 1) = Ret v ->
  CPU.execute s =
  (CPU.mkState
     (CPU.mkRegisters v (CPU.X s) (CPU.Y s) (CPU.PC s + 1 + 1) (CPU.SP s)
        (flags v (CPU.P s)))
     (CPU.memory s) (CPU.clock_cycles s + 2) (CPU.running s),
   Ret 2).
Proof.
  intros Hop Hv. rewrite (execute_eq s 0xA9 Hop).
  change (CPU.dict_get CPU.opcodes 0xA9) with (Some CPU.LDA_immediate).
  unfold bind at 1, CPU.LDA_immediate, bind at 1.
  rewrite (fetch_byte_Ret (jump_to (CPU.PC s + 1) s) v Hv).
  unfold bind at 1, modify at 1. unfold bind at 1.
  rewrite update_flags_eq. reflexivity.
Qed.

(** LDA immediate: [A9 v] loads [v] into [A], sets Zero iff [v = 0] and
    Negative iff bit 7 of [v] is set, moves [PC] by two, counts 2 cycles,
    and touches nothing else. *)
Theorem execute_LDA_immediate (s : CPU.state) (v : Z) :
  getitem (CPU.memory s) (CPU.PC s) = Ret 0xA9 ->
  getitem (CPU.memory s) (CPU.PC s + 1) = Ret v ->
  exists s',
    CPU.execute s = (s', Ret 2) /\
    CPU.A s' = v /\ CPU.PC s' = CPU.PC s + 2 /\
    Z.testbit (CPU.P s') 1 = (v =? 0) /\
    Z.testbit (CPU.P s') 7 = Z.testbit v 7 /\
    CPU.X s' = CPU.X s /\ CPU.Y s' = CPU.Y s /\ CPU.SP s' = CPU.SP s /\
    CPU.memory s' = CPU.memory s /\
    CPU.clock_cycles s' = CPU.clock_cycles s + 2 /\
    CPU.running s' = CPU.running s.
Proof.
  intros Hop Hv. eexists. split; [by apply execute_LDA_immediate_eq |].
  split; [reflexivity |]. split; [cbn; lia |].
  split; [apply flags_bit1 |].
  split; [exact (eq_trans (flags_bit7 v _) (land_0x80_testbit v)) |].
  by repeat split.
Qed.

Lemma execute_LDA_immediate_witness :
  let s := load 0x8000 [0xA9; 0x80] CPU.init in
  getitem (CPU.memory s) (CPU.PC s) = Ret 0xA9 /\
  getitem (CPU.memory s) (CPU.PC s + 1) = Ret 0x80 /\
  exists s',
    CPU.execute s = (s', Ret 2) /\
    CPU.A s' = 0x80 /\ CPU.PC s' = CPU.PC s + 2 /\
    Z.testbit (CPU.P s') 1 = (0x80 =? 0) /\
    Z.testbit (CPU.P s') 7 = Z.testbit 0x80 7 /\
    CPU.X s' = CPU.X s /\ CPU.Y s' = CPU.Y s /\ CPU.SP s' = CPU.SP s /\
    CPU.memory s' = CPU.memory s /\
    CPU.clock_cycles s' = CPU.clock_cycles s + 2 /\
    CPU.running s' = CPU.running s.
Proof.
  intros s.
  assert (getitem (CPU.memory s) (CPU.PC s) = Ret 0xA9) as H1
    by (vm_compute; reflexivity).
  assert (getitem (CPU.memory s) (CPU.PC s + 1) = Ret 0x80) as H2
    by (vm_compute; reflexivity).
  split; [exact H1 |]. split; [exact H2 |].
  exact (execute_LDA_immediate s 0x80 H1 H2).
Defined.

Lemma land_0xFF_byte (v : Z) : CPU.is_byte v -> Z.land v 0xFF = v.
Proof.
  intros [H0 H1]. change 0xFF with (Z.ones 8). rewrite Z.land_ones by lia.
  apply Z.mod_small. change (2 ^ 8) with 256. lia.
Qed.

Lemma execute_LDA_absolute_eq (s : CPU.state) (lo hi v : Z) :
  CPU.is_byte lo ->
  getitem (CPU.memory s) (CPU.PC s) = Ret 0xAD ->
  getitem (CPU.memory s) (CPU.PC s + 1) = Ret lo ->
  getitem (CPU.memory s) (CPU.PC s + 1 + 1) = Ret hi ->
  getitem (CPU.memory s) (lo + 256 * hi) = Ret v ->
  CPU.execute s =
  (CPU.mkState
     (CPU.mkRegisters v (CPU.X s) (CPU.Y s) (CPU.PC s + 1 + 1 + 1) (CPU.SP s)
        (flags v (CPU.P s)))
     (CPU.memory s) (CPU.clock_cycles s + 4) (CPU.running s),
   Ret 4).
Proof.
  intros Blo Hop Hlo Hhi Hv. rewrite (execute_eq s 0xAD Hop).
  change (CPU.dict_get CPU.opcodes 0xAD) with (Some CPU.LDA_absolute).
  unfold bind at 1, CPU.LDA_absolute, bind at 1.
  rewrite (fetch_addr_eq (jump_to (CPU.PC s + 1) s) lo hi Hlo Hhi).
  rewrite word_of_bytes' by done.
  unfold bind at 1, CPU.read_byte. rewrite mem_get_eq.
  change (CPU.memory (jump_to _ (jump_to _ s))) with (CPU.memory s).
  rewrite Hv. unfold bind at 1, modify at 1. unfold bind at 1.
  rewrite update_flags_eq. reflexivity.
Qed.

(** LDA absolute: [AD lo hi] loads the byte at address [lo + 256 * hi]
    into [A], sets the two flags from it, moves [PC] by three, counts 4
    cycles, and touches nothing else.  On a well-formed CPU the address is
    always within the memory, so the load itself cannot raise. *)
Theorem execute_LDA_absolute (s : CPU.state) (lo hi : Z) :
  CPU.wf s ->
  getitem (CPU.memory s) (CPU.PC s) = Ret 0xAD ->
  getitem (CPU.memory s) (CPU.PC s + 1) = Ret lo ->
  getitem (CPU.memory s) (CPU.PC s + 2) = Ret hi ->
  exists v s',
    CPU.memory s !! Z.to_nat (lo + 256 * hi) = Some v /\
    CPU.execute s = (s', Ret 4) /\
    CPU.A s' = v /\ CPU.PC s' = CPU.PC s + 3 /\
    Z.testbit (CPU.P s') 1 = (v =? 0) /\
    Z.testbit (CPU.P s') 7 = Z.testbit v 7 /\
    CPU.X s' = CPU.X s /\ CPU.Y s' = CPU.Y s /\ CPU.SP s' = CPU.SP s /\
    CPU.memory s' = CPU.memory s /\
    CPU.clock_cycles s' = CPU.clock_cycles s + 4 /\
    CPU.running s' = CPU.running s.
Proof.
  intros Hwf Hop Hlo Hhi.
  pose proof (getitem_is_byte s _ lo Hwf Hlo) as Blo.
  pose proof (getitem_is_byte s _ hi Hwf Hhi) as Bhi.
  pose proof (word_of_bytes_range lo hi Blo Bhi) as Hr.
  destruct (wf_getitem s (lo + 256 * hi) Hwf Hr) as (v & Hl & _ & Hv).
  replace (CPU.PC s + 2) with (CPU.PC s + 1 + 1) in Hhi by lia.
  exists v. eexists. split; [done |].
  split; [by apply (execute_LDA_absolute_eq s lo hi v) |].
  split; [reflexivity |]. split; [cbn; lia |].
  split; [apply flags_bit1 |].
  split; [exact (eq_trans (flags_bit7 v _) (land_0x80_testbit v)) |].
  by repeat split.
Qed.

Lemma execute_LDA_absolute_witness :
  let s := load 0x8000 [0xAD; 0x00; 0x80] CPU.init in
  CPU.wf s /\
  getitem (CPU.memory s) (CPU.PC s) = Ret 0xAD /\
  getitem (CPU.memory s) (CPU.PC s + 1) = Ret 0x00 /\
  getitem (CPU.memory s) (CPU.PC s + 2) = Ret 0x80 /\
  exists v s',
    CPU.memory s !! Z.to_nat (0x00 + 256 * 0x80) = Some v /\
    CPU.execute s = (s', Ret 4) /\
    CPU.A s' = v /\ CPU.PC s' = CPU.PC s + 3 /\
    Z.testbit (CPU.P s') 1 = (v =? 0) /\
    Z.testbit (CPU.P s') 7 = Z.testbit v 7 /\
    CPU.X s' = CPU.X s /\ CPU.Y s' = CPU.Y s /\ CPU.SP s' = CPU.SP s /\
    CPU.memory s' = CPU.memory s /\
    CPU.clock_cycles s' = CPU.clock_cycles s + 4 /\
    CPU.running s' = CPU.running s.
Proof.
  intros s.
  assert (CPU.wf s) as H0 by (apply cpu_inv_load, cpu_inv_init).
  assert (getitem (CPU.memory s) (CPU.PC s) = Ret 0xAD) as H1
    by (vm_compute; reflexivity).
  assert (getitem (CPU.memory s) (CPU.PC s + 1) = Ret 0x00) as H2
    by (vm_compute; reflexivity).
  assert (getitem (CPU.memory s) (CPU.PC s + 2) = Ret 0x80) as H3
    by (vm_compute; reflexivity).
  split; [exact H0 |]. split; [exact H1 |]. split; [exact H2 |].
  split; [exact H3 |].
  exact (execute_LDA_absolute s 0x00 0x80 H0 H1 H2 H3).
Defined.

Lemma execute_STA_absolute_eq (s : CPU.state) (lo hi : Z) (n : nat) :
  CPU.is_byte lo ->
  getitem (CPU.memory s) (CPU.PC s) = Ret 0x8D ->
  getitem (CPU.memory s) (CPU.PC s + 1) = Ret lo ->
  getitem (CPU.memory s) (CPU.PC s + 1 + 1) = Ret hi ->
  py_index (CPU.memory s) (lo + 256 * hi) = Some n ->
  CPU.execute s =
  (CPU.mkState
     (CPU.mkRegisters (CPU.A s) (CPU.X s) (CPU.Y s) (CPU.PC s + 1 + 1 + 1)
        (CPU.SP s) (CPU.P s))
     (<[n := Z.land (CPU.A s) 0xFF]> (CPU.memory s))
     (CPU.clock_cycles s + 4) (CPU.running s),
   Ret 4).
Proof.
  intros Blo Hop Hlo Hhi Hn. rewrite (execute_eq s 0x8D Hop).
  change (CPU.dict_get CPU.opcodes 0x8D) with (Some CPU.STA_absolute).
  unfold bind at 1, CPU.STA_absolute, bind at 1.
  rewrite (fetch_addr_eq (jump_to (CPU.PC s + 1) s) lo hi Hlo Hhi).
  rewrite word_of_bytes' by done.
  unfold bind at 1, gets at 1. unfold bind at 1.
  rewrite (write_byte_eq _ _ _ n); [reflexivity | exact Hn].
Qed.

(** STA absolute: [8D lo hi] stores [A] (its low eight bits, which is all
    of it when [A] is a byte) in the cell at address [lo + 256 * hi] and in
    no other cell, moves [PC] by three, counts 4 cycles, and leaves every
    register but [PC], the flags included, as it was.  On a well-formed CPU
    the address is always within the memory, so the store cannot raise. *)
Theorem execute_STA_absolute (s : CPU.state) (lo hi : Z) :
  CPU.wf s -> CPU.is_byte (CPU.A s) ->
  getitem (CPU.memory s) (CPU.PC s) = Ret 0x8D ->
  getitem (CPU.memory s) (CPU.PC s + 1) = Ret lo ->
  getitem (CPU.memory s) (CPU.PC s + 2) = Ret hi ->
  exists s',
    CPU.execute s = (s', Ret 4) /\
    CPU.memory s' = <[Z.to_nat (lo + 256 * hi) := CPU.A s]> (CPU.memory s) /\
    CPU.memory s' !! Z.to_nat (lo + 256 * hi) = Some (CPU.A s) /\
    (forall k, k <> Z.to_nat (lo + 256 * hi) ->
       CPU.memory s' !! k = CPU.memory s !! k) /\
    CPU.PC s' = CPU.PC s + 3 /\
    CPU.A s' = CPU.A s /\ CPU.P s' = CPU.P s /\
    CPU.X s' = CPU.X s /\ CPU.Y s' = CPU.Y s /\ CPU.SP s' = CPU.SP s /\
    CPU.clock_cycles s' = CPU.clock_cycles s + 4 /\
    CPU.running s' = CPU.running s.
Proof.
  intros Hwf HA Hop Hlo Hhi.
  pose proof (getitem_is_byte s _ lo Hwf Hlo) as Blo.
  pose proof (getitem_is_byte s _ hi Hwf Hhi) as Bhi.
  pose proof (word_of_bytes_range lo hi Blo Bhi) as Hr.
  pose proof (CPU.wf_length s Hwf) as Hlen.
  replace (CPU.PC s + 2) with (CPU.PC s + 1 + 1) in Hhi by lia.
  eexists. split.
  { apply (execute_STA_absolute_eq s lo hi (Z.to_nat (lo + 256 * hi)));
      try done.
    apply py_index_nonneg. lia. }
  cbn [CPU.memory CPU.A CPU.P CPU.X CPU.Y CPU.SP CPU.PC CPU.regs
       CPU.clock_cycles CPU.running CPU.reg_A CPU.reg_P CPU.reg_X CPU.reg_Y
       CPU.reg_SP CPU.reg_PC].
  rewrite (land_0xFF_byte _ HA).
  split; [reflexivity |].
  split; [apply list_lookup_insert_eq; lia |].
  split; [intros k Hk; by apply list_lookup_insert_ne |].
  split; [lia |]. by repeat split.
Qed.

Lemma execute_STA_absolute_witness :
  let s := load 0x8000 [0x8D; 0x00; 0x03] CPU.init in
  CPU.wf s /\ CPU.is_byte (CPU.A s) /\
  getitem (CPU.memory s) (CPU.PC s) = Ret 0x8D /\
  getitem (CPU.memory s) (CPU.PC s + 1) = Ret 0x00 /\
  getitem (CPU.memory s) (CPU.PC s + 2) = Ret 0x03 /\
  exists s',
    CPU.execute s = (s', Ret 4) /\
    CPU.memory s' =
      <[Z.to_nat (0x00 + 256 * 0x03) := CPU.A s]> (CPU.memory s) /\
    CPU.memory s' !! Z.to_nat (0x00 + 256 * 0x03) = Some (CPU.A s) /\
    (forall k, k <> Z.to_nat (0x00 + 256 * 0x03) ->
       CPU.memory s' !! k = CPU.memory s !! k) /\
    CPU.PC s' = CPU.PC s + 3 /\
    CPU.A s' = CPU.A s /\ CPU.P s' = CPU.P s /\
    CPU.X s' = CPU.X s /\ CPU.Y s' = CPU.Y s /\ CPU.SP s' = CPU.SP s /\
    CPU.clock_cycles s' = CPU.clock_cycles s + 4 /\
    CPU.running s' = CPU.running s.
Proof.
  intros s.
  pose proof (cpu_inv_load 0x8000 [0x8D; 0x00; 0x03] CPU.init cpu_inv_init)
    as [H0 [HA _]].
  assert (getitem (CPU.memory s) (CPU.PC s) = Ret 0x8D) as H1
    by (vm_compute; reflexivity).
  assert (getitem (CPU.memory s) (CPU.PC s + 1) = Ret 0x00) as H2
    by (vm_compute; reflexivity).
  assert (getitem (CPU.memory s) (CPU.PC s + 2) = Ret 0x03) as H3
    by (vm_compute; reflexivity).
  split; [exact H0 |]. split; [exact HA |]. split; [exact H1 |].
  split; [exact H2 |]. split; [exact H3 |].
  exact (execute_STA_absolute s 0x00 0x03 H0 HA H1 H2 H3).
Defined.

(** ** Round trips *)

(** The scenario [LDA #v; STA addr]: after the two instructions [A] holds
    [v] and so does the memory cell at [addr = lo + 256 * hi]; [PC] has
    moved by five and 6 cycles are counted. *)
Theorem lda_sta_round_trip (s : CPU.state) (v lo hi : Z) :
  CPU.wf s ->
  getitem (CPU.memory s) (CPU.PC s) = Ret 0xA9 ->
  getitem (CPU.memory s) (CPU.PC s + 1) = Ret v ->
  getitem (CPU.memory s) (CPU.PC s + 2) = Ret 0x8D ->
  getitem (CPU.memory s) (CPU.PC s + 3) = Ret lo ->
  getitem (CPU.memory s) (CPU.PC s + 4) = Ret hi ->
  exists s1 s2,
    CPU.execute s = (s1, Ret 2) /\ CPU.execute s1 = (s2, Ret 4) /\
    CPU.A s2 = v /\
    CPU.memory s2 !! Z.to_nat (lo + 256 * hi) = Some v /\
    CPU.PC s2 = CPU.PC s + 5 /\
    CPU.clock_cycles s2 = CPU.clock_cycles s + 6.
Proof.
  intros Hwf H0 H1 H2 H3 H4.
  pose proof (getitem_is_byte s _ v Hwf H1) as Bv.
  pose proof (getitem_is_byte s _ lo Hwf H3) as Blo.
  pose proof (getitem_is_byte s _ hi Hwf H4) as Bhi.
  pose proof (word_of_bytes_range lo hi Blo Bhi) as Hr.
  pose proof (CPU.wf_length s Hwf) as Hlen.
  eexists. eexists. split; [by apply execute_LDA_immediate_eq |].
  split.
  { apply (execute_STA_absolute_eq _ lo hi (Z.to_nat (lo + 256 * hi)));
      [done | | | |].
    - by replace (CPU.PC s + 2) with (CPU.PC s + 1 + 1) in H2 by lia.
    - cbn. by replace (CPU.PC s + 3) with (CPU.PC s + 1 + 1 + 1) in H3 by lia.
    - cbn.
      by replace (CPU.PC s + 4) with (CPU.PC s + 1 + 1 + 1 + 1) in H4 by lia.
    - apply py_index_nonneg. cbn. lia. }
  cbn [CPU.memory CPU.A CPU.PC CPU.regs CPU.clock_cycles CPU.reg_A
       CPU.reg_PC].
  rewrite (land_0xFF_byte _ Bv).
  split; [reflexivity |].
  split; [apply list_lookup_insert_eq; lia |].
  split; lia.
Qed.

Lemma lda_sta_round_trip_witness :
  let s := load 0x8000 [0xA9; 0x42; 0x8D; 0x00; 0x03] CPU.init in
  CPU.wf s /\
  getitem (CPU.memory s) (CPU.PC s) = Ret 0xA9 /\
  getitem (CPU.memory s) (CPU.PC s + 1) = Ret 0x42 /\
  getitem (CPU.memory s) (CPU.PC s + 2) = Ret 0x8D /\
  getitem (CPU.memory s) (CPU.PC s + 3) = Ret 0x00 /\
  getitem (CPU.memory s) (CPU.PC s + 4) = Ret 0x03 /\
  exists s1 s2,
    CPU.execute s = (s1, Ret 2) /\ CPU.execute s1 = (s2, Ret 4) /\
    CPU.A s2 = 0x42 /\
    CPU.memory s2 !! Z.to_nat (0x00 + 256 * 0x03) = Some 0x42 /\
    CPU.PC s2 = CPU.PC s + 5 /\
    CPU.clock_cycles s2 = CPU.clock_cycles s + 6.
Proof.
  intros s.
  assert (CPU.wf s) as H by (apply cpu_inv_load, cpu_inv_init).
  assert (getitem (CPU.memory s) (CPU.PC s) = Ret 0xA9) as H0
    by (vm_compute; reflexivity).
  assert (getitem (CPU.memory s) (CPU.PC s + 1) = Ret 0x42) as H1
    by (vm_compute; reflexivity).
  assert (getitem (CPU.memory s) (CPU.PC s + 2) = Ret 0x8D) as H2
    by (vm_compute; reflexivity).
  assert (getitem (CPU.memory s) (CPU.PC s + 3) = Ret 0x00) as H3
    by (vm_compute; reflexivity).
  assert (getitem (CPU.memory s) (CPU.PC s + 4) = Ret 0x03) as H4
    by (vm_compute; reflexivity).
  split; [exact H |]. split; [exact H0 |]. split; [exact H1 |].
  split; [exact H2 |]. split; [exact H3 |]. split; [exact H4 |].
  exact (lda_sta_round_trip s 0x42 0x00 0x03 H H0 H1 H2 H3 H4).
Defined.

Lemma wf_with_memory_insert (s : CPU.state) (n : nat) (v : Z) :
  CPU.wf s -> CPU.is_byte v ->
  CPU.wf (CPU.with_memory (<[n := v]> (CPU.memory s)) s).
Proof.
  intros [Hlen Hbytes] Hv. split; cbn.
  - by rewrite length_insert.
  - by apply Forall_insert.
Qed.

(** [write_byte] then [read_byte]: within the memory, a byte written at
    [a] is read back at [a] as [value & 0xFF], the write succeeds whatever
    the value, and every other address reads what it read before. *)
Theorem write_read_byte (s : CPU.state) (a v : Z) :
  CPU.wf s -> 0 <= a <= 0xFFFF ->
  exists s',
    CPU.write_byte a v s = (s', Ret tt) /\
    CPU.read_byte a s' = (s', Ret (Z.land v 0xFF)) /\
    (forall a', 0 <= a' <= 0xFFFF -> a' <> a ->
       snd (CPU.read_byte a' s') = snd (CPU.read_byte a' s)) /\
    CPU.regs s' = CPU.regs s /\
    CPU.clock_cycles s' = CPU.clock_cycles s /\
    CPU.running s' = CPU.running s /\
    CPU.wf s'.
Proof.
  intros Hwf Ha. pose proof (CPU.wf_length s Hwf) as Hlen.
  assert (py_index (CPU.memory s) a = Some (Z.to_nat a)) as Hn
    by (apply py_index_nonneg; lia).
  eexists. split; [by apply write_byte_eq |].
  split.
  { unfold CPU.read_byte. rewrite mem_get_eq. f_equal.
    apply getitem_nonneg; [lia |]. cbn. apply list_lookup_insert_eq. lia. }
  split.
  { intros a' Ha' Hne. unfold CPU.read_byte. rewrite !mem_get_eq. cbn [snd].
    destruct (wf_getitem s a' Hwf Ha') as (w & Hw & _ & Hg). rewrite Hg.
    apply getitem_nonneg; [lia |]. cbn.
    rewrite list_lookup_insert_ne by lia. done. }
  split; [reflexivity |]. split; [reflexivity |]. split; [reflexivity |].
  apply wf_with_memory_insert; [done | apply land_0xFF_is_byte].
Qed.

Lemma write_read_byte_witness :
  CPU.wf CPU.init /\ 0 <= 0x0300 <= 0xFFFF /\
  exists s',
    CPU.write_byte 0x0300 0x1FF CPU.init = (s', Ret tt) /\
    CPU.read_byte 0x0300 s' = (s', Ret (Z.land 0x1FF 0xFF)) /\
    (forall a', 0 <= a' <= 0xFFFF -> a' <> 0x0300 ->
       snd (CPU.read_byte a' s') = snd (CPU.read_byte a' CPU.init)) /\
    CPU.regs s' = CPU.regs CPU.init /\
    CPU.clock_cycles s' = CPU.clock_cycles CPU.init /\
    CPU.running s' = CPU.running CPU.init /\
    CPU.wf s'.
Proof.
  assert (0 <= 0x0300 <= 0xFFFF) as H by lia.
  split; [exact init_wf |]. split; [exact H |].
  exact (write_read_byte CPU.init 0x0300 0x1FF init_wf H).
Defined.

(** The bounds of the memory accessors: an address at or beyond [0x10000]
    (or below [-0x10000]) makes [read_byte] and [write_byte] raise
    [IndexError] and change nothing, and a negative address within
    [-0x10000, -1] is not rejected: it reads and writes the cell at
    [0x10000 + a], Python's indexing from the end. *)
Theorem byte_access_bounds (s : CPU.state) (a v : Z) :
  CPU.wf s ->
  (a < - 0x10000 \/ 0xFFFF < a ->
   CPU.read_byte a s = (s, Raise IndexError) /\
   CPU.write_byte a v s = (s, Raise IndexError)) /\
  (- 0x10000 <= a < 0 ->
   snd (CPU.read_byte a s) = snd (CPU.read_byte (0x10000 + a) s) /\
   CPU.write_byte a v s = CPU.write_byte (0x10000 + a) v s).
Proof.
  intros Hwf. pose proof (CPU.wf_length s Hwf) as Hlen. split.
  - intros Ha. split.
    + unfold CPU.read_byte. rewrite mem_get_eq. f_equal.
      apply getitem_Raise. lia.
    + unfold CPU.write_byte. rewrite mem_set_eq. unfold bytearray_setitem.
      assert (py_index (CPU.memory s) a = None) as ->
        by (apply py_index_None; lia).
      done.
  - intros Ha.
    assert (py_index (CPU.memory s) a = Some (Z.to_nat (0x10000 + a))) as H1.
    { apply py_index_Some. right. rewrite Hlen. lia. }
    assert (py_index (CPU.memory s) (0x10000 + a)
            = Some (Z.to_nat (0x10000 + a))) as H2
      by (apply py_index_nonneg; lia).
    split.
    + unfold CPU.read_byte. rewrite !mem_get_eq. cbn [snd].
      unfold getitem. by rewrite H1, H2.
    + by rewrite (write_byte_eq s a v _ H1), (write_byte_eq s _ v _ H2).
Qed.

Lemma byte_access_bounds_witness :
  CPU.wf CPU.init /\
  (0x10000 < - 0x10000 \/ 0xFFFF < 0x10000 ->
   CPU.read_byte 0x10000 CPU.init = (CPU.init, Raise IndexError) /\
   CPU.write_byte 0x10000 7 CPU.init = (CPU.init, Raise IndexError)) /\
  (- 0x10000 <= 0x10000 < 0 ->
   snd (CPU.read_byte 0x10000 CPU.init)
   = snd (CPU.read_byte (0x10000 + 0x10000) CPU.init) /\
   CPU.write_byte 0x10000 7 CPU.init
   = CPU.write_byte (0x10000 + 0x10000) 7 CPU.init).
Proof.
  split; [exact init_wf | exact (byte_access_bounds CPU.init 0x10000 7 init_wf)].
Defined.

Lemma word_split (v : Z) :
  Z.lor (Z.shiftl (Z.land (Z.shiftr v 8) 0xFF) 8) (Z.land v 0xFF)
  = v mod 0x10000.
Proof.
  rewrite word_of_bytes by apply land_0xFF_is_byte.
  change 0xFF with (Z.ones 8). rewrite !Z.land_ones by lia.
  rewrite Z.shiftr_div_pow2 by lia. change (2 ^ 8) with 256.
  change 0x10000 with (256 * 256). rewrite Z.rem_mul_r by lia. done.
Qed.

Lemma write_word_in_range (s : CPU.state) (a v : Z) :
  CPU.wf s -> 0 <= a <= 0xFFFE ->
  CPU.write_word a v s =
  (CPU.with_memory
     (<[Z.to_nat (a + 1) := Z.land (Z.shiftr v 8) 0xFF]>
        (<[Z.to_nat a := Z.land v 0xFF]> (CPU.memory s))) s,
   Ret tt).
Proof.
  intros Hwf Ha. pose proof (CPU.wf_length s Hwf) as Hlen.
  apply write_word_eq; apply py_index_nonneg; lia.
Qed.

(* The word accessors, for the round trips below. *)
Lemma write_word_read_back (s : CPU.state) (a v : Z) :
  CPU.wf s -> 0 <= a <= 0xFFFE ->
  exists s',
    CPU.write_word a v s = (s', Ret tt) /\
    CPU.read_word a s' = (s', Ret (v mod 0x10000)) /\
    CPU.memory s' !! Z.to_nat a = Some (v mod 256) /\
    CPU.memory s' !! Z.to_nat (a + 1) = Some ((v / 256) mod 256) /\
    CPU.regs s' = CPU.regs s /\ CPU.wf s'.
Proof.
  intros Hwf Ha. pose proof (CPU.wf_length s Hwf) as Hlen.
  eexists. split; [by apply write_word_in_range |].
  assert (Z.land v 0xFF = v mod 256) as E1.
  { change 0xFF with (Z.ones 8). by rewrite Z.land_ones by lia. }
  assert (Z.land (Z.shiftr v 8) 0xFF = (v / 256) mod 256) as E2.
  { change 0xFF with (Z.ones 8). rewrite Z.land_ones by lia.
    by rewrite Z.shiftr_div_pow2 by lia. }
  assert (forall m : list Z, Z.of_nat (length m) = 0x10000 ->
            (<[Z.to_nat (a + 1) := Z.land (Z.shiftr v 8) 0xFF]>
               (<[Z.to_nat a := Z.land v 0xFF]> m)) !! Z.to_nat a
            = Some (Z.land v 0xFF)) as Hlo.
  { intros m Hm. rewrite list_lookup_insert_ne by lia.
    apply list_lookup_insert_eq. lia. }
  assert (forall m : list Z, Z.of_nat (length m) = 0x10000 ->
            (<[Z.to_nat (a + 1) := Z.land (Z.shiftr v 8) 0xFF]>
               (<[Z.to_nat a := Z.land v 0xFF]> m)) !! Z.to_nat (a + 1)
            = Some (Z.land (Z.shiftr v 8) 0xFF)) as Hhi.
  { intros m Hm. apply list_lookup_insert_eq. rewrite length_insert. lia. }
  split.
  { rewrite <- word_split.
    apply read_word_eq; (apply getitem_nonneg; [lia |]); cbn.
    - by apply Hlo.
    - by apply Hhi. }
  split; [cbn; rewrite <- E1; by apply Hlo |].
  split; [cbn; rewrite <- E2; by apply Hhi |].
  split; [reflexivity |].
  apply (wf_with_memory_insert
           (CPU.with_memory (<[Z.to_nat a := Z.land v 0xFF]> (CPU.memory s)) s));
    [| apply land_0xFF_is_byte].
  apply wf_with_memory_insert; [done | apply land_0xFF_is_byte].
Qed.

(** [write_word] then [read_word]: a word written at an address [a] below
    [0xFFFF] is read back at [a] as [value mod 0x10000], low byte at [a] and
    high byte at [a + 1], whatever integer the value is. *)
Theorem write_read_word (s : CPU.state) (a v : Z) :
  CPU.wf s -> 0 <= a <= 0xFFFE ->
  exists s',
    CPU.write_word a v s = (s', Ret tt) /\
    CPU.read_word a s' = (s', Ret (v mod 0x10000)) /\
    CPU.memory s' !! Z.to_nat a = Some (v mod 256) /\
    CPU.memory s' !! Z.to_nat (a + 1) = Some ((v / 256) mod 256) /\
    CPU.regs s' = CPU.regs s /\ CPU.wf s'.
Proof. intros Hwf Ha. by apply write_word_read_back. Qed.

Lemma write_read_word_witness :
  CPU.wf CPU.init /\ 0 <= 0xFFFC <= 0xFFFE /\
  exists s',
    CPU.write_word 0xFFFC 0x19000 CPU.init = (s', Ret tt) /\
    CPU.read_word 0xFFFC s' = (s', Ret (0x19000 mod 0x10000)) /\
    CPU.memory s' !! Z.to_nat 0xFFFC = Some (0x19000 mod 256) /\
    CPU.memory s' !! Z.to_nat (0xFFFC + 1) = Some ((0x19000 / 256) mod 256) /\
    CPU.regs s' = CPU.regs CPU.init /\ CPU.wf s'.
Proof.
  assert (0 <= 0xFFFC <= 0xFFFE) as H by lia.
  split; [exact init_wf |]. split; [exact H |].
  exact (write_read_word CPU.init 0xFFFC 0x19000 init_wf H).
Defined.

(** A word at the very end of the memory: [write_word(0xFFFF, value)]
    stores the low byte in the last cell and only then raises [IndexError]
    for the high byte, so the write is left half done; [read_word(0xFFFF)]
    raises as well, without any effect. *)
Theorem word_at_last_cell (s : CPU.state) (v : Z) :
  CPU.wf s ->
  CPU.write_word 0xFFFF v s =
    (CPU.with_memory (<[Z.to_nat 0xFFFF := Z.land v 0xFF]> (CPU.memory s)) s,
     Raise IndexError) /\
  CPU.read_word 0xFFFF s = (s, Raise IndexError).
Proof.
  intros Hwf. pose proof (CPU.wf_length s Hwf) as Hlen. split.
  - unfold CPU.write_word, bind. rewrite mem_set_eq.
    rewrite (setitem_byte _ _ _ (Z.to_nat 0xFFFF));
      [| apply py_index_nonneg; lia | apply land_0xFF_is_byte].
    rewrite mem_set_eq. unfold bytearray_setitem.
    assert (py_index
              (CPU.memory
                 (CPU.with_memory
                    (<[Z.to_nat 0xFFFF := Z.land v 0xFF]> (CPU.memory s)) s))
              (0xFFFF + 1) = None) as ->; [| done].
    apply py_index_None. cbn [CPU.memory CPU.with_memory].
    rewrite length_insert. lia.
  - destruct (wf_getitem s 0xFFFF Hwf) as (lo & _ & _ & Hlo); [lia |].
    unfold CPU.read_word, CPU.mem_get, bind, gets, lift. rewrite Hlo.
    by rewrite getitem_Raise by lia.
Qed.

Lemma word_at_last_cell_witness :
  CPU.wf CPU.init /\
  CPU.write_word 0xFFFF 0x1234 CPU.init =
    (CPU.with_memory
       (<[Z.to_nat 0xFFFF := Z.land 0x1234 0xFF]> (CPU.memory CPU.init))
       CPU.init,
     Raise IndexError) /\
  CPU.read_word 0xFFFF CPU.init = (CPU.init, Raise IndexError).
Proof.
  split; [exact init_wf | exact (word_at_last_cell CPU.init 0x1234 init_wf)].
Defined.

(** Setting the reset vector and resetting: after [write_word(0xFFFC, w)],
    [reset] leaves [PC = w mod 0x10000], for any integer [w], and the other
    registers as they were. *)
Theorem reset_vector_round_trip (s : CPU.state) (w : Z) :
  CPU.wf s ->
  exists s1 s2,
    CPU.write_word 0xFFFC w s = (s1, Ret tt) /\
    CPU.reset s1 = (s2, Ret tt) /\
    CPU.PC s2 = w mod 0x10000 /\
    CPU.A s2 = CPU.A s /\ CPU.X s2 = CPU.X s /\ CPU.Y s2 = CPU.Y s /\
    CPU.SP s2 = CPU.SP s /\ CPU.P s2 = CPU.P s /\
    CPU.memory s2 = CPU.memory s1.
Proof.
  intros Hwf.
  destruct (write_word_read_back s 0xFFFC w Hwf ltac:(lia))
    as (s1 & Hw & Hr & _ & _ & Hregs & _).
  exists s1, (jump_to (w mod 0x10000) s1).
  split; [done |]. split.
  - unfold CPU.reset, bind. by rewrite Hr.
  - unfold CPU.A, CPU.X, CPU.Y, CPU.SP, CPU.P. cbn. rewrite Hregs.
    by repeat split.
Qed.

Lemma reset_vector_round_trip_witness :
  CPU.wf CPU.init /\
  exists s1 s2,
    CPU.write_word 0xFFFC 0x9000 CPU.init = (s1, Ret tt) /\
    CPU.reset s1 = (s2, Ret tt) /\
    CPU.PC s2 = 0x9000 mod 0x10000 /\
    CPU.A s2 = CPU.A CPU.init /\ CPU.X s2 = CPU.X CPU.init /\
    CPU.Y s2 = CPU.Y CPU.init /\
    CPU.SP s2 = CPU.SP CPU.init /\ CPU.P s2 = CPU.P CPU.init /\
    CPU.memory s2 = CPU.memory s1.
Proof.
  split; [exact init_wf | exact (reset_vector_round_trip CPU.init 0x9000 init_wf)].
Defined.

(** ** What [execute] leaves alone *)

(** Steps through a method, a bind of primitive steps, to show that it keeps
    an invariant of the form [obs s = k]; a [modify] is dealt with by
    computing the observation of the modified state. *)
Ltac frame_steps :=
  repeat first
    [ apply preserves_ret; exact Logic.I
    | apply preserves_gets; intros; exact Logic.I
    | apply preserves_lift; intros; exact Logic.I
    | apply preserves_modify; [intros ? <-; reflexivity | exact Logic.I]
    | apply preserves_when; [exact Logic.I |]
    | eapply (preserves_bind _ _ _ (fun _ => True)); [| intros ? _] ].

Ltac unfold_methods :=
  unfold CPU.LDA_immediate, CPU.LDA_absolute, CPU.STA_absolute,
    CPU.JMP_absolute, CPU.NOP, CPU.BRK, CPU.fetch_addr, CPU.fetch_byte,
    CPU.update_flags, CPU.read_byte, CPU.write_byte, CPU.mem_get,
    CPU.mem_set.

(** [execute] keeps an observation [obs] of the CPU that neither the
    program counter nor the cycle counter enters, provided the handler of
    the opcode at [PC], if there is one, keeps it. *)
Lemma execute_frame {T : Type} (obs : CPU.state -> T) (s : CPU.state) :
  (forall v t, obs (CPU.with_regs (CPU.set_PC v) t) = obs t) ->
  (forall c t, obs (CPU.with_clock_cycles c t) = obs t) ->
  (forall opcode handler,
     getitem (CPU.memory s) (CPU.PC s) = Ret opcode ->
     CPU.dict_get CPU.opcodes opcode = Some handler ->
     preserves (fun t => obs t = obs s) handler (fun _ => True)) ->
  obs (fst (CPU.execute s)) = obs s.
Proof.
  intros Hpc Hclock Hh.
  destruct (getitem (CPU.memory s) (CPU.PC s)) as [opcode | e |] eqn:E.
  - rewrite (execute_eq s opcode E).
    destruct (CPU.dict_get CPU.opcodes opcode) as [handler |] eqn:Ed.
    + unfold bind at 1.
      destruct (Hh opcode handler eq_refl Ed (jump_to (CPU.PC s + 1) s))
        as [Hobs _]; [apply Hpc |].
      destruct (handler (jump_to (CPU.PC s + 1) s)) as [s1 [c | ex |]];
        cbn in *; [| done | done].
      by rewrite Hclock.
    + apply Hpc.
  - by rewrite (execute_Raise s e E).
  - by destruct (getitem_fuel_free (CPU.memory s) (CPU.PC s)).
Qed.

(** [execute] never touches [X], [Y] or [SP], whatever the opcode and
    whether it returns or raises: no instruction of the table uses the index
    registers or the stack. *)
Theorem execute_keeps_X_Y_SP (s : CPU.state) :
  CPU.X (fst (CPU.execute s)) = CPU.X s /\
  CPU.Y (fst (CPU.execute s)) = CPU.Y s /\
  CPU.SP (fst (CPU.execute s)) = CPU.SP s.
Proof.
  assert ((fun t => (CPU.X t, CPU.Y t, CPU.SP t)) (fst (CPU.execute s))
          = (CPU.X s, CPU.Y s, CPU.SP s)) as H.
  { apply (execute_frame (fun t => (CPU.X t, CPU.Y t, CPU.SP t)));
      [done | done |].
    intros opcode handler _ Ed.
    apply dict_get_opcodes in Ed
      as [[_ ->] | [[_ ->] | [[_ ->] | [[_ ->] | [[_ ->] | [_ ->]]]]]];
      unfold_methods; frame_steps. }
  cbn beta in H. by injection H as -> -> ->.
Qed.

(** Only [STA] writes memory: when the opcode at [PC] is not [0x8D],
    [execute] leaves every memory cell as it was, whether it returns or
    raises. *)
Theorem execute_writes_memory_only_in_STA (s : CPU.state) :
  getitem (CPU.memory s) (CPU.PC s) <> Ret 0x8D ->
  CPU.memory (fst (CPU.execute s)) = CPU.memory s.
Proof.
  intros Hne. apply (execute_frame CPU.memory); [done | done |].
  intros opcode handler Hop Ed.
  apply dict_get_opcodes in Ed
    as [[_ ->] | [[_ ->] | [[-> _] | [[_ ->] | [[_ ->] | [_ ->]]]]]];
    [| | done | | |]; unfold_methods; frame_steps.
Qed.

Lemma execute_writes_memory_only_in_STA_witness :
  let s := load 0x8000 [0xA9; 0x42] CPU.init in
  getitem (CPU.memory s) (CPU.PC s) <> Ret 0x8D /\
  CPU.memory (fst (CPU.execute s)) = CPU.memory s.
Proof.
  intros s.
  assert (getitem (CPU.memory s) (CPU.PC s) <> Ret 0x8D) as H
    by (vm_compute; discriminate).
  split; [exact H | exact (execute_writes_memory_only_in_STA s H)].
Defined.

(** Only [LDA] changes the accumulator and the flags: when the opcode at
    [PC] is neither [0xA9] nor [0xAD], [execute] leaves [A] and [P] as they
    were. *)
Theorem execute_loads_only_in_LDA (s : CPU.state) :
  getitem (CPU.memory s) (CPU.PC s) <> Ret 0xA9 ->
  getitem (CPU.memory s) (CPU.PC s) <> Ret 0xAD ->
  CPU.A (fst (CPU.execute s)) = CPU.A s /\
  CPU.P (fst (CPU.execute s)) = CPU.P s.
Proof.
  intros Hne1 Hne2.
  assert ((fun t => (CPU.A t, CPU.P t)) (fst (CPU.execute s))
          = (CPU.A s, CPU.P s)) as H.
  { apply (execute_frame (fun t => (CPU.A t, CPU.P t))); [done | done |].
    intros opcode handler Hop Ed.
    apply dict_get_opcodes in Ed
      as [[-> _] | [[-> _] | [[_ ->] | [[_ ->] | [[_ ->] | [_ ->]]]]]];
      [done | done | | | |]; unfold_methods; frame_steps. }
  cbn beta in H. by injection H as -> ->.
Qed.

Lemma execute_loads_only_in_LDA_witness :
  let s := load 0x8000 [0x8D; 0x00; 0x03] CPU.init in
  getitem (CPU.memory s) (CPU.PC s) <> Ret 0xA9 /\
  getitem (CPU.memory s) (CPU.PC s) <> Ret 0xAD /\
  CPU.A (fst (CPU.execute s)) = CPU.A s /\
  CPU.P (fst (CPU.execute s)) = CPU.P s.
Proof.
  intros s.
  assert (getitem (CPU.memory s) (CPU.PC s) <> Ret 0xA9) as H1
    by (vm_compute; discriminate).
  assert (getitem (CPU.memory s) (CPU.PC s) <> Ret 0xAD) as H2
    by (vm_compute; discriminate).
  split; [exact H1 |]. split; [exact H2 |].
  exact (execute_loads_only_in_LDA s H1 H2).
Defined.

(** The run flag of the CPU: [execute] clears it exactly when the opcode
    at [PC] is [0x00] (BRK), never sets it, and otherwise leaves it as it
    was, whether it returns or raises. *)
Theorem execute_halts_only_on_BRK (s : CPU.state) :
  (getitem (CPU.memory s) (CPU.PC s) = Ret 0x00 ->
   CPU.running (fst (CPU.execute s)) = false) /\
  (getitem (CPU.memory s) (CPU.PC s) <> Ret 0x00 ->
   CPU.running (fst (CPU.execute s)) = CPU.running s).
Proof.
  split.
  - intros H. by rewrite (execute_BRK s H).
  - intros Hne. apply (execute_frame CPU.running); [done | done |].
    intros opcode handler Hop Ed.
    apply dict_get_opcodes in Ed
      as [[_ ->] | [[_ ->] | [[_ ->] | [[_ ->] | [[_ ->] | [-> _]]]]]];
      [| | | | | done]; unfold_methods; frame_steps.
Qed.

Lemma execute_halts_only_on_BRK_witness :
  let s := CPU.init in
  (getitem (CPU.memory s) (CPU.PC s) = Ret 0x00 ->
   CPU.running (fst (CPU.execute s)) = false) /\
  (getitem (CPU.memory s) (CPU.PC s) <> Ret 0x00 ->
   CPU.running (fst (CPU.execute s)) = CPU.running s) /\
  CPU.running (fst (CPU.execute s)) = false.
Proof.
  intros s.
  assert (getitem (CPU.memory s) (CPU.PC s) = Ret 0x00) as H
    by (vm_compute; reflexivity).
  split; [exact (proj1 (execute_halts_only_on_BRK s)) |].
  split; [exact (proj2 (execute_halts_only_on_BRK s)) |].
  exact (proj1 (execute_halts_only_on_BRK s) H).
Defined.

(** The handlers do not touch the cycle counter, and each returns its cost:
    2, 3, 4 or 7. *)
Lemma handler_cost (opcode : Z) (handler : M CPU.state Z) (k : Z) :
  CPU.dict_get CPU.opcodes opcode = Some handler ->
  preserves (fun t => CPU.clock_cycles t = k) handler
    (fun n => n = 2 \/ n = 3 \/ n = 4 \/ n = 7).
Proof.
  intros Ed.
  apply dict_get_opcodes in Ed
    as [[_ ->] | [[_ ->] | [[_ ->] | [[_ ->] | [[_ ->] | [_ ->]]]]]];
    unfold_methods; frame_steps; apply preserves_ret; lia.
Qed.

(** The cycle counter counts what [execute] returns: an [execute] that
    returns [n] has added exactly [n] to [clock_cycles], and [n] is 0 (an
    unknown opcode), 2, 3, 4 or 7; an [execute] that raises has added
    nothing. *)
Theorem execute_counts_its_cycles (s : CPU.state) :
  match CPU.execute s with
  | (s', Ret n) =>
      CPU.clock_cycles s' = CPU.clock_cycles s + n /\
      (n = 0 \/ n = 2 \/ n = 3 \/ n = 4 \/ n = 7)
  | (s', _) => CPU.clock_cycles s' = CPU.clock_cycles s
  end.
Proof.
  destruct (getitem (CPU.memory s) (CPU.PC s)) as [opcode | e |] eqn:E.
  - rewrite (execute_eq s opcode E).
    destruct (CPU.dict_get CPU.opcodes opcode) as [handler |] eqn:Ed.
    + unfold bind at 1.
      destruct (handler_cost opcode handler (CPU.clock_cycles s) Ed
                  (jump_to (CPU.PC s + 1) s) eq_refl) as [Hc Hn].
      destruct (handler (jump_to (CPU.PC s + 1) s)) as [s1 [c | ex |]];
        cbn in *; [| done | done].
      rewrite Hc. split; [done |]. specialize (Hn c eq_refl). tauto.
    + cbn. split; [lia | tauto].
  - by rewrite (execute_Raise s e E).
  - by destruct (getitem_fuel_free (CPU.memory s) (CPU.PC s)).
Qed.

(** ** When [execute] raises *)

Lemma jump_to_PC (s : CPU.state) : jump_to (CPU.PC s) s = s.
Proof. by destruct s as [[] ? ? ?]. Qed.

Lemma wf_jump_to (pc : Z) (s : CPU.state) : CPU.wf s -> CPU.wf (jump_to pc s).
Proof. intros []. by split. Qed.

Lemma fetch_addr_cases (s : CPU.state) :
  CPU.wf s ->
  (exists lo hi,
     CPU.is_byte lo /\ CPU.is_byte hi /\
     getitem (CPU.memory s) (CPU.PC s) = Ret lo /\
     getitem (CPU.memory s) (CPU.PC s + 1) = Ret hi /\
     CPU.fetch_addr s = (jump_to (CPU.PC s + 1 + 1) s, Ret (lo + 256 * hi)))
  \/
  (exists k, (k = 0 \/ k = 1) /\
     getitem (CPU.memory s) (CPU.PC s + k) = Raise IndexError /\
     CPU.fetch_addr s = (jump_to (CPU.PC s + k) s, Raise IndexError)).
Proof.
  intros Hwf.
  destruct (fetch_byte_cases s Hwf)
    as [(_ & lo & Blo & Hlo & Flo) | (_ & Hg & Hf)].
  2: { right. exists 0. split; [by left |]. rewrite Z.add_0_r, jump_to_PC.
       split; [done |]. unfold CPU.fetch_addr, bind. by rewrite Hf. }
  destruct (fetch_byte_cases _ (wf_jump_to (CPU.PC s + 1) s Hwf))
    as [(_ & hi & Bhi & Hhi & Fhi) | (_ & Hg & Hf)].
  - left. exists lo, hi. split; [done |]. split; [done |].
    split; [done |]. split; [done |].
    rewrite (fetch_addr_eq s lo hi Hlo Hhi). by rewrite word_of_bytes'.
  - right. exists 1. split; [by right |]. split; [done |].
    unfold CPU.fetch_addr, bind. rewrite Flo. by rewrite Hf.
Qed.

(** When [execute] raises on a well-formed CPU, it is an [IndexError] of a
    fetch (of the opcode or of an operand byte) beyond the memory, never an
    error of a load or store, whose 16-bit address is always within it.
    Nothing has changed but [PC], which stands on the byte that could not be
    fetched, up to two bytes further than before: no register, no memory
    cell, no cycle. *)
Theorem execute_raises_only_on_fetch (s s' : CPU.state) (e : exn) :
  CPU.wf s ->
  CPU.execute s = (s', Raise e) ->
  e = IndexError /\
  s' = jump_to (CPU.PC s') s /\
  CPU.PC s <= CPU.PC s' <= CPU.PC s + 2 /\
  getitem (CPU.memory s) (CPU.PC s') = Raise IndexError.
Proof.
  intros Hwf H. pose proof (CPU.wf_length s Hwf) as Hlen.
  destruct (fetch_byte_cases s Hwf)
    as [(_ & opcode & _ & Hop & _) | (_ & Hg & _)].
  2: { rewrite (execute_Raise s _ Hg) in H. injection H as <- <-.
       rewrite jump_to_PC. split; [done |]. split; [done |].
       split; [lia | done]. }
  pose proof H as H0. rewrite (execute_eq s opcode Hop) in H.
  destruct (CPU.dict_get CPU.opcodes opcode) as [handler |] eqn:Ed;
    [| done].
  pose proof (wf_jump_to (CPU.PC s + 1) s Hwf) as Hwf1.
  apply dict_get_opcodes in Ed
    as [[-> ->] | [[-> ->] | [[-> ->] | [[-> ->] | [[-> ->] | [-> ->]]]]]].
  - destruct (fetch_byte_cases _ Hwf1)
      as [(_ & v & _ & Hv & _) | (_ & Hg & Hf)].
    + by rewrite (execute_LDA_immediate_eq s v Hop Hv) in H0.
    + unfold bind at 1, CPU.LDA_immediate, bind at 1 in H. rewrite Hf in H.
      injection H as <- <-. split; [done |]. split; [done |].
      split; [cbn; lia | done].
  - destruct (fetch_addr_cases _ Hwf1)
      as [(lo & hi & Blo & Bhi & Hlo & Hhi & _) | (k & Hk & Hg & Hf)].
    + destruct (wf_getitem s (lo + 256 * hi) Hwf
                  (word_of_bytes_range lo hi Blo Bhi)) as (v & _ & _ & Hv).
      by rewrite (execute_LDA_absolute_eq s lo hi v Blo Hop Hlo Hhi Hv) in H0.
    + unfold bind at 1, CPU.LDA_absolute, bind at 1 in H. rewrite Hf in H.
      injection H as <- <-. split; [done |]. split; [done |].
      split; [cbn; lia | done].
  - destruct (fetch_addr_cases _ Hwf1)
      as [(lo & hi & Blo & Bhi & Hlo & Hhi & _) | (k & Hk & Hg & Hf)].
    + pose proof (word_of_bytes_range lo hi Blo Bhi) as Hr.
      rewrite (execute_STA_absolute_eq s lo hi (Z.to_nat (lo + 256 * hi))
                 Blo Hop Hlo Hhi) in H0; [done |].
      apply py_index_nonneg. lia.
    + unfold bind at 1, CPU.STA_absolute, bind at 1 in H. rewrite Hf in H.
      injection H as <- <-. split; [done |]. split; [done |].
      split; [cbn; lia | done].
  - destruct (fetch_addr_cases _ Hwf1)
      as [(lo & hi & Blo & Bhi & Hlo & Hhi & _) | (k & Hk & Hg & Hf)].
    + rewrite (execute_JMP s lo hi Blo Hop Hlo) in H0; [done |].
      by replace (CPU.PC s + 2) with (CPU.PC s + 1 + 1) by lia.
    + unfold bind at 1, CPU.JMP_absolute, bind at 1 in H. rewrite Hf in H.
      injection H as <- <-. split; [done |]. split; [done |].
      split; [cbn; lia | done].
  - by rewrite (execute_NOP s Hop) in H0.
  - by rewrite (execute_BRK s Hop) in H0.
Qed.

Lemma execute_raises_only_on_fetch_witness :
  let s := jump_to 0xFFFF (load 0xFFFF [0xAD] CPU.init) in
  let s' := fst (CPU.execute s) in
  CPU.wf s /\
  CPU.execute s = (s', Raise IndexError) /\
  IndexError = IndexError /\
  s' = jump_to (CPU.PC s') s /\
  CPU.PC s <= CPU.PC s' <= CPU.PC s + 2 /\
  getitem (CPU.memory s) (CPU.PC s') = Raise IndexError.
Proof.
  intros s s'.
  assert (CPU.wf s) as H
    by (apply wf_jump_to, cpu_inv_load, cpu_inv_init).
  assert (CPU.execute s = (s', Raise IndexError)) as H1.
  { rewrite (surjective_pairing (CPU.execute s)).
    f_equal; vm_compute; reflexivity. }
  split; [exact H |]. split; [exact H1 |].
  exact (execute_raises_only_on_fetch s s' IndexError H H1).
Defined.

(** ** The registers of a running CPU *)

Lemma flags_values (v p : Z) :
  p = 0 \/ p = 0x02 \/ p = 0x80 ->
  flags v p = 0 \/ flags v p = 0x02 \/ flags v p = 0x80.
Proof.
  intros Hp. unfold flags.
  assert (Z.land p 0x7D = 0) as -> by (by destruct Hp as [-> | [-> | ->]]).
  destruct (Z.eqb_spec v 0) as [-> | Hv].
  - cbn. tauto.
  - destruct (truthy (Z.land v 0x80)); cbn; tauto.
Qed.

Section Reach.
Import CPU.

Ltac reach_modify :=
  let s := fresh "s" in
  intros s [[[? ?] [? ?]] (? & ? & ? & ? & ?)];
  (split; [split; [split; assumption | split; cbn; assumption] |]);
  (split; [cbn; first [assumption | lia] |]);
  (split; [cbn; assumption |]);
  repeat split; cbn; assumption.

Lemma reach_fetch_byte : preserves reach_inv fetch_byte is_byte.
Proof.
  intros s [Hinv HK].
  destruct (fetch_byte_cases s (proj1 Hinv))
    as [(Hr & v & Bv & _ & Hf) | (_ & _ & Hf)]; rewrite Hf; cbn.
  - split; [| by intros ? [= <-]].
    destruct Hinv as [[? ?] [? ?]]. destruct HK as (? & ? & ? & ? & ?).
    split; [split; [by split | by split] |].
    split; [cbn; lia |]. by repeat split.
  - split; [by split | done].
Qed.

Lemma reach_fetch_addr :
  preserves reach_inv fetch_addr (fun a => 0 <= a <= 0xFFFF).
Proof.
  unfold fetch_addr.
  eapply preserves_bind; [apply reach_fetch_byte |]. intros lo Blo.
  eapply preserves_bind; [apply reach_fetch_byte |]. intros hi Bhi.
  apply preserves_ret. rewrite word_of_bytes' by done.
  by apply word_of_bytes_range.
Qed.

Lemma reach_mem_get (a : Z) : preserves reach_inv (mem_get a) is_byte.
Proof.
  intros s Hs. rewrite mem_get_eq. split; [done |]. cbn.
  intros v Hv. by eapply getitem_is_byte; [apply Hs |].
Qed.

Lemma reach_mem_set (a v : Z) :
  preserves reach_inv (mem_set a v) (fun _ => True).
Proof.
  intros s [Hinv HK].
  destruct (cpu_inv_mem_set a v s Hinv) as [Hinv' _].
  split; [| done]. split; [done |].
  rewrite mem_set_eq in *.
  by destruct (bytearray_setitem (memory s) a v).
Qed.

Lemma reach_update_flags (v : Z) :
  preserves reach_inv (update_flags v) (fun _ => True).
Proof.
  intros s [Hinv HK].
  destruct (cpu_inv_update_flags v s Hinv) as [Hinv' _].
  split; [| done]. split; [done |].
  rewrite update_flags_eq. destruct HK as (? & ? & ? & ? & ?).
  split; [done |]. split; [by apply flags_values |]. by repeat split.
Qed.

Lemma reach_set_A (v : Z) :
  is_byte v ->
  preserves reach_inv (modify (with_regs (set_A v))) (fun _ => True).
Proof. intros Hv. apply preserves_modify; [reach_modify | done]. Qed.

Lemma reach_set_PC (a : Z) :
  0 <= a <= 0xFFFF ->
  preserves reach_inv (modify (with_regs (set_PC a))) (fun _ => True).
Proof. intros Ha. apply preserves_modify; [reach_modify | done]. Qed.

Lemma reach_handler (opcode : Z) (handler : M state Z) :
  dict_get opcodes opcode = Some handler ->
  preserves reach_inv handler (fun _ => True).
Proof.
  intros Ed.
  apply dict_get_opcodes in Ed
    as [[_ ->] | [[_ ->] | [[_ ->] | [[_ ->] | [[_ ->] | [_ ->]]]]]].
  - unfold LDA_immediate.
    eapply preserves_bind; [apply reach_fetch_byte |]. intros v Bv.
    eapply preserves_bind; [by apply reach_set_A |]. intros _ _.
    eapply preserves_bind; [apply reach_update_flags |]. intros _ _.
    by apply preserves_ret.
  - unfold LDA_absolute, read_byte.
    eapply preserves_bind; [apply reach_fetch_addr |]. intros a _.
    eapply preserves_bind; [apply reach_mem_get |]. intros v Bv.
    eapply preserves_bind; [by apply reach_set_A |]. intros _ _.
    eapply preserves_bind; [apply reach_update_flags |]. intros _ _.
    by apply preserves_ret.
  - unfold STA_absolute, write_byte.
    eapply preserves_bind; [apply reach_fetch_addr |]. intros a _.
    eapply preserves_bind; [by apply preserves_gets with (Q := fun _ => True) |].
    intros v _.
    eapply preserves_bind; [apply reach_mem_set |]. intros _ _.
    by apply preserves_ret.
  - unfold JMP_absolute.
    eapply preserves_bind; [apply reach_fetch_addr |]. intros a Ha.
    eapply preserves_bind; [by apply reach_set_PC |]. intros _ _.
    by apply preserves_ret.
  - by apply preserves_ret.
  - unfold BRK. eapply preserves_bind with (Q := fun _ => True).
    + apply preserves_modify; [reach_modify | done].
    + intros _ _. by apply preserves_ret.
Qed.

Lemma reach_execute : preserves reach_inv execute (fun _ => True).
Proof.
  unfold execute.
  eapply preserves_bind; [apply reach_fetch_byte |]. intros opcode _.
  destruct (dict_get opcodes opcode) as [handler |] eqn:E;
    [| by apply preserves_ret].
  eapply preserves_bind; [by eapply reach_handler |]. intros cycles _.
  eapply preserves_bind; [by apply preserves_gets with (Q := fun _ => True) |].
  intros c _. eapply preserves_bind with (Q := fun _ => True).
  - apply preserves_modify; [reach_modify | done].
  - intros _ _. by apply preserves_ret.
Qed.

Lemma reach_run_call (c : cpu_call) (s : state) :
  reach_inv s -> reach_inv (run_call c s).
Proof.
  intros Hs. destruct c as [| a v | a v]; cbn.
  - by apply reach_execute.
  - by apply reach_mem_set.
  - unfold write_word.
    by apply (preserves_bind reach_inv _ _ (fun _ => True) (fun _ => True));
      [apply reach_mem_set | intros _ _; apply reach_mem_set |].
Qed.

End Reach.

(** Whatever sequence of [execute], [write_byte] and [write_word] calls a
    fresh CPU is given, whether they return or raise: [PC] stays within
    [0, 0x10000] (it is never negative, and at most one past the last cell);
    [P] is [0x00], [0x02] or [0x80], so the Zero and Negative flags are
    never set together and no other bit of [P] is ever set; [X] and [Y] stay
    0 and [SP] stays [0x1FF]. *)
Theorem registers_of_a_run (cs : list cpu_call) :
  let s := run_calls cs CPU.init in
  0 <= CPU.PC s <= 0x10000 /\
  (CPU.P s = 0 \/ CPU.P s = 0x02 \/ CPU.P s = 0x80) /\
  CPU.X s = 0 /\ CPU.Y s = 0 /\ CPU.SP s = 0x1FF.
Proof.
  assert (forall s, reach_inv s -> reach_inv (run_calls cs s)) as H.
  { unfold run_calls. induction cs as [| c cs IH]; intros s Hs; cbn; [done |].
    apply IH. by apply reach_run_call. }
  apply H. split; [apply cpu_inv_init |].
  split; [change (CPU.PC CPU.init) with 0x8000; lia |].
  split; [by left |]. by repeat split.
Qed.

(** ** What the renderer paints *)

Lemma preserves_for_each_elem {S J : Type} (I : S -> Prop) (l : list J)
    (body : J -> M S unit) :
  (forall j, j ∈ l -> preserves I (body j) (fun _ => True)) ->
  preserves I (for_each l body) (fun _ => True).
Proof.
  induction l as [| j l IH]; intros Hb; cbn.
  - by apply preserves_ret.
  - eapply preserves_bind; [apply Hb; left |].
    intros _ _. apply IH. intros j' Hj'. apply Hb. by right.
Qed.

Lemma preserves_for_fold_elem {S J V : Type} (I : S -> Prop) (l : list J)
    (v : V) (body : J -> V -> M S V) :
  (forall j v, j ∈ l -> preserves I (body j v) (fun _ => True)) ->
  preserves I (for_fold l v body) (fun _ => True).
Proof.
  revert v. induction l as [| j l IH]; intros v Hb; cbn.
  - by apply preserves_ret.
  - eapply preserves_bind; [apply Hb; left |].
    intros v' _. apply IH. intros j' w Hj'. apply Hb. by right.
Qed.

Lemma getitem_nonneg_Ret {T : Type} (l : list T) (i : Z) (v : T) :
  0 <= i -> getitem l i = Ret v -> l !! Z.to_nat i = Some v.
Proof.
  intros Hi H. apply getitem_Ret in H as (n & Hn & Hv).
  apply py_index_Some in Hn as [[_ ->] | [? _]]; [done | lia].
Qed.

(* The renderer has no assignment to the video memory or the palette. *)
Lemma render_frame_keeps_vram (p : PPU.state) :
  PPU.vram (fst (PPU.render_frame p)) = PPU.vram p /\
  PPU.palette (fst (PPU.render_frame p)) = PPU.palette p.
Proof.
  assert (preserves
            (fun t => (PPU.vram t, PPU.palette t) = (PPU.vram p, PPU.palette p))
            PPU.render_frame (fun _ => True)) as H.
  { unfold PPU.render_frame, PPU.canvas_delete_all.
    eapply (preserves_bind _ _ _ (fun _ => True)); [frame_steps |].
    intros _ _. apply preserves_for_each. intros y.
    apply preserves_for_each. intros x.
    unfold PPU.vram_get, PPU.log, PPU.render_tile.
    eapply (preserves_bind _ _ _ (fun _ => True)); [frame_steps |].
    intros tile_idx _.
    eapply (preserves_bind _ _ _ (fun _ => True)); [| intros ? _; frame_steps].
    apply preserves_for_fold_elem. intros ty a _.
    unfold PPU.render_row, PPU.vram_get, PPU.log.
    eapply (preserves_bind _ _ _ (fun _ => True)); [frame_steps |].
    intros plane0 _.
    eapply (preserves_bind _ _ _ (fun _ => True)); [frame_steps |].
    intros plane1 _.
    eapply (preserves_bind _ _ _ (fun _ => True)); [| intros ? _; frame_steps].
    apply preserves_for_each. intros tx.
    unfold PPU.render_pixel, PPU.palette_get, PPU.log, PPU.create_rectangle.
    cbv zeta. frame_steps. }
  destruct (H p eq_refl) as [E _]. by injection E as -> ->.
Qed.

(** [render_frame] only reads the video memory and the palette: whatever
    they hold and whether the frame returns or raises, both are afterwards
    what they were before. *)
Theorem render_frame_reads_only (p : PPU.state) :
  PPU.vram (fst (PPU.render_frame p)) = PPU.vram p /\
  PPU.palette (fst (PPU.render_frame p)) = PPU.palette p.
Proof. apply render_frame_keeps_vram. Qed.

Section Painting.
Import PPU.
Context (pal : list rgb).

#[local] Abbreviation painted := (painted_with pal).

Lemma painted_log (a : access) : preserves painted (log a) (fun _ => True).
Proof. apply preserves_modify; [| done]. by intros p []. Qed.

Lemma painted_palette_get (i : Z) :
  1 <= i <= 3 ->
  preserves painted (palette_get i)
    (fun c => exists i, 1 <= i <= 3 /\ pal !! Z.to_nat i = Some c).
Proof.
  intros Hi. unfold palette_get.
  eapply preserves_bind; [apply painted_log |]. intros _ _.
  intros p [Hpal Hc]. unfold bind, gets, lift. cbn. split; [done |].
  intros c Hg. exists i. split; [done |]. rewrite <- Hpal.
  apply getitem_nonneg_Ret; [lia | done].
Qed.

Lemma painted_render_pixel (x y ty plane0 plane1 tx : Z) :
  0 <= x -> x + 8 <= width -> 0 <= y + ty < height -> 0 <= tx <= 7 ->
  preserves painted (render_pixel x y ty plane0 plane1 tx) (fun _ => True).
Proof.
  intros Hx Hx' Hy Htx. unfold render_pixel.
  pose proof (color_idx_range plane0 plane1 (7 - tx) ltac:(lia)) as Hr.
  destruct (Z.ltb_spec 0 (color_idx plane0 plane1 (7 - tx))) as [Hpos | ?];
    [| by apply preserves_ret].
  cbn [when].
  eapply preserves_bind; [apply painted_palette_get; lia |].
  intros c (i & Hi & Hc). unfold create_rectangle.
  apply preserves_modify; [| done]. intros p [Hpal Hcanvas].
  split; [done |]. cbn. apply Forall_cons. split; [| done].
  unfold pixel_of, width, height in *. cbn.
  split; [lia |]. split; [lia |]. split; [done |]. split; [done |].
  by exists i.
Qed.

Lemma painted_vram_get (site : Z -> access) (i : Z) :
  preserves painted (vram_get site i) (fun _ => True).
Proof.
  unfold vram_get.
  eapply preserves_bind; [apply painted_log |]. intros _ _.
  intros p Hp. unfold bind, gets, lift. by cbn.
Qed.

Lemma painted_render_tile (x y tile_idx : Z) :
  0 <= x -> x + 8 <= width -> 0 <= y -> y + 8 <= height ->
  preserves painted (render_tile x y tile_idx) (fun _ => True).
Proof.
  intros Hx Hx' Hy Hy'. unfold render_tile.
  eapply (preserves_bind _ _ _ (fun _ => True)); [| by intros; apply preserves_ret].
  apply preserves_for_fold_elem. intros ty a Hty%elem_of_range.
  unfold render_row.
  eapply preserves_bind; [apply painted_vram_get |]. intros plane0 _.
  eapply preserves_bind; [apply painted_vram_get |]. intros plane1 _.
  eapply (preserves_bind _ _ _ (fun _ => True)); [| by intros; apply preserves_ret].
  apply preserves_for_each_elem. intros tx Htx%elem_of_range.
  apply painted_render_pixel; lia.
Qed.

Lemma painted_tiles :
  preserves painted
    (for_each (range2 0 28) (fun y =>
       for_each (range2 0 32) (fun x =>
         tile_idx <- vram_get TileMapRead (y * 32 + x) ;;
         render_tile (x * 8) (y * 8) tile_idx)))
    (fun _ => True).
Proof.
  apply preserves_for_each_elem. intros y Hy%elem_of_range2.
  apply preserves_for_each_elem. intros x Hx%elem_of_range2.
  eapply preserves_bind; [apply painted_vram_get |]. intros tile_idx _.
  apply painted_render_tile; unfold width, height; lia.
Qed.

Lemma painted_render_frame (p : state) :
  palette p = pal -> Forall (pixel_of pal) (canvas (fst (render_frame p))).
Proof.
  intros Hpal.
  assert (painted (with_canvas [] p)) as Hp0 by (split; [done | constructor]).
  exact (proj2 (proj1 (painted_tiles (with_canvas [] p) Hp0))).
Qed.

End Painting.

(** Whatever the video memory and the palette hold, and whether
    [render_frame] returns or raises, every rectangle on the canvas
    afterwards is one pixel of the 256 x 224 screen, a unit square with its
    corner at [0 <= x < 256], [0 <= y < 224], filled with entry 1, 2 or 3 of
    the palette: nothing of an earlier frame is left, nothing is painted
    off screen, and entry 0 of the palette is never used. *)
Theorem render_frame_paints_pixels (p : PPU.state) :
  Forall (pixel_of (PPU.palette p)) (PPU.canvas (fst (PPU.render_frame p))).
Proof. by apply painted_render_frame. Qed.

(** ** What a frame depends on *)

Section Lockstep.
Context {S : Type} (R : S -> S -> Prop).

Lemma lockstep_ret {T : Type} (v : T) (Q : T -> Prop) :
  Q v -> lockstep R (ret v) Q.
Proof. intros Hv p q Hpq. by exists p, q, v. Qed.

Lemma lockstep_modify (f : S -> S) (Q : unit -> Prop) :
  (forall p q, R p q -> R (f p) (f q)) -> Q tt -> lockstep R (modify f) Q.
Proof.
  intros Hf Hq p q Hpq. exists (f p), (f q), tt.
  split; [done |]. split; [done |]. split; [by apply Hf | done].
Qed.

Lemma lockstep_bind {T U : Type} (m : M S T) (k : T -> M S U)
    (Q : T -> Prop) (Q' : U -> Prop) :
  lockstep R m Q -> (forall v, Q v -> lockstep R (k v) Q') ->
  lockstep R (bind m k) Q'.
Proof.
  intros Hm Hk p q Hpq.
  destruct (Hm p q Hpq) as (p1 & q1 & v & Ep & Eq & H1 & Hv).
  destruct (Hk v Hv p1 q1 H1) as (p2 & q2 & u & Ep2 & Eq2 & H2 & Hu).
  exists p2, q2, u. unfold bind. rewrite Ep, Eq. done.
Qed.

Lemma lockstep_when (b : bool) (m : M S unit) :
  (b = true -> lockstep R m (fun _ => True)) ->
  lockstep R (when b m) (fun _ => True).
Proof. intros Hm. destruct b; [by apply Hm | by apply lockstep_ret]. Qed.

Lemma lockstep_for_each {J : Type} (l : list J) (body : J -> M S unit) :
  (forall j, j ∈ l -> lockstep R (body j) (fun _ => True)) ->
  lockstep R (for_each l body) (fun _ => True).
Proof.
  induction l as [| j l IH]; intros Hb; cbn.
  - by apply lockstep_ret.
  - eapply lockstep_bind; [apply Hb; left |].
    intros _ _. apply IH. intros j' Hj'. apply Hb. by right.
Qed.

End Lockstep.

Section SamePatterns.
Import PPU.

Lemma same_patterns_log (a : access) :
  lockstep same_patterns (log a) (fun _ => True).
Proof.
  apply lockstep_modify; [| done].
  intros p q ([] & [] & Hv & Hp & Hc). by repeat split.
Qed.

Lemma same_patterns_vram_get (site : Z -> access) (i : Z) :
  0 <= i < 4096 -> lockstep same_patterns (vram_get site i) CPU.is_byte.
Proof.
  intros Hi. unfold vram_get.
  eapply lockstep_bind; [apply same_patterns_log |]. intros _ _.
  intros p q Hpq. pose proof Hpq as (Hwp & Hwq & Hv & _).
  destruct (wf_vram_getitem p i Hwp ltac:(lia)) as (v & Bv & Gp).
  exists p, q, v. unfold bind, gets, lift. rewrite Gp.
  split; [done |]. split; [| done].
  f_equal. apply getitem_nonneg; [lia |].
  apply getitem_nonneg_Ret in Gp; [| lia].
  rewrite <- (lookup_take_lt (vram q) 4096) by lia.
  rewrite <- Hv. by rewrite lookup_take_lt by lia.
Qed.

Lemma same_patterns_palette_get (i : Z) :
  0 <= i <= 3 -> lockstep same_patterns (palette_get i) (fun _ => True).
Proof.
  intros Hi. unfold palette_get.
  eapply lockstep_bind; [apply same_patterns_log |]. intros _ _.
  intros p q Hpq. pose proof Hpq as (Hwp & _ & _ & Hpal & _).
  destruct (wf_palette_getitem p i Hwp Hi) as (c & _ & Gp).
  exists p, q, c. unfold bind, gets, lift. rewrite <- Hpal, Gp. done.
Qed.

Lemma same_patterns_create_rectangle (r : rectangle) :
  lockstep same_patterns (create_rectangle r) (fun _ => True).
Proof.
  apply lockstep_modify; [| done].
  intros p q ([] & [] & Hv & Hp & Hc). repeat split; try done.
  cbn. by rewrite Hc.
Qed.

Lemma same_patterns_render_pixel (x y ty plane0 plane1 tx : Z) :
  tx <= 7 ->
  lockstep same_patterns (render_pixel x y ty plane0 plane1 tx)
    (fun _ => True).
Proof.
  intros Htx. unfold render_pixel.
  pose proof (color_idx_range plane0 plane1 (7 - tx) ltac:(lia)) as Hr.
  apply lockstep_when. intros _.
  eapply lockstep_bind; [by apply same_patterns_palette_get |].
  intros c _. apply same_patterns_create_rectangle.
Qed.

Lemma same_patterns_render_row (x y ty tile_addr : Z) :
  0 <= tile_addr <= 4094 ->
  lockstep same_patterns (render_row x y ty tile_addr)
    (fun r => r = tile_addr + 2).
Proof.
  intros Ha. unfold render_row.
  eapply lockstep_bind; [apply same_patterns_vram_get; lia |].
  intros plane0 _.
  eapply lockstep_bind; [apply same_patterns_vram_get; lia |].
  intros plane1 _.
  eapply lockstep_bind.
  - apply lockstep_for_each. intros tx Htx%elem_of_range.
    apply same_patterns_render_pixel. lia.
  - intros _ _. by apply lockstep_ret.
Qed.

Lemma same_patterns_render_rows (x y : Z) (l : list Z) (tile_addr : Z) :
  0 <= tile_addr -> tile_addr + 2 * Z.of_nat (length l) <= 4096 ->
  lockstep same_patterns (for_fold l tile_addr (render_row x y))
    (fun _ => True).
Proof.
  revert tile_addr. induction l as [| ty l IH]; intros tile_addr H0 H1; cbn.
  - by apply lockstep_ret.
  - cbn in H1. eapply lockstep_bind; [apply same_patterns_render_row; lia |].
    intros r ->. apply IH; lia.
Qed.

Lemma same_patterns_tiles :
  lockstep same_patterns
    (for_each (range2 0 28) (fun y =>
       for_each (range2 0 32) (fun x =>
         tile_idx <- vram_get TileMapRead (y * 32 + x) ;;
         render_tile (x * 8) (y * 8) tile_idx)))
    (fun _ => True).
Proof.
  apply lockstep_for_each. intros y Hy%elem_of_range2.
  apply lockstep_for_each. intros x Hx%elem_of_range2.
  eapply lockstep_bind; [apply same_patterns_vram_get; lia |].
  intros tile_idx [H0 H1]. unfold render_tile.
  eapply lockstep_bind.
  - apply same_patterns_render_rows; [lia |].
    change (Z.of_nat (length (range 8))) with 8. lia.
  - intros _ _. by apply lockstep_ret.
Qed.

End SamePatterns.

(* The relational statement of the renderer, for the corollaries below. *)
Lemma render_frame_lockstep (p q : PPU.state) :
  PPU.wf p -> PPU.wf q ->
  take 4096 (PPU.vram p) = take 4096 (PPU.vram q) ->
  PPU.palette p = PPU.palette q ->
  exists p' q',
    PPU.render_frame p = (p', Ret tt) /\
    PPU.render_frame q = (q', Ret tt) /\
    PPU.canvas p' = PPU.canvas q'.
Proof.
  intros Hp Hq Hv Hpal.
  destruct (same_patterns_tiles (PPU.with_canvas [] p) (PPU.with_canvas [] q))
    as (p' & q' & [] & Ep & Eq & (_ & _ & _ & _ & Hc) & _).
  { destruct Hp, Hq. by repeat split. }
  by exists p', q'.
Qed.

(** A frame depends on the palette and on the first 4096 bytes of the video
    memory only (the tile patterns, of which the first 896 are read as the
    tile map as well): two well-formed PPUs that agree on these render the
    same canvas, whatever their canvases held before and whatever the rest
    of their video memory holds. *)
Theorem render_frame_depends_on_patterns (p q : PPU.state) :
  PPU.wf p -> PPU.wf q ->
  take 4096 (PPU.vram p) = take 4096 (PPU.vram q) ->
  PPU.palette p = PPU.palette q ->
  exists p' q',
    PPU.render_frame p = (p', Ret tt) /\
    PPU.render_frame q = (q', Ret tt) /\
    PPU.canvas p' = PPU.canvas q'.
Proof. intros Hp Hq Hv Hpal. by apply render_frame_lockstep. Qed.

Lemma render_frame_depends_on_patterns_witness :
  let q := PPU.with_canvas [PPU.mkRectangle 0 0 1 1 (1, 2, 3)]
             (PPU.with_vram (<[Z.to_nat 0x1000 := 7]> (PPU.vram palette_ppu))
                palette_ppu) in
  PPU.wf palette_ppu /\ PPU.wf q /\
  take 4096 (PPU.vram palette_ppu) = take 4096 (PPU.vram q) /\
  PPU.palette palette_ppu = PPU.palette q /\
  exists p' q',
    PPU.render_frame palette_ppu = (p', Ret tt) /\
    PPU.render_frame q = (q', Ret tt) /\
    PPU.canvas p' = PPU.canvas q'.
Proof.
  intros q.
  assert (PPU.wf q) as Hq.
  { destruct palette_ppu_wf as [Hlen Hbytes Hpal]. split; cbn.
    - by rewrite length_insert.
    - apply Forall_insert; [done |]. unfold CPU.is_byte. lia.
    - done. }
  assert (take 4096 (PPU.vram palette_ppu) = take 4096 (PPU.vram q)) as Hv.
  { cbn [q PPU.vram PPU.with_canvas PPU.with_vram].
    by rewrite take_insert_ge by lia. }
  assert (PPU.palette palette_ppu = PPU.palette q) as Hpal by reflexivity.
  split; [exact palette_ppu_wf |]. split; [exact Hq |].
  split; [exact Hv |]. split; [exact Hpal |].
  exact (render_frame_depends_on_patterns palette_ppu q palette_ppu_wf Hq
           Hv Hpal).
Defined.

(** Rendering is idempotent: a second [render_frame] right after the first
    leaves the same canvas (a full redraw, not an accumulation). *)
Theorem render_frame_idempotent (p : PPU.state) :
  PPU.wf p ->
  exists p1 p2,
    PPU.render_frame p = (p1, Ret tt) /\
    PPU.render_frame p1 = (p2, Ret tt) /\
    PPU.canvas p2 = PPU.canvas p1.
Proof.
  intros Hp.
  destruct (render_frame_returns p Hp) as (p1 & E1 & Hp1).
  pose proof (render_frame_keeps_vram p) as [Hv Hpal].
  rewrite E1 in Hv, Hpal. cbn in Hv, Hpal.
  destruct (render_frame_lockstep p1 p Hp1 Hp)
    as (p2 & p1' & E2 & E1' & Hc); [by rewrite Hv | done |].
  rewrite E1 in E1'. injection E1' as <-.
  by exists p1, p2.
Qed.

Lemma render_frame_idempotent_witness :
  PPU.wf palette_ppu /\
  exists p1 p2,
    PPU.render_frame palette_ppu = (p1, Ret tt) /\
    PPU.render_frame p1 = (p2, Ret tt) /\
    PPU.canvas p2 = PPU.canvas p1.
Proof.
  split; [exact palette_ppu_wf |].
  exact (render_frame_idempotent palette_ppu palette_ppu_wf).
Defined.

(** The renderer never looks at the video memory from offset [0x1000] on,
    which is where [setup_test_environment] stores its tile map: changing
    any byte there does not change the frame.  (The tile indices of a frame
    are the bytes at offsets 0..895, which are pattern bytes.) *)
Theorem render_frame_ignores_vram_from_0x1000 (p : PPU.state) (i v : Z) :
  PPU.wf p -> 0x1000 <= i -> CPU.is_byte v ->
  PPU.canvas
    (fst (PPU.render_frame
            (PPU.with_vram (<[Z.to_nat i := v]> (PPU.vram p)) p)))
  = PPU.canvas (fst (PPU.render_frame p)).
Proof.
  intros Hp Hi Hv.
  destruct (render_frame_lockstep
              (PPU.with_vram (<[Z.to_nat i := v]> (PPU.vram p)) p) p)
    as (p' & q' & Ep & Eq & Hc).
  - destruct Hp as [Hlen Hbytes Hpal]. split; cbn.
    + by rewrite length_insert.
    + by apply Forall_insert.
    + done.
  - done.
  - cbn. by rewrite take_insert_ge by lia.
  - done.
  - by rewrite Ep, Eq.
Qed.

Lemma render_frame_ignores_vram_from_0x1000_witness :
  PPU.wf palette_ppu /\ 0x1000 <= 0x1000 /\ CPU.is_byte 0x2A /\
  PPU.canvas
    (fst (PPU.render_frame
            (PPU.with_vram (<[Z.to_nat 0x1000 := 0x2A]> (PPU.vram palette_ppu))
               palette_ppu)))
  = PPU.canvas (fst (PPU.render_frame palette_ppu)).
Proof.
  assert (0x1000 <= 0x1000) as H1 by lia.
  assert (CPU.is_byte 0x2A) as H2 by (unfold CPU.is_byte; lia).
  split; [exact palette_ppu_wf |]. split; [exact H1 |]. split; [exact H2 |].
  exact (render_frame_ignores_vram_from_0x1000 palette_ppu 0x1000 0x2A
           palette_ppu_wf H1 H2).
Defined.

(** ** The CPU state window *)

Section DebugWindow.
Import Window.

Lemma disassembly_loop (c : CPU.state) (os : list Z) :
  CPU.wf c -> forall t,
  exists rows,
    for_each os (fun offset =>
      let addr := CPU.PC c + offset in
      when ((0 <=? addr) && (addr <? 0x10000))
        (opcode <- lift (getitem (CPU.memory c) addr) ;;
         text_insert (Code (offset =? 0) addr opcode))) t
    = (t ++ rows, Ret tt) /\
    Forall (line_ok c) rows /\
    (length rows <= length os)%nat /\
    forall offset, offset ∈ os -> 0 <= CPU.PC c + offset <= 0xFFFF ->
      exists opcode, Code (offset =? 0) (CPU.PC c + offset) opcode ∈ rows.
Proof.
  intros Hwf. cbv zeta. induction os as [| offset os IH]; intros t.
  - exists []. cbn. rewrite app_nil_r. repeat split; [done | lia |].
    intros offset H. by apply elem_of_nil in H.
  - cbn [for_each]. unfold bind at 1.
    destruct (Z.leb_spec 0 (CPU.PC c + offset)) as [H0 | H0];
      [destruct (Z.ltb_spec (CPU.PC c + offset) 0x10000) as [H1 | H1] |];
      cbn [andb when].
    + destruct (wf_getitem_cases c (CPU.PC c + offset) Hwf)
        as [[_ (opcode & _ & Hop)] | [Hr _]]; [| lia].
      unfold bind at 1, lift at 1. rewrite Hop. cbn [text_insert modify].
      destruct (IH (t ++ [Code (offset =? 0) (CPU.PC c + offset) opcode]))
        as (rows & E & Hok & Hlen & Hcov).
      exists (Code (offset =? 0) (CPU.PC c + offset) opcode :: rows).
      rewrite E. rewrite <- app_assoc. split; [done |].
      split; [| split; [cbn; lia |]].
      * constructor; [| done]. cbn. split; [lia |]. split.
        -- by apply getitem_nonneg_Ret in Hop.
        -- destruct (Z.eqb_spec offset 0), (Z.eqb_spec (CPU.PC c + offset)
             (CPU.PC c)); (done || lia).
      * intros o [-> | Ho]%elem_of_cons Hr.
        -- exists opcode. left.
        -- destruct (Hcov o Ho Hr) as [op Hop']. exists op. by right.
    + destruct (IH t) as (rows & E & Hok & Hlen & Hcov).
      exists rows. cbn [ret]. rewrite E. split; [done |].
      split; [done |]. split; [cbn; lia |].
      intros o [-> | Ho]%elem_of_cons Hr; [lia | by apply Hcov].
    + destruct (IH t) as (rows & E & Hok & Hlen & Hcov).
      exists rows. cbn [ret]. rewrite E. split; [done |].
      split; [done |]. split; [cbn; lia |].
      intros o [-> | Ho]%elem_of_cons Hr; [lia | by apply Hcov].
Qed.

End DebugWindow.

(** The CPU state window can always be opened: for a well-formed CPU
    [show_cpu_state] returns whatever [PC] is, also where the next fetch
    would raise.  Every line of its disassembly shows an address within the
    64 KiB with the byte the memory holds there, marked when it is [PC];
    every address within 5 of [PC] that is in the memory has its line; with
    the headings and the six registers there are at most 19 lines. *)
Theorem show_cpu_state_returns (c : CPU.state) :
  CPU.wf c ->
  exists t,
    Window.show_cpu_state c [] = (t, Ret tt) /\
    Forall (line_ok c) t /\
    (length t <= 19)%nat /\
    forall a, CPU.PC c - 5 <= a <= CPU.PC c + 5 -> 0 <= a <= 0xFFFF ->
      exists opcode, Window.Code (a =? CPU.PC c) a opcode ∈ t.
Proof.
  intros Hwf.
  destruct (disassembly_loop c (range2 (-5) 6) Hwf
    [ Window.Heading "Registers:";
      Window.Register "A" (CPU.A c); Window.Register "X" (CPU.X c);
      Window.Register "Y" (CPU.Y c); Window.Register "PC" (CPU.PC c);
      Window.Register "SP" (CPU.SP c); Window.Register "P" (CPU.P c);
      Window.Heading "Disassembly:" ])
    as (rows & E & Hok & Hlen & Hcov).
  eexists. split; [exact E |]. split; [| split].
  - repeat (constructor; [exact Logic.I |]). exact Hok.
  - change (length (range2 (-5) 6)) with 11%nat in Hlen.
    rewrite length_app. cbn [length]. lia.
  - intros a Ha Hr.
    destruct (Hcov (a - CPU.PC c)) as [opcode Hop].
    + apply elem_of_range2. lia.
    + lia.
    + exists opcode. apply elem_of_app. right.
      replace (CPU.PC c + (a - CPU.PC c)) with a in Hop by lia.
      replace (a =? CPU.PC c) with (a - CPU.PC c =? 0); [done |].
      destruct (Z.eqb_spec (a - CPU.PC c) 0), (Z.eqb_spec a (CPU.PC c));
        (done || lia).
Qed.

Lemma show_cpu_state_returns_witness :
  let c := jump_to 0x10000 CPU.init in
  CPU.wf c /\
  exists t,
    Window.show_cpu_state c [] = (t, Ret tt) /\
    Forall (line_ok c) t /\
    (length t <= 19)%nat /\
    forall a, CPU.PC c - 5 <= a <= CPU.PC c + 5 -> 0 <= a <= 0xFFFF ->
      exists opcode, Window.Code (a =? CPU.PC c) a opcode ∈ t.
Proof.
  intros c.
  assert (CPU.wf c) as Hwf by exact (wf_jump_to 0x10000 CPU.init init_wf).
  split; [exact Hwf |].
  exact (show_cpu_state_returns c Hwf).
Defined.

(** ** The cycle budget and the callbacks of the scheduler *)

Section Budget.
Import SNESEmulator.

Lemma execute_clock (s s' : CPU.state) (n : Z) :
  CPU.execute s = (s', Ret n) ->
  CPU.clock_cycles s' = CPU.clock_cycles s + n /\ 0 <= n <= 7.
Proof.
  intros H.
  destruct (getitem (CPU.memory s) (CPU.PC s)) as [opcode | e |] eqn:E.
  - rewrite (execute_eq s opcode E) in H.
    destruct (CPU.dict_get CPU.opcodes opcode) as [handler |] eqn:Ed.
    + unfold bind at 1 in H.
      destruct (handler_cost opcode handler (CPU.clock_cycles s) Ed
                  (jump_to (CPU.PC s + 1) s) eq_refl) as [Hc Hn].
      destruct (handler (jump_to (CPU.PC s + 1) s)) as [s1 [c | ex |]];
        cbn in *; [| done | done].
      injection H as <- <-. cbn. rewrite Hc. specialize (Hn c eq_refl). lia.
    + injection H as <- <-. cbn. lia.
  - by rewrite (execute_Raise s e E) in H.
  - by destruct (getitem_fuel_free (CPU.memory s) (CPU.PC s)).
Qed.

(** What the loop of [run_frame] has done when it returns: the cycles it
    has counted are the cycles the CPU has counted, it has stopped within 7
    cycles of the target, before the target only if the CPU has halted, and
    it has touched nothing but the CPU and the event log. *)
Lemma loop_budget (fuel : nat) :
  forall (cycles : Z) (e e1 : state) (c' : Z),
    while fuel loop_cond loop_body cycles e = (e1, Ret c') ->
    CPU.clock_cycles (cpu e1) - CPU.clock_cycles (cpu e) = c' - cycles /\
    cycles <= c' /\ c' <= Z.max cycles (target_cycles + 6) /\
    (CPU.running (cpu e1) = true -> target_cycles <= c') /\
    ppu e1 = ppu e /\ running e1 = running e /\ pending e1 = pending e /\
    status e1 = status e.
Proof.
  induction fuel as [| fuel IH]; intros cycles e e1 c' H; [done |].
  cbn [while] in H. unfold bind at 1, loop_cond in H.
  destruct (Z.ltb_spec cycles target_cycles) as [Hlt | Hge].
  2: { injection H as <- <-. repeat split; lia. }
  unfold gets in H. destruct (CPU.running (cpu e)) eqn:Hrun.
  2: { injection H as <- <-. repeat split; try lia. congruence. }
  unfold loop_body, cpu_execute, emit, on_cpu, zoom, bind, modify, ret in H.
  cbn [cpu with_events fst snd] in H.
  destruct (CPU.execute (cpu e)) as [c [n | ex |]] eqn:E; [| done | done].
  apply execute_clock in E as [Hc Hn].
  apply IH in H as (H1 & H2 & H3 & H4 & H5 & H6 & H7 & H8).
  cbn in H1, H5, H6, H7, H8. unfold target_cycles in *.
  repeat split; try done; lia.
Qed.

Lemma run_frame_Ret (fuel : nat) (e e' : state) :
  running e = true -> run_frame fuel e = (e', Ret tt) ->
  exists e1 c' p,
    while fuel loop_cond loop_body 0 e = (e1, Ret c') /\
    PPU.render_frame (ppu e1) = (p, Ret tt) /\
    e' = frame_end p e1.
Proof.
  intros Hrun H.
  unfold run_frame, bind at 1, gets in H. rewrite Hrun in H. cbn [negb] in H.
  unfold bind at 1 in H.
  destruct (while fuel loop_cond loop_body 0 e) as [e1 [c' | ex |]] eqn:Hloop;
    [| done | done].
  unfold ppu_render_frame, update_debug_info, root_after, emit, on_ppu,
    zoom, bind, modify in H. cbn [ppu with_events fst snd] in H.
  destruct (PPU.render_frame (ppu e1)) as [p [[] | ex |]] eqn:Hr;
    [| done | done].
  injection H as <-. by exists e1, c', p.
Qed.

End Budget.

(** The cycle budget of a frame: when a tick of the running emulator
    returns, the CPU has counted at most 1370 cycles more than before (the
    target of 1364 may be overshot by the last instruction, by 6 cycles at
    most), and at least 1364 unless the CPU has halted. *)
Theorem run_frame_cycle_budget (fuel : nat) (e e' : SNESEmulator.state) :
  SNESEmulator.running e = true ->
  SNESEmulator.run_frame fuel e = (e', Ret tt) ->
  let spent := CPU.clock_cycles (SNESEmulator.cpu e')
               - CPU.clock_cycles (SNESEmulator.cpu e) in
  0 <= spent <= 1370 /\
  (CPU.running (SNESEmulator.cpu e') = true -> 1364 <= spent).
Proof.
  intros Hrun H.
  destruct (run_frame_Ret fuel e e' Hrun H) as (e1 & c' & p & Hloop & _ & ->).
  apply loop_budget in Hloop as (H1 & H2 & H3 & H4 & _).
  cbn. unfold SNESEmulator.target_cycles in *. split; [lia |].
  intros Hr. specialize (H4 Hr). lia.
Qed.

Lemma run_frame_cycle_budget_witness :
  exists e',
    SNESEmulator.running halted_emulator = true /\
    SNESEmulator.run_frame 1 halted_emulator = (e', Ret tt) /\
    let spent := CPU.clock_cycles (SNESEmulator.cpu e')
                 - CPU.clock_cycles (SNESEmulator.cpu halted_emulator) in
    0 <= spent <= 1370 /\
    (CPU.running (SNESEmulator.cpu e') = true -> 1364 <= spent).
Proof.
  destruct (render_frame_returns palette_ppu palette_ppu_wf) as (p & Hr & _).
  exists (frame_end p halted_emulator).
  assert (SNESEmulator.running halted_emulator = true) as H1 by reflexivity.
  assert (SNESEmulator.run_frame 1 halted_emulator
          = (frame_end p halted_emulator, Ret tt)) as H2.
  { apply run_frame_halted; [reflexivity | vm_compute; reflexivity | exact Hr]. }
  split; [exact H1 |]. split; [exact H2 |].
  exact (run_frame_cycle_budget 1 halted_emulator _ H1 H2).
Defined.

(** A timer tick that returns keeps the number of queued [run_frame]
    callbacks when the emulator is running (the callback that fired queues
    its successor) and lowers it by one when it is paused: a chain of
    callbacks ends only on a tick that finds the emulator paused. *)
Theorem tick_callbacks (fuel : nat) (e e' : SNESEmulator.state) :
  (0 < SNESEmulator.pending e)%nat ->
  SNESEmulator.tick fuel e = (e', Ret tt) ->
  SNESEmulator.pending e' =
    (if SNESEmulator.running e then SNESEmulator.pending e
     else Nat.pred (SNESEmulator.pending e)) /\
  SNESEmulator.running e' = SNESEmulator.running e.
Proof.
  intros Hp H. unfold SNESEmulator.tick, bind at 1, gets in H.
  destruct (SNESEmulator.pending e) as [| n] eqn:Hn; [lia |].
  unfold bind at 1, modify at 1 in H.
  destruct (SNESEmulator.running e) eqn:Hrun.
  - apply run_frame_Ret in H as (e1 & c' & p & Hloop & _ & ->); [| done].
    apply loop_budget in Hloop as (_ & _ & _ & _ & _ & H6 & H7 & _).
    cbn in *. split; congruence.
  - rewrite run_frame_paused in H by done. injection H as <-. cbn.
    split; congruence.
Qed.

Lemma tick_callbacks_witness :
  exists e',
    (0 < SNESEmulator.pending halted_emulator)%nat /\
    SNESEmulator.tick 1 halted_emulator = (e', Ret tt) /\
    SNESEmulator.pending e' =
      (if SNESEmulator.running halted_emulator
       then SNESEmulator.pending halted_emulator
       else Nat.pred (SNESEmulator.pending halted_emulator)) /\
    SNESEmulator.running e' = SNESEmulator.running halted_emulator.
Proof.
  destruct (render_frame_returns palette_ppu palette_ppu_wf) as (p & Hr & _).
  exists (frame_end p (SNESEmulator.with_pending 0 halted_emulator)).
  assert (0 < SNESEmulator.pending halted_emulator)%nat as H1 by (cbn; lia).
  assert (SNESEmulator.tick 1 halted_emulator
          = (frame_end p (SNESEmulator.with_pending 0 halted_emulator),
             Ret tt)) as H2.
  { unfold SNESEmulator.tick, bind at 1, gets.
    change (SNESEmulator.pending halted_emulator) with 1%nat. cbv iota beta.
    unfold bind at 1, modify at 1.
    apply run_frame_halted; [reflexivity | vm_compute; reflexivity | exact Hr]. }
  split; [exact H1 |]. split; [exact H2 |].
  exact (tick_callbacks 1 halted_emulator _ H1 H2).
Defined.

(** Pause does not cancel the queued callback, and Start runs a frame that
    queues another one: after Pause and Start on a running emulator there
    is one more callback queued than before, so that from then on one more
    frame is run in every timer period. *)
Theorem pause_resume_adds_a_callback (fuel : nat) (e e' : SNESEmulator.state) :
  SNESEmulator.running e = true ->
  (SNESEmulator.stop ;; SNESEmulator.start fuel) e = (e', Ret tt) ->
  SNESEmulator.pending e' = S (SNESEmulator.pending e) /\
  SNESEmulator.running e' = true.
Proof.
  intros Hrun H.
  unfold bind at 1, SNESEmulator.stop, bind at 1, gets at 1 in H.
  rewrite Hrun in H. cbn [when] in H.
  unfold bind at 1, modify at 1, SNESEmulator.status_config at 1,
    modify at 1 in H.
  unfold SNESEmulator.start, bind at 1, gets at 1 in H. cbn [when negb
    SNESEmulator.running SNESEmulator.with_status SNESEmulator.with_running]
    in H.
  unfold bind at 1, modify at 1 in H.
  unfold bind at 1, SNESEmulator.on_cpu at 1, zoom, modify at 1 in H.
  unfold bind at 1 in H.
  match type of H with
  | context [SNESEmulator.run_frame fuel ?e2] =>
      destruct (SNESEmulator.run_frame fuel e2) as [e3 [[] | ex |]] eqn:Hf;
        [| done | done]
  end.
  unfold SNESEmulator.status_config, modify in H. injection H as <-.
  apply run_frame_Ret in Hf as (e1 & c' & p & Hloop & _ & ->); [| done].
  apply loop_budget in Hloop as (_ & _ & _ & _ & _ & H6 & H7 & _).
  cbn in *. split; congruence.
Qed.

Lemma pause_resume_adds_a_callback_witness :
  exists e',
    SNESEmulator.running halted_emulator = true /\
    (SNESEmulator.stop ;; SNESEmulator.start 2) halted_emulator
      = (e', Ret tt) /\
    SNESEmulator.pending e' = S (SNESEmulator.pending halted_emulator) /\
    SNESEmulator.running e' = true.
Proof.
  assert (SNESEmulator.running halted_emulator = true) as H1 by reflexivity.
  assert (snd ((SNESEmulator.stop ;; SNESEmulator.start 2) halted_emulator)
          = Ret tt) as H2 by (vm_compute; reflexivity).
  exists (fst ((SNESEmulator.stop ;; SNESEmulator.start 2) halted_emulator)).
  assert ((SNESEmulator.stop ;; SNESEmulator.start 2) halted_emulator
          = (fst ((SNESEmulator.stop ;; SNESEmulator.start 2) halted_emulator),
             Ret tt)) as H3.
  { rewrite <- H2. apply surjective_pairing. }
  split; [exact H1 |]. split; [exact H3 |].
  exact (pause_resume_adds_a_callback 2 halted_emulator _ H1 H3).
Defined.

(** ** The test environment *)

Section Setup.
Import SNESEmulator.

Lemma with_cpu_cpu (e : state) : with_cpu (cpu e) e = e.
Proof. by destruct e. Qed.

Lemma with_memory_memory (c : CPU.state) : CPU.with_memory (CPU.memory c) c = c.
Proof. by destruct c. Qed.

Lemma for_each_ext {S J : Type} (l : list J) (f g : J -> M S unit) :
  (forall x, f x = g x) -> for_each l f = for_each l g.
Proof.
  intros H. induction l as [| x l IH]; [done |]. cbn. by rewrite H, IH.
Qed.

Lemma on_cpu_bind {T U : Type} (m : M CPU.state T) (k : T -> M CPU.state U)
    (e : state) :
  (x <- on_cpu m ;; on_cpu (k x)) e = on_cpu (x <- m ;; k x) e.
Proof.
  unfold on_cpu, zoom, bind.
  destruct (m (cpu e)) as [c [v | ex |]]; [| done | done].
  cbn. by destruct (k v c).
Qed.

Lemma on_cpu_for_each {J : Type} (l : list J) (f : J -> M CPU.state unit)
    (e : state) :
  for_each l (fun x => on_cpu (f x)) e = on_cpu (for_each l f) e.
Proof.
  revert e. induction l as [| x l IH]; intros e.
  - cbn. unfold on_cpu, zoom, ret. by rewrite with_cpu_cpu.
  - cbn [for_each]. rewrite <- on_cpu_bind. unfold bind.
    destruct (on_cpu (f x) e) as [e1 [[] | ex |]]; [apply IH | done | done].
Qed.

(** The last two statements of [setup_test_environment] are [load_program]
    run on the CPU. *)
Lemma setup_cpu_part (e : state) :
  (for_each (enumerate program) (fun '(i, byte) =>
     on_cpu (CPU.mem_set (0x8000 + i) byte)) ;;
   on_cpu (CPU.write_word 0xFFFC 0x8000)) e
  = on_cpu load_program e.
Proof.
  unfold load_program. rewrite <- on_cpu_bind. unfold bind at 1 2.
  rewrite <- on_cpu_for_each.
  rewrite (for_each_ext _ _
    (fun x => on_cpu (let '(i, byte) := x in CPU.mem_set (0x8000 + i) byte)));
    [done |].
  by intros [i byte].
Qed.

Lemma vram_set_eq (i v : Z) (e : state) :
  PPU.wf (ppu e) -> 0 <= i < 0x8000 -> CPU.is_byte v ->
  vram_set i v e =
  (with_ppu (PPU.with_vram (<[Z.to_nat i := v]> (PPU.vram (ppu e))) (ppu e)) e,
   Ret tt).
Proof.
  intros [Hlen _ _] Hi Hv.
  unfold vram_set, on_ppu, zoom, bind, gets, lift, modify.
  rewrite (setitem_byte _ _ _ (Z.to_nat i)); [done | | done].
  apply py_index_nonneg. lia.
Qed.

End Setup.

Section SetupPPU.
Import SNESEmulator.

Lemma ppu_only_with_ppu (e0 e : state) (p : PPU.state) :
  e = with_ppu (ppu e) e0 -> with_ppu p e = with_ppu (ppu (with_ppu p e)) e0.
Proof.
  destruct e, e0. cbn. intros [= -> -> -> -> ->]. reflexivity.
Qed.

Lemma returns_vram_set (e0 : state) (i v : Z) :
  0 <= i < 0x8000 -> CPU.is_byte v ->
  returns (ppu_only e0) (vram_set i v) (fun _ => True).
Proof.
  intros Hi Hv e [Hwf He]. rewrite (vram_set_eq i v e Hwf Hi Hv).
  eexists _, tt. split; [done |]. split; [| done]. split.
  - destruct Hwf as [Hlen Hbytes Hpal]. split; cbn.
    + by rewrite length_insert.
    + by apply Forall_insert.
    + done.
  - by apply ppu_only_with_ppu.
Qed.

Lemma returns_setup_ppu (e0 : state) :
  returns (ppu_only e0)
    (for_each (range 256) (fun i =>
       vram_set (i * 16) 0xAA ;;
       vram_set (i * 16 + 1) 0x55) ;;
     on_ppu (modify (PPU.with_palette
       [ (0, 0, 0); (255, 0, 0); (0, 255, 0); (0, 0, 255) ])) ;;
     for_each (range 28) (fun y =>
       for_each (range 32) (fun x =>
         vram_set (0x1000 + y * 32 + x) ((x + y) mod 256))))
    (fun _ => True).
Proof.
  eapply returns_bind.
  { apply returns_for_each. intros i Hi%elem_of_range.
    eapply returns_bind; [| intros _ _];
      (apply returns_vram_set; [lia | unfold CPU.is_byte; lia]). }
  intros _ _. eapply (returns_bind _ _ _ (fun _ => True)).
  { intros e [Hwf He]. eexists _, tt. split; [reflexivity |].
    split; [| done]. split.
    - destruct Hwf as [Hlen Hbytes Hpal]. split; cbn; [done | done | lia].
    - by apply ppu_only_with_ppu. }
  intros _ _. apply returns_for_each. intros y Hy%elem_of_range.
  apply returns_for_each. intros x Hx%elem_of_range.
  apply returns_vram_set; [lia |].
  pose proof (Z.mod_pos_bound (x + y) 256 ltac:(lia)). unfold CPU.is_byte. lia.
Qed.

(** [setup_test_environment] on an emulator with a well-formed PPU: the PPU
    statements return, and the CPU is what [load_program] makes of it. *)
Lemma setup_test_environment_eq (e : state) :
  PPU.wf (ppu e) ->
  exists p',
    PPU.wf p' /\
    setup_test_environment e =
    (with_cpu (fst (load_program (cpu e))) (with_ppu p' e),
     snd (load_program (cpu e))).
Proof.
  intros Hwf.
  destruct (returns_setup_ppu e e) as (e1 & [] & E & [Hwf1 He1] & _).
  { split; [done |]. by destruct e. }
  exists (ppu e1). split; [done |].
  transitivity
    ((for_each (enumerate program) (fun '(i, byte) =>
        on_cpu (CPU.mem_set (0x8000 + i) byte)) ;;
      on_cpu (CPU.write_word 0xFFFC 0x8000)) e1).
  - unfold setup_test_environment. unfold bind at 1.
    unfold bind at 1 in E.
    destruct (for_each (range 256) _ e) as [ea [[] | ex |]];
      [| done | done].
    unfold bind at 1. unfold bind at 1 in E.
    destruct (on_ppu _ ea) as [eb [[] | ex |]]; [| done | done].
    unfold bind at 1.
    destruct (for_each (range 28) _ eb) as [ec [[] | ex |]]; [| done | done].
    by injection E as ->.
  - rewrite setup_cpu_part. unfold on_cpu, zoom. rewrite <- He1.
    replace (cpu e1) with (cpu e) by (rewrite He1; reflexivity).
    by destruct (load_program (cpu e)).
Qed.

End SetupPPU.

Section LoadProgram.

Lemma load_loop (l : list Z) :
  forall (k : nat) (c : CPU.state),
    CPU.wf c -> Forall CPU.is_byte l ->
    0x8000 + Z.of_nat k + Z.of_nat (length l) <= 0x10000 ->
    exists m',
      for_each (imap (fun i v => (Z.of_nat (k + i), v)) l)
        (fun '(i, byte) => CPU.mem_set (0x8000 + i) byte) c
      = (CPU.with_memory m' c, Ret tt) /\
      CPU.wf (CPU.with_memory m' c) /\
      (forall j b, l !! j = Some b ->
         m' !! Z.to_nat (0x8000 + Z.of_nat (k + j)) = Some b) /\
      (forall n, (n < Z.to_nat (0x8000 + Z.of_nat k))%nat ->
         m' !! n = CPU.memory c !! n).
Proof.
  induction l as [| x l IH]; intros k c Hwf Hl Hk.
  - exists (CPU.memory c). cbn. rewrite with_memory_memory.
    split; [done |]. split; [done |]. split; [| done].
    intros j b H. by rewrite lookup_nil in H.
  - apply Forall_cons in Hl as [Hx Hl]. cbn [length] in Hk.
    pose proof (CPU.wf_length c Hwf) as Hlen.
    rewrite imap_cons. cbn [for_each]. unfold bind at 1.
    rewrite mem_set_eq.
    rewrite (setitem_byte _ _ _ (Z.to_nat (0x8000 + Z.of_nat (k + 0))));
      [| apply py_index_nonneg; lia | done].
    set (c1 := CPU.with_memory _ c).
    assert (CPU.wf c1) as Hwf1 by (by apply wf_with_memory_insert).
    destruct (IH (S k) c1 Hwf1 Hl ltac:(lia)) as (m' & E & Hwf' & Hin & Hout).
    exists m'. split; [| split; [| split]].
    + etransitivity; [| exact E]. f_equal. apply imap_ext. intros i v _. cbn.
      do 2 f_equal. lia.
    + done.
    + intros [| j] b Hb.
      * injection Hb as <-. rewrite Hout by lia. unfold c1. cbn.
        apply list_lookup_insert_eq. lia.
      * cbn in Hb. specialize (Hin j b Hb).
        by replace (k + S j)%nat with (S k + j)%nat by lia.
    + intros n Hn. rewrite Hout by lia. unfold c1. cbn.
      apply list_lookup_insert_ne. lia.
Qed.

(** [load_program] on a well-formed CPU returns; it has changed the memory
    only, and the program is in it. *)
Lemma load_program_spec (c : CPU.state) :
  CPU.wf c ->
  exists m',
    load_program c = (CPU.with_memory m' c, Ret tt) /\
    CPU.wf (CPU.with_memory m' c) /\
    program_loaded (CPU.with_memory m' c).
Proof.
  intros Hwf.
  destruct (load_loop SNESEmulator.program 0 c Hwf) as (m1 & E & Hwf1 & Hin & _).
  { unfold SNESEmulator.program, CPU.is_byte.
    repeat (constructor; [lia |]). constructor. }
  { cbn. lia. }
  unfold load_program, bind. unfold enumerate.
  change (fun i v => (Z.of_nat i, v))
    with (fun (i : nat) (v : Z) => (Z.of_nat (0 + i), v)).
  rewrite E. rewrite (write_word_in_range _ _ _ Hwf1) by lia.
  cbn [CPU.memory CPU.with_memory].
  eexists. split; [reflexivity |].
  pose proof (CPU.wf_length _ Hwf1) as Hlen. cbn in Hlen.
  split.
  - destruct Hwf1 as [_ Hbytes]. cbn in Hbytes. split; cbn.
    + by rewrite !length_insert.
    + change (Z.land (Z.shiftr 0x8000 8) 0xFF) with 0x80.
      change (Z.land 0x8000 0xFF) with 0.
      apply Forall_insert; [apply Forall_insert; [done |] |];
        unfold CPU.is_byte; lia.
  - intros i b Hb. cbn.
    pose proof (lookup_lt_Some _ _ _ Hb) as Hi.
    change (length SNESEmulator.program) with 18%nat in Hi.
    rewrite !list_lookup_insert_ne by lia. by apply Hin.
Qed.

End LoadProgram.

(** ** The emulator as shipped *)

Ltac emu_simpl :=
  cbn [SNESEmulator.cpu SNESEmulator.ppu SNESEmulator.running
       SNESEmulator.status SNESEmulator.pending SNESEmulator.events
       SNESEmulator.with_cpu SNESEmulator.with_ppu SNESEmulator.with_running
       SNESEmulator.with_status SNESEmulator.with_pending
       SNESEmulator.with_events fst snd].

Section Demo.
Import SNESEmulator.

Lemma program_getitem (c : CPU.state) (i : nat) (b : Z) :
  program_loaded c -> program !! i = Some b ->
  getitem (CPU.memory c) (0x8000 + Z.of_nat i) = Ret b.
Proof. intros H Hb. apply getitem_nonneg; [lia | by apply H]. Qed.

Lemma is_byte_land_0xFF (v : Z) : CPU.is_byte (Z.land v 0xFF).
Proof.
  assert (Z.land v 0xFF = v mod 256) as ->.
  { change 0xFF with (Z.ones 8). by rewrite Z.land_ones by lia. }
  pose proof (Z.mod_pos_bound v 256 ltac:(lia)) as H.
  unfold CPU.is_byte. lia.
Qed.

(** A store to an address below the program keeps it. *)
Lemma program_loaded_insert (c : CPU.state) (a v : Z) (m : list Z) :
  program_loaded c -> 0 <= a < 0x8000 ->
  m = <[Z.to_nat a := v]> (CPU.memory c) ->
  forall i b, program !! i = Some b ->
    m !! Z.to_nat (0x8000 + Z.of_nat i) = Some b.
Proof.
  intros H Ha -> i b Hb. rewrite list_lookup_insert_ne by lia. by apply H.
Qed.

Ltac in_starts :=
  unfold instruction_starts;
  repeat first [apply list_elem_of_here | apply list_elem_of_further].

Ltac fetched Hpc Hprog c i :=
  rewrite Hpc; exact (program_getitem c i _ Hprog eq_refl).

Lemma step_LDA (c : CPU.state) (pc v : Z) (i : nat) :
  runs_program c -> CPU.PC c = pc -> pc = 0x8000 + Z.of_nat i ->
  program !! i = Some 0xA9 -> program !! S i = Some v ->
  pc + 1 + 1 ∈ instruction_starts ->
  exists c' n, CPU.execute c = (c', Ret n) /\ runs_program c' /\ 2 <= n.
Proof.
  intros (Hwf & Hprog & _ & Hrun) Hpc -> Hop Hv Hnext.
  rewrite (execute_LDA_immediate_eq c v).
  - eexists _, 2. split; [reflexivity |]. split; [| lia].
    split; [destruct Hwf; by split |]. split; [exact Hprog |].
    split; [| exact Hrun]. cbn. by rewrite Hpc.
  - rewrite Hpc. by apply program_getitem.
  - rewrite Hpc.
    replace (0x8000 + Z.of_nat i + 1) with (0x8000 + Z.of_nat (S i)) by lia.
    by apply program_getitem.
Qed.

Lemma step_STA (c : CPU.state) (pc lo hi : Z) (i : nat) :
  runs_program c -> CPU.PC c = pc -> pc = 0x8000 + Z.of_nat i ->
  program !! i = Some 0x8D -> program !! S i = Some lo ->
  program !! S (S i) = Some hi ->
  CPU.is_byte lo -> 0 <= lo + 256 * hi < 0x8000 ->
  pc + 1 + 1 + 1 ∈ instruction_starts ->
  exists c' n, CPU.execute c = (c', Ret n) /\ runs_program c' /\ 2 <= n.
Proof.
  intros (Hwf & Hprog & _ & Hrun) Hpc -> Hop Hlo Hhi Blo Ha Hnext.
  pose proof (CPU.wf_length c Hwf) as Hlen.
  rewrite (execute_STA_absolute_eq c lo hi (Z.to_nat (lo + 256 * hi))).
  - eexists _, 4. split; [reflexivity |]. split; [| lia].
    split; [| split; [| split; [| exact Hrun]]].
    + destruct Hwf as [_ Hbytes]. split; cbn.
      * by rewrite length_insert.
      * apply Forall_insert; [done | apply is_byte_land_0xFF].
    + exact (program_loaded_insert c (lo + 256 * hi) (Z.land (CPU.A c) 0xFF)
               _ Hprog Ha eq_refl).
    + cbn. by rewrite Hpc.
  - done.
  - rewrite Hpc. by apply program_getitem.
  - rewrite Hpc.
    replace (0x8000 + Z.of_nat i + 1) with (0x8000 + Z.of_nat (S i)) by lia.
    by apply program_getitem.
  - rewrite Hpc.
    replace (0x8000 + Z.of_nat i + 1 + 1)
      with (0x8000 + Z.of_nat (S (S i))) by lia.
    by apply program_getitem.
  - apply py_index_nonneg. lia.
Qed.

Lemma step_JMP (c : CPU.state) :
  runs_program c -> CPU.PC c = 0x800F ->
  exists c' n, CPU.execute c = (c', Ret n) /\ runs_program c' /\ 2 <= n.
Proof.
  intros (Hwf & Hprog & _ & Hrun) Hpc.
  rewrite (execute_JMP c 0x00 0x80).
  - eexists _, 3. split; [reflexivity |]. split; [| lia].
    split; [destruct Hwf; by split |]. split; [exact Hprog |].
    split; [| exact Hrun]. cbn. in_starts.
  - unfold CPU.is_byte. lia.
  - fetched Hpc Hprog c 15%nat.
  - fetched Hpc Hprog c 16%nat.
  - fetched Hpc Hprog c 17%nat.
Qed.

(** The CPU that runs the test program executes its next instruction and
    goes on running it. *)
Lemma program_step (c : CPU.state) :
  runs_program c ->
  exists c' n, CPU.execute c = (c', Ret n) /\ runs_program c' /\ 2 <= n.
Proof.
  intros Hc. pose proof Hc as (_ & _ & Hpc & _).
  unfold instruction_starts in Hpc.
  repeat (apply elem_of_cons in Hpc as [Hpc | Hpc]).
  all: try (by apply elem_of_nil in Hpc).
  - apply (step_LDA c _ 0x01 0 Hc Hpc);
      first [done | cbn; in_starts].
  - apply (step_STA c _ 0x00 0x20 2 Hc Hpc);
      first [done | unfold CPU.is_byte; lia | cbn; in_starts].
  - apply (step_LDA c _ 0x3F 5 Hc Hpc);
      first [done | cbn; in_starts].
  - apply (step_STA c _ 0x06 0x20 7 Hc Hpc);
      first [done | unfold CPU.is_byte; lia | cbn; in_starts].
  - apply (step_LDA c _ 0x00 10 Hc Hpc);
      first [done | cbn; in_starts].
  - apply (step_STA c _ 0x06 0x20 12 Hc Hpc);
      first [done | unfold CPU.is_byte; lia | cbn; in_starts].
  - by apply step_JMP.
Qed.

(** With the test program the loop of a frame tick returns, after at most
    682 instructions. *)
Lemma program_loop (fuel : nat) :
  forall (cycles : Z) (e : state),
    runs_program (cpu e) ->
    (0 < fuel)%nat -> target_cycles + 1 - cycles < 2 * Z.of_nat fuel ->
    exists e1 c',
      while fuel loop_cond loop_body cycles e = (e1, Ret c') /\
      runs_program (cpu e1) /\ ppu e1 = ppu e /\ running e1 = running e.
Proof.
  induction fuel as [| fuel IH]; intros cycles e Hc H0 Hfuel; [lia |].
  destruct (Z.lt_ge_cases cycles target_cycles) as [Hlt | Hge].
  2: { exists e, cycles. by rewrite loop_budget_reached. }
  destruct (program_step (cpu e) Hc) as (c' & n & E & Hc' & Hn).
  rewrite (loop_step fuel e cycles n c'); [| done | by destruct Hc as (_ & _ & _ & ?) | done].
  unfold target_cycles in *.
  destruct (IH (cycles + n) (with_cpu c' (with_events (Execute :: events e) e)))
    as (e1 & c1 & E1 & H1 & H2 & H3); [done | lia | lia |].
  by exists e1, c1.
Qed.

(** A frame tick of the running emulator returns and keeps the
    invariant. *)
Lemma program_frame (fuel : nat) (e : state) :
  session_inv e -> running e = true -> (683 <= fuel)%nat ->
  exists e', run_frame fuel e = (e', Ret tt) /\ session_inv e' /\
             running e' = true.
Proof.
  intros [Hc Hp] Hrun Hfuel.
  destruct (program_loop fuel 0 e Hc) as (e1 & c1 & E1 & Hc1 & Hp1 & Hr1);
    [lia | unfold target_cycles; lia |].
  destruct (render_frame_returns (ppu e1)) as (p & Hr & Hwf);
    [by rewrite Hp1 |].
  exists (frame_end p e1). split.
  - by apply (run_frame_running fuel e e1 c1).
  - split; [by split |]. cbn. congruence.
Qed.

Lemma stop_eq (e : state) :
  stop e = (if running e then with_status "Paused" (with_running false e)
            else e, Ret tt).
Proof. unfold stop, bind, gets. by destruct (running e). Qed.

Lemma runs_program_loaded (m' : list Z) :
  CPU.wf (CPU.with_memory m' CPU.init) ->
  program_loaded (CPU.with_memory m' CPU.init) ->
  runs_program (CPU.with_memory m' CPU.init).
Proof.
  intros Hwf Hprog. split; [done |]. split; [done |].
  split; [| reflexivity].
  change (CPU.PC (CPU.with_memory m' CPU.init)) with 0x8000. in_starts.
Qed.

(** What the tail of [reset_emulator] and of the constructor does, from
    [setup_test_environment] on and from a fresh CPU. *)
Lemma setup_fresh (e : state) (k : unit -> M state unit) :
  PPU.wf (ppu e) -> cpu e = CPU.init ->
  exists p' m',
    PPU.wf p' /\
    fst (load_program CPU.init) = CPU.with_memory m' CPU.init /\
    runs_program (CPU.with_memory m' CPU.init) /\
    bind setup_test_environment k e =
    k tt (with_cpu (CPU.with_memory m' CPU.init) (with_ppu p' e)).
Proof.
  intros Hwf Hc.
  destruct (setup_test_environment_eq e Hwf) as (p' & Hp' & E).
  destruct (load_program_spec CPU.init init_wf) as (m' & El & Hwf' & Hprog).
  exists p', m'. split; [done |]. split; [by rewrite El |].
  split; [by apply runs_program_loaded |].
  unfold bind. rewrite E, Hc, El. reflexivity.
Qed.

Lemma reset_emulator_eq (e : state) :
  PPU.wf (ppu e) ->
  exists e' m',
    reset_emulator e = (e', Ret tt) /\
    cpu e' = CPU.with_memory m' CPU.init /\
    fst (load_program CPU.init) = CPU.with_memory m' CPU.init /\
    runs_program (cpu e') /\ PPU.wf (ppu e') /\
    running e' = false /\ pending e' = pending e /\
    status e' = "System reset"%string.
Proof.
  intros Hwf. unfold reset_emulator, bind at 1. rewrite stop_eq.
  set (e1 := if running e then _ else e).
  assert (PPU.wf (ppu e1) /\ running e1 = false /\ pending e1 = pending e)
    as (Hwf1 & Hr1 & Hp1).
  { unfold e1. destruct (running e) eqn:Hr; by emu_simpl. }
  unfold bind at 1, modify at 1.
  destruct (setup_fresh (with_cpu CPU.init e1)
              (fun _ => update_debug_info ;; status_config "System reset"))
    as (p' & m' & Hp' & El & Hrp & ->); [done | done |].
  eexists _, m'. split; [reflexivity |]. emu_simpl.
  split; [reflexivity |]. split; [exact El |]. split; [exact Hrp |].
  split; [exact Hp' |]. split; [exact Hr1 |]. split; [exact Hp1 | reflexivity].
Qed.

Lemma init_eq :
  exists e m',
    init = (e, Ret tt) /\
    cpu e = CPU.with_memory m' CPU.init /\
    fst (load_program CPU.init) = CPU.with_memory m' CPU.init /\
    session_inv e.
Proof.
  unfold init.
  destruct (setup_fresh (mkState CPU.init PPU.init false "Ready" 0 [])
              (fun _ => update_debug_info))
    as (p' & m' & Hp' & El & Hrp & ->); [exact init_ppu_wf | done |].
  eexists _, m'. split; [reflexivity |]. emu_simpl.
  split; [reflexivity |]. split; [exact El |]. split; [exact Hrp | exact Hp'].
Qed.

End Demo.

Section Session.
Import SNESEmulator Menu.

Lemma show_cpu_state_Ret (c : CPU.state) :
  CPU.wf c -> snd (Window.show_cpu_state c []) = Ret tt.
Proof.
  intros Hwf.
  destruct (disassembly_loop c (range2 (-5) 6) Hwf
    [ Window.Heading "Registers:";
      Window.Register "A" (CPU.A c); Window.Register "X" (CPU.X c);
      Window.Register "Y" (CPU.Y c); Window.Register "PC" (CPU.PC c);
      Window.Register "SP" (CPU.SP c); Window.Register "P" (CPU.P c);
      Window.Heading "Disassembly:" ])
    as (rows & E & _).
  assert (Window.show_cpu_state c [] = (_, Ret tt)) as E' by exact E.
  by rewrite E'.
Qed.

Lemma start_returns (fuel : nat) (e : state) :
  session_inv e -> (683 <= fuel)%nat ->
  exists e', start fuel e = (e', Ret tt) /\ session_inv e'.
Proof.
  intros He Hfuel. destruct (running e) eqn:Hrun.
  - exists e. by rewrite start_running.
  - rewrite start_paused by done.
    destruct (program_frame fuel
                (with_cpu (CPU.with_running true (cpu e)) (with_running true e)))
      as (e' & E & He' & _); [| done | done |].
    { destruct He as [(Hwf & Hprog & Hpc & _) Hp]. split; [| done].
      split; [destruct Hwf; by split |]. done. }
    unfold bind. rewrite E. eexists. split; [reflexivity |].
    destruct He' as [Hc' Hp']. by split.
Qed.

Lemma tick_returns (fuel : nat) (e : state) :
  session_inv e -> (683 <= fuel)%nat ->
  exists e', tick fuel e = (e', Ret tt) /\ session_inv e'.
Proof.
  intros He Hfuel. unfold tick, bind at 1, gets.
  destruct (pending e) as [| n]; [by exists e |].
  unfold bind, modify.
  destruct (running e) eqn:Hrun.
  - destruct (program_frame fuel (with_pending n e)) as (e' & E & He' & _);
      [by destruct He | done | done |].
    rewrite E. by exists e'.
  - rewrite run_frame_paused by done. eexists. split; [reflexivity |].
    by destruct He.
Qed.

Lemma reset_returns (e : state) :
  PPU.wf (ppu e) ->
  exists e', reset_emulator e = (e', Ret tt) /\ session_inv e'.
Proof.
  intros Hwf.
  destruct (reset_emulator_eq e Hwf) as (e' & m' & E & _ & _ & Hc & Hp & _).
  exists e'. by split.
Qed.

Lemma perform_returns (fuel : nat) (c : command) (e : state) :
  session_inv e -> (683 <= fuel)%nat -> c <> CloseROM ->
  exists e', perform fuel c e = (e', Ret tt) /\ session_inv e'.
Proof.
  intros He Hfuel Hc. destruct c; cbn [perform]; [| done | | | | |].
  - unfold open_rom, bind, status_config, modify.
    apply reset_returns. by destruct He.
  - by apply start_returns.
  - rewrite stop_eq. eexists. split; [reflexivity |].
    destruct (running e); by destruct He.
  - apply reset_returns. by destruct He.
  - exists e. split; [| done]. rewrite show_cpu_state_Ret; [done |].
    by destruct He as [[] _].
  - by apply tick_returns.
Qed.

Lemma session_returns (fuel : nat) (cs : list command) :
  (683 <= fuel)%nat -> CloseROM ∉ cs ->
  forall e, session_inv e ->
    Forall (fun o => o = Ret tt) (snd (session fuel cs e)) /\
    session_inv (fst (session fuel cs e)).
Proof.
  intros Hfuel. induction cs as [| c cs IH]; intros Hcs e He; [by cbn |].
  apply not_elem_of_cons in Hcs as [Hc Hcs].
  destruct (perform_returns fuel c e He Hfuel) as (e1 & E & He1);
    [congruence |].
  cbn [session]. rewrite E.
  destruct (IH Hcs e1 He1) as [H1 H2].
  destruct (session fuel cs e1) as [e2 os]. cbn in *.
  split; [by constructor | done].
Qed.

End Session.

(** The emulator as shipped does not fail: the constructor returns, and
    from the emulator it builds every command of the menus and the toolbar
    other than Close ROM, and every timer tick, returns, in any order and
    any number (with a loop bound of 683 iterations or more for the frame
    loop); the CPU never halts. *)
Theorem session_never_raises (fuel : nat) (cs : list Menu.command) :
  (683 <= fuel)%nat -> Menu.CloseROM ∉ cs ->
  snd SNESEmulator.init = Ret tt /\
  Forall (fun o => o = Ret tt)
    (snd (Menu.session fuel cs (fst SNESEmulator.init))) /\
  CPU.running
    (SNESEmulator.cpu (fst (Menu.session fuel cs (fst SNESEmulator.init))))
  = true.
Proof.
  intros Hfuel Hcs. destruct init_eq as (e & m' & -> & _ & _ & He).
  split; [done |]. cbn [fst].
  destruct (session_returns fuel cs Hfuel Hcs e He)
    as [H1 [(_ & _ & _ & H2) _]].
  by split.
Qed.

Lemma session_never_raises_witness :
  let cs := [Menu.Start; Menu.Timer; Menu.CPUState; Menu.Pause; Menu.Start;
             Menu.Reset; Menu.OpenROM; Menu.Start; Menu.Timer] in
  (683 <= 683)%nat /\ (Menu.CloseROM ∉ cs) /\
  snd SNESEmulator.init = Ret tt /\
  Forall (fun o => o = Ret tt)
    (snd (Menu.session 683 cs (fst SNESEmulator.init))) /\
  CPU.running
    (SNESEmulator.cpu (fst (Menu.session 683 cs (fst SNESEmulator.init))))
  = true.
Proof.
  intros cs.
  assert (683 <= 683)%nat as H1 by lia.
  assert (Menu.CloseROM ∉ cs) as H2.
  { unfold cs. intros H.
    repeat (apply elem_of_cons in H as [H | H]; [discriminate |]).
    by apply elem_of_nil in H. }
  split; [exact H1 |]. split; [exact H2 |].
  exact (session_never_raises 683 cs H1 H2).
Defined.

(** Reset reboots the CPU whatever state it was in: the CPU is the one the
    constructor builds (registers, cleared memory with the test program and
    the reset vector, cycle counter 0, not halted).  The emulator is left
    paused, and the queued callbacks stay queued. *)
Theorem reset_emulator_reboots_cpu (e : SNESEmulator.state) :
  PPU.wf (SNESEmulator.ppu e) ->
  exists e',
    SNESEmulator.reset_emulator e = (e', Ret tt) /\
    SNESEmulator.cpu e' = SNESEmulator.cpu (fst SNESEmulator.init) /\
    SNESEmulator.running e' = false /\
    SNESEmulator.pending e' = SNESEmulator.pending e /\
    SNESEmulator.status e' = "System reset"%string.
Proof.
  intros Hwf.
  destruct (reset_emulator_eq e Hwf)
    as (e' & m' & E & Hc & Hl & _ & _ & Hr & Hp & Hs).
  destruct init_eq as (e0 & m0 & E0 & Hc0 & Hl0 & _).
  exists e'. rewrite E0. cbn [fst].
  split; [exact E |].
  split; [congruence | split; [exact Hr | split; [exact Hp | exact Hs]]].
Qed.

Lemma reset_emulator_reboots_cpu_witness :
  PPU.wf (SNESEmulator.ppu nop_emulator) /\
  exists e',
    SNESEmulator.reset_emulator nop_emulator = (e', Ret tt) /\
    SNESEmulator.cpu e' = SNESEmulator.cpu (fst SNESEmulator.init) /\
    SNESEmulator.running e' = false /\
    SNESEmulator.pending e' = SNESEmulator.pending nop_emulator /\
    SNESEmulator.status e' = "System reset"%string.
Proof.
  assert (PPU.wf (SNESEmulator.ppu nop_emulator)) as H
    by exact palette_ppu_wf.
  split; [exact H |].
  exact (reset_emulator_reboots_cpu nop_emulator H).
Defined.

(** ** Close ROM *)

Section CloseROM.
Import SNESEmulator.

Lemma init_opcode : getitem (CPU.memory CPU.init) (CPU.PC CPU.init) = Ret 0x00.
Proof.
  change (CPU.PC CPU.init) with 0x8000.
  change (CPU.memory CPU.init) with (replicate (Z.to_nat 0x10000) 0).
  apply getitem_nonneg; [lia |]. apply lookup_replicate_2. lia.
Qed.

Lemma close_rom_eq (e : state) :
  exists e1,
    close_rom e = (e1, Ret tt) /\ cpu e1 = CPU.init /\ running e1 = false /\
    ppu e1 = PPU.with_canvas [] (ppu e) /\ pending e1 = pending e /\
    status e1 = "ROM closed"%string.
Proof.
  unfold close_rom, bind at 1. rewrite stop_eq.
  set (e0 := if running e then _ else e).
  assert (ppu e0 = ppu e /\ running e0 = false /\ pending e0 = pending e)
    as (Hp0 & Hr0 & Hn0).
  { unfold e0. destruct (running e) eqn:Hr; by emu_simpl. }
  eexists. split; [reflexivity |]. emu_simpl.
  split; [reflexivity |]. split; [exact Hr0 |].
  split; [by rewrite Hp0 |]. split; [exact Hn0 | reflexivity].
Qed.

End CloseROM.

(** Close ROM unloads the test program: it leaves a fresh CPU with a
    cleared memory, so that the next Start finds the opcode [0x00] at the
    boot address: the CPU executes that one [BRK] and halts, while the
    emulator shows "Running" and goes on rendering frames. *)
Theorem close_rom_then_start_halts (fuel : nat) (e : SNESEmulator.state) :
  PPU.wf (SNESEmulator.ppu e) -> (2 <= fuel)%nat ->
  exists e',
    (SNESEmulator.close_rom ;; SNESEmulator.start fuel) e = (e', Ret tt) /\
    CPU.running (SNESEmulator.cpu e') = false /\
    CPU.PC (SNESEmulator.cpu e') = 0x8001 /\
    CPU.clock_cycles (SNESEmulator.cpu e') = 7 /\
    CPU.memory (SNESEmulator.cpu e') = bytearray 0x10000 /\
    SNESEmulator.running e' = true /\
    SNESEmulator.status e' = "Running"%string /\
    SNESEmulator.pending e' = S (SNESEmulator.pending e).
Proof.
  intros Hwf Hfuel.
  destruct (close_rom_eq e) as (e1 & E1 & Hc1 & Hr1 & Hp1 & Hn1 & _).
  unfold bind at 1. rewrite E1. rewrite (start_paused fuel e1 Hr1).
  rewrite Hc1.
  set (e2 := SNESEmulator.with_cpu _ _).
  destruct fuel as [| [| fuel]]; [lia | lia |].
  pose proof (execute_BRK (CPU.with_running true CPU.init) init_opcode) as Hb.
  set (c := CPU.with_clock_cycles _ _) in Hb.
  destruct (render_frame_returns (SNESEmulator.ppu e2)) as (p & Hr & _).
  { unfold e2. emu_simpl. rewrite Hp1. destruct Hwf. by split. }
  assert (SNESEmulator.run_frame (S (S fuel)) e2
          = (frame_end p
               (SNESEmulator.with_cpu c
                  (SNESEmulator.with_events
                     (SNESEmulator.Execute :: SNESEmulator.events e2) e2)),
             Ret tt)) as Hf.
  { apply (run_frame_running _ e2 _ (0 + 7)); [reflexivity | | exact Hr].
    rewrite (loop_step (S fuel) e2 0 7 c);
      [| unfold SNESEmulator.target_cycles; lia | reflexivity | exact Hb].
    by apply loop_halted. }
  unfold bind at 1. rewrite Hf.
  eexists. split; [reflexivity |].
  unfold frame_end, e2. emu_simpl.
  split; [reflexivity |]. split; [reflexivity |]. split; [reflexivity |].
  split; [reflexivity |]. split; [reflexivity |]. split; [reflexivity |].
  by rewrite Hn1.
Qed.

Lemma close_rom_then_start_halts_witness :
  PPU.wf (SNESEmulator.ppu nop_emulator) /\ (2 <= 2)%nat /\
  exists e',
    (SNESEmulator.close_rom ;; SNESEmulator.start 2) nop_emulator
      = (e', Ret tt) /\
    CPU.running (SNESEmulator.cpu e') = false /\
    CPU.PC (SNESEmulator.cpu e') = 0x8001 /\
    CPU.clock_cycles (SNESEmulator.cpu e') = 7 /\
    CPU.memory (SNESEmulator.cpu e') = bytearray 0x10000 /\
    SNESEmulator.running e' = true /\
    SNESEmulator.status e' = "Running"%string /\
    SNESEmulator.pending e' = S (SNESEmulator.pending nop_emulator).
Proof.
  assert (PPU.wf (SNESEmulator.ppu nop_emulator)) as H1
    by exact palette_ppu_wf.
  assert (2 <= 2)%nat as H2 by lia.
  split; [exact H1 |]. split; [exact H2 |].
  exact (close_rom_then_start_halts 2 nop_emulator H1 H2).
Defined.

Lemma run_frame_terminates_witness :
  let e := SNESEmulator.mkState CPU.init palette_ppu true "Running" 0 [] in
  cpu_inv (SNESEmulator.cpu e) /\
  exists fuel0, forall fuel, (fuel0 <= fuel)%nat ->
    snd (SNESEmulator.run_frame fuel e) <> OutOfFuel.
Proof.
  intros e.
  assert (cpu_inv (SNESEmulator.cpu e)) as H by exact cpu_inv_init.
  split; [exact H |].
  exact (run_frame_terminates e H).
Defined.
